(** * Two automation pipelines: audio recordings to Notion, Zotero notes to Anki

    A shallow embedding of [audio_to_notion.py] and [zotero_to_anki.py].
    Python strings are sequences of Unicode code points, dictionaries are
    finite maps, exceptions and loops that may run forever are explicit
    outcomes, and every remote service is a field of a type class. *)

From Stdlib Require Import ZArith NArith List String Ascii Lia.
From Stdlib Require Import Strings.Byte.
From stdpp Require Import base option list gmap fin_maps sets.

(** ** Python values and primitives *)

Module Py.

(** A [str] is a list of code points. *)
Abbreviation str := (list N).

Definition chr (c : ascii) : N := N_of_ascii c.
Definition py (s : string) : list N := map N_of_ascii (list_ascii_of_string s).

(** A [bytes] literal with ASCII characters only. *)
Definition bytes (s : string) : list byte := list_byte_of_string s.

Inductive exn : Type :=
| IndexError
| KeyError (key : str)
| StopIteration
| ValueError (msg : str)
| JSONDecodeError
| FileNotFoundError
| UnicodeDecodeError
| TypeError
| RequestException (msg : str)
| Exception (msg : str).

(** What running a piece of code gives: a value, an exception, or no answer
    within the steps allowed. *)
Inductive outcome (A : Type) : Type :=
| Done (a : A)
| Raise (e : exn)
| OutOfFuel.
Arguments Done {A} a.
Arguments Raise {A} e.
Arguments OutOfFuel {A}.

Definition bind {A B} (m : outcome A) (k : A -> outcome B) : outcome B :=
  match m with
  | Done a => k a
  | Raise e => Raise e
  | OutOfFuel => OutOfFuel
  end.

(** Code that also reads and changes a state [S]. An exception leaves the
    changes made before it in place, as Python does. *)
Definition M (S A : Type) : Type := S -> outcome A * S.

Definition ret {S A} (a : A) : M S A := fun s => (Done a, s).
Definition raise {S A} (e : exn) : M S A := fun s => (Raise e, s).
Definition lift {S A} (m : outcome A) : M S A := fun s => (m, s).
Definition gets {S A} (f : S -> A) : M S A := fun s => (Done (f s), s).
Definition modify {S} (f : S -> S) : M S unit := fun s => (Done tt, f s).
Definition bindM {S A B} (m : M S A) (k : A -> M S B) : M S B :=
  fun s =>
    match m s with
    | (Done a, s') => k a s'
    | (Raise e, s') => (Raise e, s')
    | (OutOfFuel, s') => (OutOfFuel, s')
    end.

(** [try: body except Exception as e: handler e]. *)
Definition try_except {S A} (body : M S A) (handler : exn -> M S A) : M S A :=
  fun s =>
    match body s with
    | (Raise e, s') => handler e s'
    | r => r
    end.

(** [for x in xs: body x]. *)
Fixpoint for_each {S A} (xs : list A) (body : A -> M S unit) : M S unit :=
  match xs with
  | [] => ret tt
  | x :: rest => bindM (body x) (fun _ => for_each rest body)
  end.

(** [str.isspace] on one code point, the set [str.strip] removes. *)
Definition isspace (c : N) : bool :=
  ((9 <=? c) && (c <=? 13) || (28 <=? c) && (c <=? 32) || (c =? 133) || (c =? 160)
   || (c =? 5760) || (8192 <=? c) && (c <=? 8202) || (c =? 8232) || (c =? 8233)
   || (c =? 8239) || (c =? 8287) || (c =? 12288))%N.

Fixpoint lstrip (s : str) : str :=
  match s with
  | c :: s' => if isspace c then lstrip s' else s
  | [] => []
  end.
Definition rstrip (s : str) : str := rev (lstrip (rev s)).
Definition strip (s : str) : str := rstrip (lstrip s).

(** Truth value of a string: non-empty. *)
Definition truthy (s : str) : bool :=
  match s with [] => false | _ :: _ => true end.

Definition len (s : str) : Z := Z.of_nat (length s).

(** Slice bounds as Python clamps them: a negative bound counts from the end. *)
Definition clamp (n : nat) (i : Z) : nat :=
  if (i <? 0)%Z then Z.to_nat (Z.max 0 (Z.of_nat n + i)) else Nat.min n (Z.to_nat i).
Definition slice_to (s : str) (i : Z) : str := take (clamp (length s) i) s.
Definition slice_from (s : str) (i : Z) : str := drop (clamp (length s) i) s.

(** [s[i]]: raises IndexError out of range. *)
Definition index (s : str) (i : Z) : outcome N :=
  let j := if (i <? 0)%Z then (len s + i)%Z else i in
  if (j <? 0)%Z then Raise IndexError
  else match s !! Z.to_nat j with
       | Some c => Done c
       | None => Raise IndexError
       end.

(** [range(start, stop, -1)]. *)
Definition range_down (start stop : Z) : list Z :=
  map (fun k => (start - Z.of_nat k)%Z) (seq 0 (Z.to_nat (start - stop))).

(** [c in cs] for a single character [c]. *)
Definition in_chars (c : N) (cs : str) : bool := existsb (N.eqb c) cs.

Fixpoint startswith (s prefix : str) : bool :=
  match prefix, s with
  | [], _ => true
  | p :: prefix', c :: s' => (c =? p)%N && startswith s' prefix'
  | _ :: _, [] => false
  end.

(** Line boundaries of [str.splitlines]. *)
Definition is_linebreak (c : N) : bool :=
  ((10 <=? c) && (c <=? 13) || (28 <=? c) && (c <=? 30) || (c =? 133)
   || (c =? 8232) || (c =? 8233))%N.

(** [cur] holds the current line reversed. A final line break opens no
    empty last line; carriage return followed by line feed is one break. *)
Fixpoint splitlines_from (cur : str) (s : str) : list str :=
  match s with
  | [] => match cur with [] => [] | _ :: _ => [rev cur] end
  | c :: s' =>
      if is_linebreak c then
        rev cur ::
          match s' with
          | c2 :: s'' =>
              if ((c =? 13) && (c2 =? 10))%N then splitlines_from [] s''
              else splitlines_from [] s'
          | [] => splitlines_from [] s'
          end
      else splitlines_from (c :: cur) s'
  end.
Definition splitlines (s : str) : list str := splitlines_from [] s.

(** [needle in s] for strings: some suffix of [s] starts with [needle]. *)
Fixpoint contains (s needle : str) : bool :=
  startswith s needle ||
  match s with
  | [] => false
  | _ :: s' => contains s' needle
  end.

(** [sep.join(parts)]. *)
Fixpoint join (sep : str) (parts : list str) : str :=
  match parts with
  | [] => []
  | [p] => p
  | p :: rest => p ++ sep ++ join sep rest
  end.

(** [s.replace(old, '')] for a single character [old]. *)
Definition remove_char (old : N) (s : str) : str :=
  List.filter (fun c => negb (c =? old)%N) s.

End Py.

Import Py.

Declare Scope py_scope.
Delimit Scope py_scope with py.
Notation "'let!' x ':=' m 'in' k" := (Py.bind m (fun x => k))
  (at level 10, x name, m at level 100, k at level 200) : py_scope.
Notation "'do!' x ':=' m 'in' k" := (Py.bindM m (fun x => k))
  (at level 10, x name, m at level 100, k at level 200) : py_scope.
Open Scope py_scope.

(** ** audio_to_notion.py *)

Module AudioToNotion.

(** *** split_text (nested in _create_notion_page) *)

(** The [for i in range(...)] scan: the first [i] whose character ends a
    sentence or is a blank sets the split point and breaks. *)
Fixpoint scan_back (text : str) (candidates : list Z) (split_point : Z) : outcome Z :=
  match candidates with
  | [] => Done split_point
  | i :: rest =>
      let! c := index text i in
      if in_chars c (py ".!?") then Done (i + 1)%Z
      else if (c =? chr " ")%N then Done (i + 1)%Z
      else scan_back text rest split_point
  end.

(** The [while text:] loop; each unit of fuel is one test of the loop
    condition. *)
Fixpoint split_loop (fuel : nat) (max_length : Z) (text : str) (chunks : list str)
  : outcome (list str) :=
  match fuel with
  | O => OutOfFuel
  | S fuel' =>
      if negb (truthy text) then Done chunks
      else if (len text <=? max_length)%Z then Done (chunks ++ [text])
      else
        let! split_point :=
          scan_back text (range_down max_length (Z.max 0 (max_length - 100))) max_length in
        split_loop fuel' max_length
          (lstrip (slice_from text split_point))
          (chunks ++ [slice_to text split_point])
  end.

Definition split_text_fuel (fuel : nat) (text : str) (max_length : Z) : outcome (list str) :=
  if (len text <=? max_length)%Z then Done [text]
  else split_loop fuel max_length text [].

(** One more test of the loop condition than the text has characters. *)
Definition split_text (text : str) (max_length : Z) : outcome (list str) :=
  split_text_fuel (S (length text)) text max_length.

Definition default_max_length : Z := 1900.

(** Blocks joined again, after each block the blanks removed behind it. *)
Definition undo_lstrip (blocks gaps : list str) : str :=
  concat (zip_with app blocks gaps).

(** Blocks joined again, before each block but the first the blanks
    removed in front of it. *)
Definition rejoin_between (blocks gaps : list str) : str :=
  match blocks with
  | [] => []
  | b :: bs => b ++ concat (zip_with app gaps bs)
  end.

(** A block after the first: not empty, and no blank at its start. *)
Definition later_block (b : str) : Prop := lstrip b = b /\ b <> [].

Definition all_space (s : str) : Prop := forallb isspace s = true.

(** A text of 1900 letters, a full stop, a blank and one more letter. *)
Definition overlong_text : str := repeat (chr "a") 1900 ++ py ". b".

(** A text of 1900 letters and a full stop, followed by two blanks. *)
Definition trailing_blank_text : str := repeat (chr "a") 1900 ++ py ".  ".

(** *** Files, libraries and remote services *)

(** A file of the monitored folder: [str(file_path)], [file_path.name] and
    the bytes on disk. *)
Record File := { f_path : str; f_name : str; f_bytes : list byte }.

(** The monitored folder ([None]: it does not exist) and the bytes of the
    state file ([None]: no such file). *)
Record Disk := { folder : option (list File); state_file : option (list byte) }.

(** What [json.load] returns: an object (its values are taken to be strings,
    as in every file the scripts write) or a JSON value of another kind (a
    list, a string, a number, true, false or null). *)
Inductive JsonValue : Type :=
| JsonObject (state : gmap str str)
| JsonOther.

(** hashlib, json and pathlib. [json_load] is [json.load(f)] on a file opened
    with [open(path, 'r')], by the bytes of the file: it returns a value, or
    raises (UnicodeDecodeError when the bytes do not decode as text,
    JSONDecodeError when the text is not JSON). [json_dump] gives the bytes
    that [json.dump(mapping, f, indent=2)] leaves in a file opened with 'w'.
    [glob_match pattern name] is pathlib's matching of one file name. *)
Class Libraries := {
  md5 : Type;
  md5_new : md5;
  md5_update : md5 -> list byte -> md5;
  md5_hexdigest : md5 -> str;
  json_load : list byte -> outcome JsonValue;
  json_dump : gmap str str -> list byte;
  glob_match : str -> str -> bool;
}.

Inductive Block : Type :=
| Heading2 (content : str)
| Paragraph (content : str).

Inductive Request : Type :=
| Transcription (api_key : str) (chunk : File) (model : str)
| ChatCompletion (api_key model system user : str) (max_tokens : Z) (temperature : str)
| CreatePage (token database_id title : str) (children : list Block).

(** A response: the status, the body, and what the three subscript chains
    the script applies to [response.json()] give ([None]: the chain raises). *)
Record Response := {
  status_code : Z;
  response_text : str;
  json_text : option str;
  json_content : option str;
  json_id : option str;
}.

(** [requests.post], and pydub's splitting of an over-long recording into
    temporary chunk files (the file itself when it is small enough or the
    splitting fails). *)
Class Services (Net : Type) := {
  requests_post : Request -> Net -> outcome Response * Net;
  _split_audio_if_needed : File -> Z -> Net -> list File * Net;
}.

(** What the script prints. *)
Inductive Event : Type :=
| NoNewFiles
| Found (names : list str)
| TranscribingChunk (chunk_name : str)
| GeneratingSummary
| CreatingPage (file_name : str)
| TitleWarning (e : exn)
| ProposedTitle (notion_title : str)
| Processed (file_name : str)
| Failed (file_name : str) (e : exn).

(** The processor's credentials. *)
Record Processor := {
  openai_api_key : str;
  notion_token : str;
  notion_database_id : str;
}.

(** Everything a run reads and changes. *)
Record Machine (Net : Type) := {
  processed_files : gmap str str;
  created_pages : list str;
  net : Net;
  disk : Disk;
  stdout : list Event;
}.
Arguments processed_files {Net} _.
Arguments created_pages {Net} _.
Arguments net {Net} _.
Arguments disk {Net} _.
Arguments stdout {Net} _.

(** [value[key]] on a parsed response. *)
Definition subscript (key : str) (v : option str) : outcome str :=
  match v with
  | Some x => Done x
  | None => Raise (KeyError key)
  end.

(** [os.getenv] gave a non-empty string. *)
Definition is_set (v : option str) : bool :=
  match v with
  | Some x => truthy x
  | None => false
  end.

Section Processor.
Context `{Libraries} {Net : Type} `{Services Net}.

Definition set_net (n : Net) (m : Machine Net) : Machine Net :=
  {| processed_files := processed_files m; created_pages := created_pages m;
     net := n; disk := disk m; stdout := stdout m |}.
Definition set_processed_files (pf : gmap str str) (m : Machine Net) : Machine Net :=
  {| processed_files := pf; created_pages := created_pages m;
     net := net m; disk := disk m; stdout := stdout m |}.
Definition set_created_pages (pages : list str) (m : Machine Net) : Machine Net :=
  {| processed_files := processed_files m; created_pages := pages;
     net := net m; disk := disk m; stdout := stdout m |}.
Definition set_disk (d : Disk) (m : Machine Net) : Machine Net :=
  {| processed_files := processed_files m; created_pages := created_pages m;
     net := net m; disk := d; stdout := stdout m |}.
Definition add_stdout (e : Event) (m : Machine Net) : Machine Net :=
  {| processed_files := processed_files m; created_pages := created_pages m;
     net := net m; disk := disk m; stdout := stdout m ++ [e] |}.

Definition post (r : Request) : M (Machine Net) Response :=
  fun m => let (res, n) := requests_post r (net m) in (res, set_net n m).
Definition print (e : Event) : M (Machine Net) unit := modify (add_stdout e).

(** *** _load_state, _save_state and __init__ *)

Definition open_read (d : Disk) : outcome (list byte) :=
  match state_file d with
  | Some data => Done data
  | None => Raise FileNotFoundError
  end.

(** The [except] clause names two exceptions; any other one that [open] or
    [json.load] raises leaves the function. What [json.load] returns is
    returned as it is, a mapping or not. *)
Definition _load_state (d : Disk) : outcome JsonValue :=
  if bool_decide (is_Some (state_file d)) then
    match (let! data := open_read d in json_load data) with
    | Raise JSONDecodeError => Done (JsonObject ∅)
    | Raise FileNotFoundError => Done (JsonObject ∅)
    | r => r
    end
  else Done (JsonObject ∅).

(** The state file is overwritten with the dump of the mapping. *)
Definition _save_state : M (Machine Net) unit :=
  modify (fun m =>
    set_disk {| folder := folder (disk m);
                state_file := Some (json_dump (processed_files m)) |} m).

(** [__init__], with the environment as load_dotenv leaves it: the
    credentials and what _load_state returned. *)
Definition init (env : gmap str str) (d : Disk)
  : outcome (Processor * JsonValue) :=
  let openai_api_key := env !! py "OPENAI_API_KEY" in
  let notion_token := env !! py "NOTION_TOKEN" in
  let notion_database_id := env !! py "NOTION_DATABASE_ID" in
  if negb (is_set openai_api_key) then
    Raise (ValueError (py "OPENAI_API_KEY environment variable is required"))
  else if negb (is_set notion_token) then
    Raise (ValueError (py "NOTION_TOKEN environment variable is required"))
  else if negb (is_set notion_database_id) then
    Raise (ValueError (py "NOTION_DATABASE_ID environment variable is required"))
  else
    let! state := _load_state d in
    Done ({| openai_api_key := default [] openai_api_key;
             notion_token := default [] notion_token;
             notion_database_id := default [] notion_database_id |}, state).

(** *** The file-change tracker *)

(** [iter(lambda: f.read(4096), b"")]: blocks of 4096 bytes up to the first
    empty read. *)
Fixpoint read_blocks (fuel : nat) (data : list byte) : list (list byte) :=
  match fuel with
  | O => []
  | S fuel' =>
      match take 4096 data with
      | [] => []
      | chunk => chunk :: read_blocks fuel' (drop 4096 data)
      end
  end.

Definition _get_file_hash (file_path : File) : str :=
  md5_hexdigest
    (fold_left md5_update
       (read_blocks (length (f_bytes file_path)) (f_bytes file_path)) md5_new).

Definition _get_mp3_files (d : Disk) : list File :=
  match folder d with
  | Some entries => List.filter (fun f => glob_match (py "*.mp3") (f_name f)) entries
  | None => []
  end.

Definition _get_new_files (d : Disk) (processed : gmap str str) : list File :=
  fold_left
    (fun new_files file_path =>
       let file_hash := _get_file_hash file_path in
       if negb (bool_decide (f_path file_path ∈ dom processed))
          || negb (bool_decide (processed !! f_path file_path = Some file_hash))
       then new_files ++ [file_path]
       else new_files)
    (_get_mp3_files d) [].

(** The tracker's test: the path is not stored with the file's current hash. *)
Definition changed (processed : gmap str str) (f : File) : bool :=
  negb (bool_decide (processed !! f_path f = Some (_get_file_hash f))).

(** *** _transcribe_audio and _summarize_text *)

Definition max_bytes : Z := 25 * 1024 * 1024.

(** The loop over the chunks: one request each, the texts joined with a
    line feed; the [except] branch deletes the temporary files and raises
    again. The size note that the script adds to the message of a "file too
    large" answer is not part of the message here. *)
Fixpoint transcribe_chunks (self : Processor) (chunk_paths : list File) (transcript : str)
  : M (Machine Net) str :=
  match chunk_paths with
  | [] => ret transcript
  | chunk_path :: rest =>
      do! _ := print (TranscribingChunk (f_name chunk_path)) in
      do! chunk_transcript :=
        try_except
          (do! response :=
             post (Transcription (openai_api_key self) chunk_path (py "whisper-1")) in
           if (status_code response =? 200)%Z then
             lift (subscript (py "text") (json_text response))
           else
             raise (Exception (py "Transcription failed for chunk " ++ f_name chunk_path
                               ++ py ": " ++ response_text response)))
          (fun e => raise e) in
      transcribe_chunks self rest (transcript ++ chunk_transcript ++ [10%N])
  end.

Definition _transcribe_audio (self : Processor) (file_path : File)
  : M (Machine Net) str :=
  do! chunk_paths :=
    (fun m => let (chunks, n) := _split_audio_if_needed file_path max_bytes (net m) in
              (Done chunks, set_net n m)) in
  do! transcript := transcribe_chunks self chunk_paths [] in
  ret (strip transcript).

Definition _summarize_text (self : Processor) (text : str) : M (Machine Net) str :=
  do! _ := print GeneratingSummary in
  do! response :=
    post (ChatCompletion (openai_api_key self) (py "gpt-4")
            (py "You are a helpful assistant that creates concise, informative summaries of audio transcriptions. Focus on key points, main ideas, and important details.")
            (py "Please provide a comprehensive summary of the following audio transcription:"
             ++ [10; 10]%N ++ text)
            500 (py "0.3")) in
  if (status_code response =? 200)%Z then
    lift (subscript (py "choices") (json_content response))
  else raise (Exception (py "Summarization failed: " ++ response_text response)).

(** *** _create_notion_page *)

Definition title_prompt (file_name transcript : str) : str :=
  py "Generate a concise, descriptive title (3-8 words) for this audio recording. Do not use quotation marks. Return only the title text. Audio filename: "
  ++ file_name ++ [10; 10]%N ++ py "Transcript preview: "
  ++ slice_to transcript 200 ++ py "...".

Definition title_request (self : Processor) (file_name transcript : str) : Request :=
  ChatCompletion (openai_api_key self) (py "gpt-4")
    (py "You are a helpful assistant that generates concise, descriptive titles for audio recordings. Do not use quotation marks. Return only the title text.")
    (title_prompt file_name transcript) 50 (py "0.3").

Definition page_children (summary : str) (transcript_chunks : list str) : list Block :=
  [Heading2 (py "Summary"); Paragraph summary; Heading2 (py "Full Transcript")]
  ++ map Paragraph transcript_chunks.

Definition _create_notion_page (self : Processor) (file_name transcript summary : str)
  : M (Machine Net) str :=
  do! _ := print (CreatingPage file_name) in
  do! notion_title :=
    try_except
      (do! title_response := post (title_request self file_name transcript) in
       if (status_code title_response =? 200)%Z then
         do! content := lift (subscript (py "choices") (json_content title_response)) in
         let ai_title := strip content in
         let ai_title := strip (remove_char 39 (remove_char 34 ai_title)) in
         let ai_title := if negb (truthy ai_title) then py "Untitled" else ai_title in
         ret (ai_title ++ py " - " ++ file_name)
       else ret file_name)
      (fun e => do! _ := print (TitleWarning e) in ret file_name) in
  do! _ := print (ProposedTitle notion_title) in
  do! transcript_chunks := lift (split_text transcript default_max_length) in
  do! response :=
    post (CreatePage (notion_token self) (notion_database_id self) notion_title
            (page_children summary transcript_chunks)) in
  if (status_code response =? 200)%Z then
    lift (subscript (py "id") (json_id response))
  else raise (Exception (py "Notion page creation failed: " ++ response_text response)).

(** *** process_new_files *)

(** The body of the [try] for one file. *)
Definition process_file (self : Processor) (file_path : File) : M (Machine Net) unit :=
  do! transcript := _transcribe_audio self file_path in
  do! summary := _summarize_text self transcript in
  do! page_id := _create_notion_page self (f_name file_path) transcript summary in
  do! _ := modify (fun m => set_created_pages (created_pages m ++ [page_id]) m) in
  do! _ := modify (fun m =>
             set_processed_files
               (<[f_path file_path := _get_file_hash file_path]> (processed_files m)) m) in
  print (Processed (f_name file_path)).

(** One turn of the loop: the [try] with its [except Exception]. *)
Definition process_one (self : Processor) (file_path : File) : M (Machine Net) unit :=
  try_except (process_file self file_path)
             (fun e => print (Failed (f_name file_path) e)).

Definition process_loop (self : Processor) (new_files : list File) : M (Machine Net) unit :=
  for_each new_files (process_one self).

Definition process_new_files (self : Processor) : M (Machine Net) (list str) :=
  do! new_files := gets (fun m => _get_new_files (disk m) (processed_files m)) in
  if negb (bool_decide (new_files <> [])) then
    do! _ := print NoNewFiles in ret []
  else
    do! _ := print (Found (map f_name new_files)) in
    do! _ := modify (set_created_pages []) in
    do! _ := process_loop self new_files in
    do! _ := _save_state in
    gets created_pages.

(** *** Vocabulary for the properties of a run *)

(** What the remote calls and the printing leave alone. *)
Definition kept (m m' : Machine Net) : Prop :=
  processed_files m' = processed_files m
  /\ created_pages m' = created_pages m
  /\ disk m' = disk m.

Definition frame {A} (c : M (Machine Net) A) : Prop :=
  forall m, kept m (snd (c m)).

(** The state after a file went through all three steps. *)
Definition mark_processed (file_path : File) (page_id : str) (m : Machine Net) : Machine Net :=
  add_stdout (Processed (f_name file_path))
    (set_processed_files (<[f_path file_path := _get_file_hash file_path]> (processed_files m))
       (set_created_pages (created_pages m ++ [page_id]) m)).

(** One of the three steps for [file_path], started in [m], raises [e] and
    leaves the state [m1]. *)
Inductive step_raises (self : Processor) (file_path : File) (m : Machine Net)
  (e : exn) (m1 : Machine Net) : Prop :=
| transcription_raises :
    _transcribe_audio self file_path m = (Raise e, m1) ->
    step_raises self file_path m e m1
| summarization_raises (transcript : str) (ma : Machine Net) :
    _transcribe_audio self file_path m = (Done transcript, ma) ->
    _summarize_text self transcript ma = (Raise e, m1) ->
    step_raises self file_path m e m1
| page_creation_raises (transcript summary : str) (ma mb : Machine Net) :
    _transcribe_audio self file_path m = (Done transcript, ma) ->
    _summarize_text self transcript ma = (Done summary, mb) ->
    _create_notion_page self (f_name file_path) transcript summary mb = (Raise e, m1) ->
    step_raises self file_path m e m1.

(** The title request raised, or came back with a status other than 200. *)
Definition title_failed (res : outcome Response) : Prop :=
  match res with
  | Raise _ => True
  | Done title_response => status_code title_response <> 200%Z
  | OutOfFuel => False
  end.

(** What _create_notion_page makes of the answer to the page request. *)
Definition page_result (res : outcome Response) : outcome str :=
  match res with
  | Done response =>
      if (status_code response =? 200)%Z then subscript (py "id") (json_id response)
      else Raise (Exception (py "Notion page creation failed: " ++ response_text response))
  | Raise e => Raise e
  | OutOfFuel => OutOfFuel
  end.

End Processor.

(** *** Stand-ins for the libraries and services, to run the model *)

Definition same_bytes (a b : list byte) : bool :=
  bool_decide (map Byte.to_N a = map Byte.to_N b).

Definition ends_with (s suffix : str) : bool :=
  bool_decide (drop (length s - length suffix) s = suffix).

(** A digest that is the data itself, a text decoding that accepts ASCII
    bytes only with a parser that knows the empty object and the empty list,
    and a matcher for patterns of the form [*suffix]. *)
Definition demo_libraries : Libraries :=
  {| md5 := list byte;
     md5_new := @nil byte;
     md5_update := fun (h chunk : list byte) => h ++ chunk;
     md5_hexdigest := fun h : list byte => map (fun b => N.of_nat (Byte.to_nat b)) h;
     json_load := fun data =>
       if forallb (fun b => (Byte.to_N b <? 128)%N) data then
         if same_bytes data (bytes "{}") then Done (JsonObject ∅)
         else if same_bytes data (bytes "[]") then Done JsonOther
         else Raise JSONDecodeError
       else Raise UnicodeDecodeError;
     json_dump := fun _ => bytes "{}";
     glob_match := fun pattern file_name =>
       match pattern with
       | 42%N :: suffix => ends_with file_name suffix
       | _ => bool_decide (file_name = pattern)
       end |}.

(** *** hashlib's md5 (RFC 1321) *)

(** The digest the scripts use, written out so that the tracker can be run
    on real digests. Words are 32-bit values held in [Z]. *)
Definition word (x : Z) : Z := Z.land x 4294967295.
Definition rotl (x c : Z) : Z := word (Z.lor (Z.shiftl x c) (Z.shiftr x (32 - c))).
Definition word_not (x : Z) : Z := Z.lxor x 4294967295.

Definition md5_shifts : list Z :=
  [7; 12; 17; 22; 7; 12; 17; 22; 7; 12; 17; 22; 7; 12; 17; 22;
   5; 9; 14; 20; 5; 9; 14; 20; 5; 9; 14; 20; 5; 9; 14; 20;
   4; 11; 16; 23; 4; 11; 16; 23; 4; 11; 16; 23; 4; 11; 16; 23;
   6; 10; 15; 21; 6; 10; 15; 21; 6; 10; 15; 21; 6; 10; 15; 21]%Z.

(** [floor(2^32 * abs(sin(i + 1)))]. *)
Definition md5_sines : list Z :=
  [3614090360; 3905402710; 606105819; 3250441966; 4118548399; 1200080426;
   2821735955; 4249261313; 1770035416; 2336552879; 4294925233; 2304563134;
   1804603682; 4254626195; 2792965006; 1236535329; 4129170786; 3225465664;
   643717713; 3921069994; 3593408605; 38016083; 3634488961; 3889429448;
   568446438; 3275163606; 4107603335; 1163531501; 2850285829; 4243563512;
   1735328473; 2368359562; 4294588738; 2272392833; 1839030562; 4259657740;
   2763975236; 1272893353; 4139469664; 3200236656; 681279174; 3936430074;
   3572445317; 76029189; 3654602809; 3873151461; 530742520; 3299628645;
   4096336452; 1126891415; 2878612391; 4237533241; 1700485571; 2399980690;
   4293915773; 2240044497; 1873313359; 4264355552; 2734768916; 1309151649;
   4149444226; 3174756917; 718787259; 3951481745]%Z.

Definition byte_value (b : byte) : Z := Z.of_N (Byte.to_N b).
Definition value_byte (x : Z) : byte :=
  default x00 (Byte.of_N (Z.to_N (Z.land x 255))).

(** Little-endian words of a block, and the bytes of a word. *)
Fixpoint le_words (n : nat) (block : list byte) : list Z :=
  match n, block with
  | S n', b0 :: b1 :: b2 :: b3 :: rest =>
      (byte_value b0 + Z.shiftl (byte_value b1) 8 + Z.shiftl (byte_value b2) 16
       + Z.shiftl (byte_value b3) 24)%Z :: le_words n' rest
  | _, _ => []
  end.
Definition le_bytes (n : nat) (x : Z) : list byte :=
  map (fun k => value_byte (Z.shiftr x (8 * Z.of_nat k))) (seq 0 n).

(** The message, a 1 bit, zeros up to 56 modulo 64, and the length in bits. *)
Definition md5_pad (msg : list byte) : list byte :=
  let n := Z.of_nat (length msg) in
  msg ++ [x80] ++ repeat x00 (Z.to_nat ((55 - n) mod 64))
  ++ le_bytes 8 (Z.land (8 * n) 18446744073709551615).

Definition md5_round (M : list Z) (state : Z * Z * Z * Z) (i : nat) : Z * Z * Z * Z :=
  let '(A, B, C, D) := state in
  let i' := Z.of_nat i in
  let '(F, g) :=
    if (i' <? 16)%Z then (Z.lor (Z.land B C) (Z.land (word_not B) D), i')
    else if (i' <? 32)%Z then
      (Z.lor (Z.land D B) (Z.land (word_not D) C), ((5 * i' + 1) mod 16)%Z)
    else if (i' <? 48)%Z then (Z.lxor (Z.lxor B C) D, ((3 * i' + 5) mod 16)%Z)
    else (Z.lxor C (Z.lor B (word_not D)), ((7 * i') mod 16)%Z) in
  let F := word (F + A + nth i md5_sines 0 + nth (Z.to_nat g) M 0)%Z in
  (D, word (B + rotl F (nth i md5_shifts 0%Z))%Z, B, C).

Definition md5_block (h : Z * Z * Z * Z) (block : list byte) : Z * Z * Z * Z :=
  let '(a0, b0, c0, d0) := h in
  let '(A, B, C, D) := fold_left (md5_round (le_words 16 block)) (seq 0 64) h in
  (word (a0 + A), word (b0 + B), word (c0 + C), word (d0 + D))%Z.

Fixpoint md5_blocks (n : nat) (h : Z * Z * Z * Z) (data : list byte) : Z * Z * Z * Z :=
  match n with
  | O => h
  | S n' => md5_blocks n' (md5_block h (take 64 data)) (drop 64 data)
  end.

Definition md5_digest (msg : list byte) : list byte :=
  let padded := md5_pad msg in
  let '(a0, b0, c0, d0) :=
    md5_blocks (length padded / 64) (1732584193, 4023233417, 2562383102, 271733878)%Z
      padded in
  le_bytes 4 a0 ++ le_bytes 4 b0 ++ le_bytes 4 c0 ++ le_bytes 4 d0.

Definition hex_digit (x : N) : N := if (x <? 10)%N then (48 + x)%N else (87 + x)%N.
Definition hexdigest (digest : list byte) : str :=
  flat_map (fun b => [hex_digit (Byte.to_N b / 16); hex_digit (Byte.to_N b mod 16)]) digest.

(** hashlib.md5 as the scripts use it: [update] feeds bytes, [hexdigest]
    gives the digest of everything fed; the rest as in [demo_libraries]. *)
Definition md5_libraries : Libraries :=
  {| md5 := list byte;
     md5_new := @nil byte;
     md5_update := fun (h chunk : list byte) => h ++ chunk;
     md5_hexdigest := fun h : list byte => hexdigest (md5_digest h);
     json_load := @json_load demo_libraries;
     json_dump := @json_dump demo_libraries;
     glob_match := @glob_match demo_libraries |}.

(** Two contents of 128 bytes with the same MD5 digest (Wang and Yu, 2005),
    as two versions of one recording. *)
Definition collision_a : list byte :=
  [xd1; x31; xdd; x02; xc5; xe6; xee; xc4; x69; x3d; x9a; x06; x98; xaf; xf9; x5c;
   x2f; xca; xb5; x87; x12; x46; x7e; xab; x40; x04; x58; x3e; xb8; xfb; x7f; x89;
   x55; xad; x34; x06; x09; xf4; xb3; x02; x83; xe4; x88; x83; x25; x71; x41; x5a;
   x08; x51; x25; xe8; xf7; xcd; xc9; x9f; xd9; x1d; xbd; xf2; x80; x37; x3c; x5b;
   xd8; x82; x3e; x31; x56; x34; x8f; x5b; xae; x6d; xac; xd4; x36; xc9; x19; xc6;
   xdd; x53; xe2; xb4; x87; xda; x03; xfd; x02; x39; x63; x06; xd2; x48; xcd; xa0;
   xe9; x9f; x33; x42; x0f; x57; x7e; xe8; xce; x54; xb6; x70; x80; xa8; x0d; x1e;
   xc6; x98; x21; xbc; xb6; xa8; x83; x93; x96; xf9; x65; x2b; x6f; xf7; x2a; x70].
Definition collision_b : list byte :=
  [xd1; x31; xdd; x02; xc5; xe6; xee; xc4; x69; x3d; x9a; x06; x98; xaf; xf9; x5c;
   x2f; xca; xb5; x07; x12; x46; x7e; xab; x40; x04; x58; x3e; xb8; xfb; x7f; x89;
   x55; xad; x34; x06; x09; xf4; xb3; x02; x83; xe4; x88; x83; x25; xf1; x41; x5a;
   x08; x51; x25; xe8; xf7; xcd; xc9; x9f; xd9; x1d; xbd; x72; x80; x37; x3c; x5b;
   xd8; x82; x3e; x31; x56; x34; x8f; x5b; xae; x6d; xac; xd4; x36; xc9; x19; xc6;
   xdd; x53; xe2; x34; x87; xda; x03; xfd; x02; x39; x63; x06; xd2; x48; xcd; xa0;
   xe9; x9f; x33; x42; x0f; x57; x7e; xe8; xce; x54; xb6; x70; x80; x28; x0d; x1e;
   xc6; x98; x21; xbc; xb6; xa8; x83; x93; x96; xf9; x65; xab; x6f; xf7; x2a; x70].

Definition recording_before : File :=
  {| f_path := py "audio/memo.mp3"; f_name := py "memo.mp3"; f_bytes := collision_a |}.
Definition recording_after : File :=
  {| f_path := py "audio/memo.mp3"; f_name := py "memo.mp3"; f_bytes := collision_b |}.

(** A state file whose bytes are not text in UTF-8 or ASCII. *)
Definition undecodable_state : list byte := [xff; xfe; x7b; x7d].
Definition undecodable_disk : Disk :=
  {| folder := Some [recording_before]; state_file := Some undecodable_state |}.

Definition demo_response (status : Z) (body : str) : Response :=
  {| status_code := status; response_text := body;
     json_text := Some body; json_content := Some body; json_id := Some body |}.

(** Transcription and page creation answer 200; the chat endpoint answers
    500 while the state is [false] and 200 once it is [true]. *)
Definition demo_services : Services bool :=
  {| requests_post := fun (r : Request) (up : bool) =>
       match r with
       | Transcription _ _ _ => (Done (demo_response 200 (py "hello world")), up)
       | ChatCompletion _ _ _ _ _ _ =>
           if up then (Done (demo_response 200 (py "A summary.")), up)
           else (Done (demo_response 500 (py "server error")), up)
       | CreatePage _ _ _ _ => (Done (demo_response 200 (py "page-1")), up)
       end;
     _split_audio_if_needed := fun (file_path : File) (_ : Z) (up : bool) =>
       ([file_path], up) |}.

Definition demo_self : Processor :=
  {| openai_api_key := py "sk-demo"; notion_token := py "secret-demo";
     notion_database_id := py "db-demo" |}.

(** The environment with the three credentials. *)
Definition demo_env : gmap str str :=
  <[py "OPENAI_API_KEY" := py "sk-demo"]>
    (<[py "NOTION_TOKEN" := py "secret-demo"]>
       (<[py "NOTION_DATABASE_ID" := py "db-demo"]> ∅)).

Definition demo_file : File :=
  {| f_path := py "audio/memo.mp3"; f_name := py "memo.mp3"; f_bytes := [x49; x44; x33] |}.

(** The same recording with one more byte. *)
Definition edited_file : File :=
  {| f_path := py "audio/memo.mp3"; f_name := py "memo.mp3";
     f_bytes := [x49; x44; x33; x04] |}.

Definition demo_machine (up : bool) : Machine bool :=
  {| processed_files := ∅; created_pages := []; net := up;
     disk := {| folder := Some [demo_file]; state_file := None |}; stdout := [] |}.

(** *** Vocabulary for the page request *)

(** The title text after [strip], the removal of both quotation marks and
    another [strip]. *)
Definition clean_title (content : str) : str :=
  strip (remove_char 39 (remove_char 34 (strip content))).

(** The page title chosen for each answer to the title request. *)
Definition notion_title_for (file_name : str) (res : outcome Response) : str :=
  match res with
  | Done title_response =>
      if (status_code title_response =? 200)%Z then
        match json_content title_response with
        | Some content =>
            (if negb (truthy (clean_title content)) then py "Untitled"
             else clean_title content) ++ py " - " ++ file_name
        | None => file_name
        end
      else file_name
  | _ => file_name
  end.

(** The tracker's other reading of the mapping: the path is not a key. *)
Definition path_absent (processed : gmap str str) (f : File) : bool :=
  negb (bool_decide (f_path f ∈ dom processed)).

(** *** get_processing_stats and main *)

(** The dictionary get_processing_stats returns. *)
Record Stats := {
  total_mp3_files : Z;
  stat_processed_files : Z;
  unprocessed_files : Z;
}.

(** What main prints. *)
Inductive MainLine : Type :=
| StatsBefore (stats : Stats)
| CreatedPages (page_ids : list str)
| NoNewPages
| FinalStats (stats : Stats)
| MainError (e : exn).

(** A run of main: the processor's machine and main's own output. *)
Record Session (Net : Type) := {
  machine : Machine Net;
  console : list MainLine;
}.
Arguments machine {Net} _.
Arguments console {Net} _.

(** Python goes on with whatever _load_state returned. With a value that is
    not a mapping in place of [processed_files], what the rest of main's
    [try] block does depends on the kind of value (a list answers [not in]
    and rejects the assignment of a hash, a number has no [len]); the model
    does not follow it and takes that part of a run as a parameter. *)
Class OtherState (Net : Type) := {
  rest_of_try_on_other_state : Processor -> M (Session Net) unit;
}.

Section Reports.
Context `{Libraries} {Net : Type} `{Services Net} `{OtherState Net}.

Definition get_processing_stats (d : Disk) (processed : gmap str str) : Stats :=
  let total_files := Z.of_nat (length (_get_mp3_files d)) in
  let processed_count := Z.of_nat (size processed) in
  {| total_mp3_files := total_files;
     stat_processed_files := processed_count;
     unprocessed_files := (total_files - processed_count)%Z |}.

Definition in_machine {A} (c : M (Machine Net) A) : M (Session Net) A :=
  fun s => let (r, m) := c (machine s) in (r, {| machine := m; console := console s |}).

Definition say (line : MainLine) : M (Session Net) unit :=
  modify (fun s => {| machine := machine s; console := console s ++ [line] |}).

(** [AudioToNotionProcessor(FOLDER_PATH, STATE_FILE)]. *)
Definition new_processor (env : gmap str str) : M (Session Net) (Processor * JsonValue) :=
  fun s => (init env (disk (machine s)), s).

Definition stats_now : M (Session Net) Stats :=
  gets (fun s => get_processing_stats (disk (machine s)) (processed_files (machine s))).

(** [main]: the [try] block with its [except Exception]; the value is the
    exit code. *)
Definition main (env : gmap str str) : M (Session Net) Z :=
  try_except
    (do! built := new_processor env in
     match snd built with
     | JsonObject state =>
         let processor := fst built in
         do! _ := modify (fun s => {| machine := set_processed_files state (machine s);
                                      console := console s |}) in
         do! stats_before := stats_now in
         do! _ := say (StatsBefore stats_before) in
         do! created_pages := in_machine (process_new_files processor) in
         do! _ := (if bool_decide (created_pages <> []) then say (CreatedPages created_pages)
                   else say NoNewPages) in
         do! stats_after := stats_now in
         do! _ := say (FinalStats stats_after) in
         ret 0%Z
     | JsonOther =>
         do! _ := rest_of_try_on_other_state (fst built) in
         ret 0%Z
     end)
    (fun e => do! _ := say (MainError e) in ret 1%Z).

(** *** _initialize_existing_files.py *)

(** The same function as _get_file_hash, defined again in that script. *)
Definition get_file_hash (file_path : File) : str :=
  md5_hexdigest
    (fold_left md5_update
       (read_blocks (length (f_bytes file_path)) (f_bytes file_path)) md5_new).

(** The mapping with one file recorded under its current hash. *)
Definition record_file (pf : gmap str str) (f : File) : gmap str str :=
  <[f_path f := _get_file_hash f]> pf.

End Reports.

(** A stand-in for the part of a run the model does not follow. *)
Definition demo_other_state : OtherState bool :=
  {| rest_of_try_on_other_state := fun _ => ret tt |}.

(** What initialize_existing_files prints. *)
Inductive InitLine : Type :=
| FolderMissing
| NoMp3Files
| FoundFiles (count : nat)
| LoadedState (count : nat)
| NoExistingState
| Updated (file_name : str)
| AlreadyTracked (file_name : str)
| Added (file_name : str)
| Summary (total : nat) (new_files_added existing_files_updated : Z).

(** The variables of its loop: the mapping, the two counters, the output. *)
Record InitState := {
  existing_state : gmap str str;
  new_files_added : Z;
  existing_files_updated : Z;
  init_lines : list InitLine;
}.

Section Initialize.
Context `{Libraries}.

(** The body of [for file_path in mp3_files]. *)
Definition initialize_file (st : InitState) (file_path : File) : InitState :=
  let file_hash := get_file_hash file_path in
  let file_key := f_path file_path in
  if bool_decide (file_key ∈ dom (existing_state st)) then
    if negb (bool_decide (existing_state st !! file_key = Some file_hash)) then
      {| existing_state := <[file_key := file_hash]> (existing_state st);
         new_files_added := new_files_added st;
         existing_files_updated := (existing_files_updated st + 1)%Z;
         init_lines := init_lines st ++ [Updated (f_name file_path)] |}
    else
      {| existing_state := existing_state st;
         new_files_added := new_files_added st;
         existing_files_updated := existing_files_updated st;
         init_lines := init_lines st ++ [AlreadyTracked (f_name file_path)] |}
  else
    {| existing_state := <[file_key := file_hash]> (existing_state st);
       new_files_added := (new_files_added st + 1)%Z;
       existing_files_updated := existing_files_updated st;
       init_lines := init_lines st ++ [Added (f_name file_path)] |}.

(** The mapping the script starts from (lines 47-55): the state file's, or
    empty when the file is missing or json.load raises JSONDecodeError; any
    other exception leaves the function. The function is past the test
    that [mp3_files] is not empty, so a JSON value that is not an object
    raises TypeError before anything is written: in [len(existing_state)]
    or, for a list or a string, in the first turn of the loop (on the
    subscript). *)
Definition initial_state (d : Disk) (lines : list InitLine) : outcome InitState :=
  match state_file d with
  | Some data =>
      match json_load data with
      | Done (JsonObject state) =>
          Done {| existing_state := state; new_files_added := 0;
                  existing_files_updated := 0;
                  init_lines := lines ++ [LoadedState (size state)] |}
      | Done JsonOther => Raise TypeError
      | Raise JSONDecodeError | Raise FileNotFoundError =>
          Done {| existing_state := ∅; new_files_added := 0; existing_files_updated := 0;
                  init_lines := lines ++ [NoExistingState] |}
      | Raise e => Raise e
      | OutOfFuel => OutOfFuel
      end
  | None =>
      Done {| existing_state := ∅; new_files_added := 0; existing_files_updated := 0;
              init_lines := lines |}
  end.

(** The result ([True] or [False]), the disk afterwards, and the loop's
    variables at the end; or the exception raised, with the disk as it was
    (the state file is written last). *)
Definition initialize_existing_files (d : Disk) : outcome (bool * Disk * InitState) :=
  let nothing (line : InitLine) :=
    Done (false, d, {| existing_state := ∅; new_files_added := 0;
                       existing_files_updated := 0; init_lines := [line] |}) in
  match folder d with
  | None => nothing FolderMissing
  | Some entries =>
      let mp3_files := List.filter (fun f => glob_match (py "*.mp3") (f_name f)) entries in
      if negb (bool_decide (mp3_files <> [])) then nothing NoMp3Files
      else
        let! st0 := initial_state d [FoundFiles (length mp3_files)] in
        let st := fold_left initialize_file mp3_files st0 in
        Done (true,
              {| folder := folder d; state_file := Some (json_dump (existing_state st)) |},
              {| existing_state := existing_state st;
                 new_files_added := new_files_added st;
                 existing_files_updated := existing_files_updated st;
                 init_lines := init_lines st
                               ++ [Summary (size (existing_state st)) (new_files_added st)
                                     (existing_files_updated st)] |})
  end.

End Initialize.

(** *** Vocabulary for the transcription *)


Section Answers.
Context {Net : Type} `{Services Net}.


End Answers.

End AudioToNotion.

(** ** zotero_to_anki.py *)

Module ZoteroToAnki.

(** *** Zotero items *)

Record Creator := { lastName : option str }.

(** One fetched item: [i["key"]] and the fields of [i["data"]] the script
    reads. [parentItem] and [date] are [None] when the key is absent. *)
Record Item := {
  key : str;
  itemType : str;
  parentItem : option str;
  note : str;
  creators : list Creator;
  date : option str;
}.

Record Collection := { coll_key : str; coll_name : str }.

(** html2text's [handle] and [str.lower]. *)
Class TextLibs := {
  html2text_handle : str -> str;
  lower : str -> str;
}.

(** Requests sent to AnkiConnect and to the chat-completion endpoint. *)
Inductive Call : Type :=
| DeckNames
| CreateDeck (deck : str)
| AddNotes (deck front back : str)
| ChatCompletion (text : str).

(** The remote ends: one page of Zotero collections or of a collection's
    items (limit, start), AnkiConnect's ["result"] list, and the content of
    the first choice of a chat completion. *)
Class Remote (Net : Type) := {
  zotero_collections : Z -> Z -> Net -> outcome (list Collection) * Net;
  zotero_collection_items : str -> Z -> Z -> Net -> outcome (list Item) * Net;
  anki_post : Call -> Net -> outcome (list str) * Net;
  openai_post : str -> Net -> outcome str * Net;
}.

(** What a run reads and changes: the set of deck names known to exist, the
    requests sent so far, and the remote ends. *)
Record World (Net : Type) := {
  decks_exist : gset str;
  calls : list Call;
  net : Net;
}.
Arguments decks_exist {Net} _.
Arguments calls {Net} _.
Arguments net {Net} _.

(** *** parse_cards *)

Definition parse_line (state : str * str * list (str * str)) (ln : str)
  : str * str * list (str * str) :=
  let '(q, a, out) := state in
  let ln := strip ln in
  if startswith ln (py "Q:") then
    let out := if truthy q && truthy a then out ++ [(q, a)] else out in
    (strip (drop 2 ln), [], out)
  else if startswith ln (py "A:") then (q, strip (drop 2 ln), out)
  else (q, a, out).

Definition parse_cards (txt : str) : list (str * str) :=
  let '(q, a, out) := fold_left parse_line (splitlines txt) ([], [], []) in
  if truthy q && truthy a then out ++ [(q, a)] else out.

(** A line as parse_cards reads it, after [strip]. *)
Inductive line_kind : Type :=
| QLine (question : str)
| ALine (answer : str)
| OtherLine.

Definition classify (ln : str) : line_kind :=
  let ln := strip ln in
  if startswith ln (py "Q:") then QLine (strip (drop 2 ln))
  else if startswith ln (py "A:") then ALine (strip (drop 2 ln))
  else OtherLine.

(** An "A:" line comes before the next "Q:" line. *)
Fixpoint answered (lines : list line_kind) : bool :=
  match lines with
  | [] => false
  | ALine _ :: _ => true
  | QLine _ :: _ => false
  | OtherLine :: rest => answered rest
  end.

(** The number of "Q:" lines followed by an "A:" line before the next "Q:"
    line. *)
Fixpoint answered_questions (lines : list line_kind) : nat :=
  match lines with
  | [] => 0
  | QLine _ :: rest => (if answered rest then 1 else 0) + answered_questions rest
  | _ :: rest => answered_questions rest
  end.

(** The text of the last "A:" line before the next "Q:" line, [a] if there
    is none. *)
Fixpoint last_answer (lines : list line_kind) (a : str) : str :=
  match lines with
  | [] => a
  | ALine a' :: rest => last_answer rest a'
  | QLine _ :: _ => a
  | OtherLine :: rest => last_answer rest a
  end.

Definition emit (q a : str) : list (str * str) :=
  if truthy q && truthy a then [(q, a)] else [].

(** One pair for each "Q:" line with a non-empty question whose last "A:"
    line before the next "Q:" line has a non-empty answer. *)
Fixpoint wellformed_pairs (lines : list line_kind) : list (str * str) :=
  match lines with
  | [] => []
  | QLine q :: rest => emit q (last_answer rest []) ++ wellformed_pairs rest
  | _ :: rest => wellformed_pairs rest
  end.

Definition finish (state : str * str * list (str * str)) : list (str * str) :=
  let '(q, a, out) := state in
  if truthy q && truthy a then out ++ [(q, a)] else out.

(** A reply whose answer starts on the line after "A:". *)
Definition reply_answer_on_next_line : str :=
  py "Q: What is GABA?" ++ [10%N] ++ py "A:" ++ [10%N]
  ++ py "An inhibitory neurotransmitter.".

(** *** top_level_key *)

(** [{i["key"]: i for i in items}]: a later item replaces an earlier one
    with the same key. *)
Definition index_by_key (items : list Item) : gmap str Item :=
  fold_left (fun m i => <[key i := i]> m) items ∅.

(** The [while True] loop; each unit of fuel is one lookup. *)
Fixpoint top_level_key_fuel (fuel : nat) (items_by_key : gmap str Item) (k : str)
  : outcome str :=
  match fuel with
  | O => OutOfFuel
  | S fuel' =>
      let itm := items_by_key !! k in
      let parent := match itm with Some i => parentItem i | None => None end in
      match parent with
      | Some p => if negb (truthy p) then Done k
                  else top_level_key_fuel fuel' items_by_key p
      | None => Done k
      end
  end.

(** One more lookup than the map has items. *)
Definition top_level_key (items_by_key : gmap str Item) (k : str) : outcome str :=
  top_level_key_fuel (S (size items_by_key)) items_by_key k.

(** The parent reference the loop follows from [k], if any: the item is
    fetched and its parentItem is a non-empty string. *)
Definition parent_of (items_by_key : gmap str Item) (k : str) : option str :=
  match items_by_key !! k with
  | Some i =>
      match parentItem i with
      | Some p => if truthy p then Some p else None
      | None => None
      end
  | None => None
  end.

(** The key reached from [k] by following [n] parent references. *)
Fixpoint ancestor (n : nat) (items_by_key : gmap str Item) (k : str) : option str :=
  match n with
  | O => Some k
  | S n' =>
      match parent_of items_by_key k with
      | Some p => ancestor n' items_by_key p
      | None => None
      end
  end.

(** No key reaches itself by following one or more parent references. *)
Definition acyclic (items_by_key : gmap str Item) : Prop :=
  forall k n, ancestor (S n) items_by_key k <> Some k.

(** No key reached from [k] reaches itself again. *)
Definition cycle_free_from (items_by_key : gmap str Item) (k : str) : Prop :=
  forall m c n,
    ancestor m items_by_key k = Some c -> ancestor (S n) items_by_key c <> Some c.

(** *** Grouping the annotation notes *)

(** [annos.setdefault(k, []).append(md)] on a dict kept in insertion order. *)
Fixpoint setdefault_append (annos : list (str * list str)) (k md : str)
  : list (str * list str) :=
  match annos with
  | [] => [(k, [md])]
  | (k', txts) :: rest =>
      if decide (k' = k) then (k', txts ++ [md]) :: rest
      else (k', txts) :: setdefault_append rest k md
  end.

Definition annos_get (annos : list (str * list str)) (k : str) : option (list str) :=
  snd <$> List.find (fun e => bool_decide (fst e = k)) annos.

Definition is_note (i : Item) : bool := bool_decide (itemType i = py "note").

Definition is_paper (i : Item) : bool :=
  bool_decide (itemType i = py "journalArticle")
  || bool_decide (itemType i = py "conferencePaper")
  || bool_decide (itemType i = py "report").

Definition papers_by_id (items : list Item) : gmap str Item :=
  index_by_key (List.filter is_paper items).

Section Pipeline.
Context `{TextLibs} {Net : Type} `{Remote Net}.

Definition markdown (n : Item) : str := strip (html2text_handle (note n)).

Definition is_annotation (md : str) : bool :=
  contains (slice_to (lower md) 80) (py "annotations").

Fixpoint group_notes (items_by_key : gmap str Item) (notes : list Item)
  (annos : list (str * list str)) : outcome (list (str * list str)) :=
  match notes with
  | [] => Done annos
  | n :: rest =>
      let md := markdown n in
      if negb (is_annotation md) then group_notes items_by_key rest annos
      else
        let! parent :=
          match parentItem n with
          | Some p => Done p
          | None => Raise (KeyError (py "parentItem"))
          end in
        let! top_key := top_level_key items_by_key parent in
        group_notes items_by_key rest (setdefault_append annos top_key md)
  end.

(** *** The helpers that talk to the remote ends *)

Definition send {A} (c : option Call) (f : Net -> outcome A * Net) : M (World Net) A :=
  fun w =>
    let (r, n) := f (net w) in
    (r, {| decks_exist := decks_exist w;
           calls := match c with Some c => calls w ++ [c] | None => calls w end;
           net := n |}).

(** The paging loop of all_collections and fetch_items; each unit of fuel
    is one page. *)
Fixpoint paginate {A} (fuel : nat) (fetch : Z -> Z -> Net -> outcome (list A) * Net)
  (limit start : Z) (out : list A) : M (World Net) (list A) :=
  match fuel with
  | O => lift OutOfFuel
  | S fuel' =>
      do! page := send None (fetch limit start) in
      let out := out ++ page in
      if (Z.of_nat (length page) <? limit)%Z then ret out
      else paginate fuel' fetch limit (start + limit)%Z out
  end.

Definition all_collections (fuel : nat) : M (World Net) (list Collection) :=
  paginate fuel zotero_collections 100 0 [].
Definition fetch_items (fuel : nat) (coll_key : str) : M (World Net) (list Item) :=
  paginate fuel (zotero_collection_items coll_key) 100 0 [].

Definition existing_decks : M (World Net) (gset str) :=
  do! r := send (Some DeckNames) (anki_post DeckNames) in
  ret (list_to_set r).
Definition ensure_deck (deck : str) : M (World Net) unit :=
  do! _ := send (Some (CreateDeck deck)) (anki_post (CreateDeck deck)) in ret tt.
Definition push_card (deck front back : str) : M (World Net) unit :=
  do! _ := send (Some (AddNotes deck front back)) (anki_post (AddNotes deck front back)) in
  ret tt.
Definition generate_cards (text : str) : M (World Net) str :=
  send (Some (ChatCompletion text)) (openai_post text).

Definition set_decks_exist (decks : gset str) (w : World Net) : World Net :=
  {| decks_exist := decks; calls := calls w; net := net w |}.

(** The addNotes request for one card, and the world after a request. *)
Definition add_notes (deck : str) (card : str * str) : Call :=
  AddNotes deck (fst card) (snd card).

Definition logged (c : Call) (n : Net) (w : World Net) : World Net :=
  {| decks_exist := decks_exist w; calls := calls w ++ [c]; net := n |}.

(** *** run_pipeline *)

Definition parent_deck (collection_name : str) : str :=
  py "CMU.49.007 Automated Literature Review::" ++ collection_name.

Definition deck_name (PARENT_DECK : str) (paper : Item) : outcome str :=
  let! creator :=
    match creators paper with
    | c :: _ => Done c
    | [] => Raise IndexError
    end in
  let author := default (py "Unknown") (lastName creator) in
  let year := slice_to (default [] (date paper)) 4 in
  let year := if negb (truthy year) then py "n.d." else year in
  Done (PARENT_DECK ++ py "::" ++ author ++ py " et al., " ++ year).

(** The body of [for pid, txts in annos.items()]. *)
Definition process_group (PARENT_DECK : str) (papers : gmap str Item)
  (group : str * list str) : M (World Net) unit :=
  let (pid, txts) := group in
  match papers !! pid with
  | None => ret tt
  | Some paper =>
      do! deck := lift (deck_name PARENT_DECK paper) in
      do! known := gets (fun w => bool_decide (deck ∈ decks_exist w)) in
      if known then ret tt
      else
        do! _ := ensure_deck deck in
        do! _ := modify (fun w => set_decks_exist ({[deck]} ∪ decks_exist w) w) in
        let notes_block := join [10; 10]%N txts in
        do! reply := generate_cards notes_block in
        let cards := parse_cards reply in
        for_each cards (fun card => push_card deck (fst card) (snd card))
  end.

Definition run_pipeline (fuel : nat) (collection_name : str) : M (World Net) unit :=
  let PARENT_DECK := parent_deck collection_name in
  do! collections := all_collections fuel in
  match List.find (fun c => bool_decide (coll_name c = collection_name)) collections with
  | None => ret tt
  | Some c =>
      do! items := fetch_items fuel (coll_key c) in
      let notes := List.filter is_note items in
      let items_by_key := index_by_key items in
      do! annos := lift (group_notes items_by_key notes []) in
      let papers := papers_by_id items in
      do! decks := existing_decks in
      do! _ := modify (set_decks_exist decks) in
      for_each annos (process_group PARENT_DECK papers)
  end.

End Pipeline.

(** *** Stand-ins for the libraries and remote ends, to run the model *)

Definition ascii_lower (s : str) : str :=
  map (fun c => if ((65 <=? c) && (c <=? 90))%N then (c + 32)%N else c) s.

Definition demo_text : TextLibs :=
  {| html2text_handle := fun s : str => s; lower := ascii_lower |}.

Definition demo_reply : str :=
  py "Q: What is measured? (Doe et al., 2015)" ++ [10%N] ++ py "A: GABA release."
  ++ [10%N] ++ py "Q:" ++ [10%N] ++ py "A: An answer without a question.".

(** No collections, AnkiConnect with no deck, and a fixed chat reply. *)
Definition demo_remote : Remote unit :=
  {| zotero_collections := fun (_ _ : Z) (n : unit) => (Done [], n);
     zotero_collection_items := fun (_ : str) (_ _ : Z) (n : unit) => (Done [], n);
     anki_post := fun (_ : Call) (n : unit) => (Done [], n);
     openai_post := fun (_ : str) (n : unit) => (Done demo_reply, n) |}.

Definition demo_item (k type : str) (parent : option str) (text : str) : Item :=
  {| key := k; itemType := type; parentItem := parent; note := text;
     creators := [{| lastName := Some (py "Doe") |}]; date := Some (py "2015-03-01") |}.

(** A paper, an attachment of it, an attachment of that, and a note below. *)
Definition demo_paper : Item := demo_item (py "PAPER1") (py "journalArticle") None [].
Definition demo_pdf : Item := demo_item (py "PDF1") (py "attachment") (Some (py "PAPER1")) [].
Definition demo_page : Item := demo_item (py "PAGE1") (py "attachment") (Some (py "PDF1")) [].
Definition demo_note : Item :=
  demo_item (py "NOTE1") (py "note") (Some (py "PAGE1")) (py "Annotations: GABA sensing").
Definition demo_items : list Item := [demo_paper; demo_pdf; demo_page; demo_note].

Definition demo_world : World unit := {| decks_exist := ∅; calls := []; net := tt |}.

(** Two notes that name each other as parent. *)
Definition cycle_items : list Item :=
  [demo_item (py "NOTE1") (py "note") (Some (py "NOTE2")) [];
   demo_item (py "NOTE2") (py "note") (Some (py "NOTE1")) []].

(** A rank that falls along the parent references of the demo items. *)
Definition demo_rank (k : str) : nat :=
  if decide (k = py "NOTE1") then 3
  else if decide (k = py "PAGE1") then 2
  else if decide (k = py "PDF1") then 1
  else 0.

Definition demo_papers : gmap str Item := papers_by_id demo_items.
Definition demo_deck : str :=
  py "CMU.49.007 Automated Literature Review::79.002 Biosensors::Doe et al., 2015".

(** *** Vocabulary for the grouping and the requests of a run *)

Section Buckets.
Context `{TextLibs}.

(** An annotation note whose parentItem resolves to [k]. *)
Definition bucketed_under (items_by_key : gmap str Item) (k : str) (n : Item) : bool :=
  is_annotation (markdown n)
  && match parentItem n with
     | Some p =>
         match top_level_key items_by_key p with
         | Done top => bool_decide (top = k)
         | _ => false
         end
     | None => false
     end.

End Buckets.

(** A list as the value of a group: no entry for the empty list. *)
Definition nonempty {A} (l : list A) : option (list A) :=
  match l with [] => None | _ :: _ => Some l end.

(** The deck names of the createDeck requests among [sent], in order. *)
Definition created_decks (sent : list Call) : list str :=
  flat_map (fun c => match c with CreateDeck deck => [deck] | _ => [] end) sent.

(** A Zotero library that holds fixed lists and serves them by slices; the
    other ends as in [demo_remote]. *)
Definition serving_remote (colls : list Collection) (items : list Item) : Remote unit :=
  {| zotero_collections := fun (limit start : Z) (n : unit) =>
       (Done (take (Z.to_nat limit) (drop (Z.to_nat start) colls)), n);
     zotero_collection_items := fun (_ : str) (limit start : Z) (n : unit) =>
       (Done (take (Z.to_nat limit) (drop (Z.to_nat start) items)), n);
     anki_post := fun (_ : Call) (n : unit) => (Done [], n);
     openai_post := fun (_ : str) (n : unit) => (Done demo_reply, n) |}.

(** 250 notes, to be fetched in three pages. *)
Definition many_items : list Item := repeat demo_note 250.

(** A collection, and a note of its own (no parentItem) whose text starts
    with the word the script looks for. *)
Definition demo_collection : Collection :=
  {| coll_key := py "COLL1"; coll_name := py "79.002 Biosensors" |}.

Definition standalone_note : Item :=
  demo_item (py "NOTE9") (py "note") None (py "Annotations (loose)").

(** A second paper by the same first author in the same year. *)
Definition demo_paper2 : Item := demo_item (py "PAPER2") (py "conferencePaper") None [].
Definition twin_papers : gmap str Item := papers_by_id [demo_paper; demo_paper2].

(** The requests that follow the creation of [deck] in the turn of a group:
    the generation request and the cards pushed to that deck. *)
Definition follows_deck (deck : str) (c : Call) : Prop :=
  match c with
  | ChatCompletion _ => True
  | AddNotes d _ _ => d = deck
  | _ => False
  end.


End ZoteroToAnki.

(** ** Properties of audio_to_notion.py *)

Module AudioToNotionSpec.
Import AudioToNotion.

Lemma lstrip_split (s : str) :
  exists gap, s = gap ++ lstrip s /\ all_space gap.
Proof.
  induction s as [|c s IH]; simpl.
  - exists []. split; reflexivity.
  - destruct (isspace c) eqn:Hc.
    + destruct IH as (g & Hs & Hg). exists (c :: g). split.
      * simpl. congruence.
      * unfold all_space in *. simpl. rewrite Hc, Hg. reflexivity.
    + exists []. split; reflexivity.
Qed.

Lemma lstrip_idem (s : str) : lstrip (lstrip s) = lstrip s.
Proof.
  induction s as [|c s IH]; simpl; [reflexivity|].
  destruct (isspace c) eqn:Hc; [exact IH|]. simpl. rewrite Hc. reflexivity.
Qed.

Lemma length_lstrip (s : str) : length (lstrip s) <= length s.
Proof.
  induction s as [|c s IH]; simpl; [lia|].
  destruct (isspace c); simpl; lia.
Qed.

Lemma index_in_range (s : str) (i : Z) :
  (0 <= i < len s)%Z -> exists c, index s i = Done c.
Proof.
  intros Hi. unfold index, len in *.
  destruct (Z.ltb_spec i 0) as [?|_]; [lia|].
  destruct (Z.ltb_spec i 0) as [?|_]; [lia|].
  destruct (s !! Z.to_nat i) as [c|] eqn:Hl; [eauto|].
  apply lookup_ge_None in Hl. lia.
Qed.

(** The scan answers the fallback or one past a scanned index. *)
Lemma scan_back_range (text : str) (candidates : list Z) (d : Z) :
  Forall (fun i => 0 <= i < len text)%Z candidates ->
  exists sp, scan_back text candidates d = Done sp /\
             (sp = d \/ exists i, In i candidates /\ sp = (i + 1)%Z).
Proof.
  induction candidates as [|i rest IH]; intros Hall; cbn [scan_back].
  - eauto.
  - inversion Hall as [|? ? Hi Hrest]; subst.
    destruct (index_in_range text i Hi) as [c ->]. cbn [bind].
    assert (Hhit : exists sp, Done (i + 1)%Z = Done sp /\
              (sp = d \/ exists j, In j (i :: rest) /\ sp = (j + 1)%Z)).
    { exists (i + 1)%Z. split; [reflexivity|]. right. exists i. split; [left|]; reflexivity. }
    destruct (in_chars c (py ".!?")); [exact Hhit|].
    destruct (c =? chr " ")%N; [exact Hhit|].
    destruct (IH Hrest) as (sp & Hsp & Hcases). exists sp. split; [exact Hsp|].
    destruct Hcases as [->|(j & Hj & ->)]; [left; reflexivity|].
    right. exists j. split; [right; exact Hj|reflexivity].
Qed.

Lemma range_down_In (start stop i : Z) :
  In i (range_down start stop) <-> (stop < i <= start)%Z.
Proof.
  unfold range_down. rewrite in_map_iff. split.
  - intros (k & <- & Hk%in_seq). lia.
  - intros Hi. exists (Z.to_nat (start - i)). split; [lia|].
    apply in_seq. lia.
Qed.

(** With a positive limit, the split point of an over-long text lies in
    [1, max_length + 1], hence inside the text. *)
Lemma split_point_range (text : str) (max_length : Z) :
  (1 <= max_length)%Z -> (max_length < len text)%Z ->
  exists sp,
    scan_back text (range_down max_length (Z.max 0 (max_length - 100))) max_length = Done sp
    /\ (1 <= sp <= max_length + 1)%Z.
Proof.
  intros Hmax Hlen.
  destruct (scan_back_range text (range_down max_length (Z.max 0 (max_length - 100))) max_length)
    as (sp & Hsp & Hcases).
  - apply List.Forall_forall. intros i Hi%range_down_In. lia.
  - exists sp. split; [exact Hsp|].
    destruct Hcases as [->|(i & Hi%range_down_In & ->)]; lia.
Qed.

Lemma clamp_inside (n : nat) (i : Z) :
  (0 <= i <= Z.of_nat n)%Z -> clamp n i = Z.to_nat i.
Proof.
  intros Hi. unfold clamp. destruct (Z.ltb_spec i 0); lia.
Qed.

Lemma lstrip_take (s : str) (n : nat) :
  lstrip s = s -> 0 < n -> lstrip (take n s) = take n s.
Proof.
  destruct s as [|c s]; intros Hs Hn.
  - destruct n; reflexivity.
  - destruct n as [|n]; [lia|]. simpl in *.
    destruct (isspace c); [|reflexivity].
    exfalso. pose proof (length_lstrip s) as Hl.
    rewrite Hs in Hl. simpl in Hl. lia.
Qed.

(** The loop, started on a text that does not begin with a blank. *)
Lemma split_loop_spec (max_length : Z) (fuel : nat) :
  (1 <= max_length)%Z ->
  forall (text : str) (chunks : list str),
    length text < fuel ->
    lstrip text = text ->
    exists blocks gaps,
      split_loop fuel max_length text chunks = Done (chunks ++ blocks)
      /\ length gaps = length blocks
      /\ Forall all_space gaps
      /\ undo_lstrip blocks gaps = text
      /\ Forall later_block blocks.
Proof.
  intros Hmax. induction fuel as [|fuel IH]; intros text chunks Hfuel Hhead; [lia|].
  simpl. destruct text as [|c0 text0] eqn:Etext.
  - exists [], []. simpl. rewrite app_nil_r. repeat split; constructor.
  - rewrite <- Etext in *. assert (Hne : text <> []) by (subst; discriminate).
    replace (negb (truthy text)) with false by (subst; reflexivity).
    destruct (Z.leb_spec (len text) max_length) as [Hle|Hgt].
    + exists [text], [[]]. simpl. unfold undo_lstrip. simpl.
      rewrite !app_nil_r. repeat split; try (repeat constructor; fail).
      constructor; [split; assumption|constructor].
    + destruct (split_point_range text max_length Hmax Hgt) as (sp & -> & Hsp).
      simpl. unfold slice_from, slice_to, len in *.
      rewrite clamp_inside by lia.
      destruct (lstrip_split (drop (Z.to_nat sp) text)) as (gap & Hgap & Hspace).
      destruct (IH (lstrip (drop (Z.to_nat sp) text)) (chunks ++ [take (Z.to_nat sp) text]))
        as (blocks & gaps & Hrun & Hlen & Hgaps & Hjoin & Hblocks).
      * pose proof (length_lstrip (drop (Z.to_nat sp) text)) as Hl.
        rewrite length_drop in Hl. lia.
      * apply lstrip_idem.
      * exists (take (Z.to_nat sp) text :: blocks), (gap :: gaps).
        rewrite Hrun, <- app_assoc. simpl. repeat split.
        -- congruence.
        -- constructor; assumption.
        -- unfold undo_lstrip in *. simpl. rewrite Hjoin, <- app_assoc, <- Hgap.
           apply take_drop.
        -- constructor; [|exact Hblocks]. split.
           ++ apply lstrip_take; [exact Hhead|lia].
           ++ intros Hnil. apply (f_equal (@length N)) in Hnil.
              rewrite length_take in Hnil. simpl in Hnil. lia.
Qed.

(** The loop on any text: the first block may begin with blanks. *)
Lemma split_loop_any (max_length : Z) (fuel : nat) (text : str) :
  (1 <= max_length)%Z ->
  length text < fuel ->
  (max_length < len text)%Z ->
  exists blocks gaps,
    split_loop fuel max_length text [] = Done blocks
    /\ length gaps = length blocks
    /\ Forall all_space gaps
    /\ undo_lstrip blocks gaps = text
    /\ Forall later_block (tail blocks).
Proof.
  intros Hmax Hfuel Hgt. destruct fuel as [|fuel]; [lia|]. simpl.
  assert (Hne : negb (truthy text) = false).
  { destruct text; [unfold len in Hgt; simpl in Hgt; lia|reflexivity]. }
  rewrite Hne. destruct (Z.leb_spec (len text) max_length) as [?|_]; [lia|].
  destruct (split_point_range text max_length Hmax Hgt) as (sp & -> & Hsp).
  simpl. unfold slice_from, slice_to, len in *.
  rewrite clamp_inside by lia.
  destruct (lstrip_split (drop (Z.to_nat sp) text)) as (gap & Hgap & Hspace).
  destruct (split_loop_spec max_length fuel Hmax
              (lstrip (drop (Z.to_nat sp) text)) [take (Z.to_nat sp) text])
    as (blocks & gaps & Hrun & Hlen & Hgaps & Hjoin & Hblocks).
  - pose proof (length_lstrip (drop (Z.to_nat sp) text)) as Hl.
    rewrite length_drop in Hl. lia.
  - apply lstrip_idem.
  - exists (take (Z.to_nat sp) text :: blocks), (gap :: gaps).
    rewrite Hrun. simpl. repeat split.
    + congruence.
    + constructor; assumption.
    + unfold undo_lstrip in *. simpl. rewrite Hjoin, <- app_assoc, <- Hgap.
      apply take_drop.
    + exact Hblocks.
Qed.

(** Blocks are at most one character longer than the limit. *)
Lemma split_loop_bound (max_length : Z) (fuel : nat) :
  (1 <= max_length)%Z ->
  forall (text : str) (chunks blocks : list str),
    split_loop fuel max_length text chunks = Done blocks ->
    Forall (fun b => len b <= max_length + 1)%Z chunks ->
    Forall (fun b => len b <= max_length + 1)%Z blocks.
Proof.
  intros Hmax. induction fuel as [|fuel IH]; intros text chunks blocks Hrun Hchunks;
    [discriminate|].
  cbn [split_loop] in Hrun. destruct (negb (truthy text)).
  - injection Hrun as <-. exact Hchunks.
  - destruct (Z.leb_spec (len text) max_length) as [Hle|Hgt].
    + injection Hrun as <-. apply Forall_app. split; [exact Hchunks|].
      constructor; [lia|constructor].
    + destruct (split_point_range text max_length Hmax Hgt) as (sp & Hsp & Hrange).
      rewrite Hsp in Hrun. cbn [bind] in Hrun. apply IH in Hrun; [exact Hrun|].
      apply Forall_app. split; [exact Hchunks|]. constructor; [|constructor].
      unfold slice_to, len in *. rewrite clamp_inside by lia.
      rewrite length_take. lia.
Qed.

(** X1: for a limit of at least 1, split_text returns and every block has
    at most [max_length + 1] characters. *)
Theorem split_text_block_bound (text : str) (max_length : Z) :
  (1 <= max_length)%Z ->
  exists blocks,
    split_text text max_length = Done blocks
    /\ Forall (fun b => len b <= max_length + 1)%Z blocks.
Proof.
  intros Hmax. unfold split_text, split_text_fuel.
  destruct (Z.leb_spec (len text) max_length) as [Hle|Hgt].
  - exists [text]. split; [reflexivity|]. constructor; [lia|constructor].
  - destruct (split_loop_any max_length (S (length text)) text Hmax) as (blocks & _ & Hrun & _);
      [lia|exact Hgt|].
    exists blocks. split; [exact Hrun|].
    eapply split_loop_bound; [exact Hmax|exact Hrun|constructor].
Qed.

Lemma split_text_block_bound_witness :
  exists blocks,
    split_text overlong_text default_max_length = Done blocks
    /\ Forall (fun b => len b <= default_max_length + 1)%Z blocks.
Proof.
  apply (split_text_block_bound overlong_text default_max_length).
  unfold default_max_length. lia.
Defined.

(** C1, at the default limit of 1900: the scan starts at index 1900 itself,
    so a full stop there puts the split point at 1901 and the first block
    returned is 1901 characters long, one more than the limit. *)
Theorem split_text_block_over_limit :
  split_text overlong_text default_max_length
    = Done [repeat (chr "a") 1900 ++ py "."; py "b"]
  /\ len (repeat (chr "a") 1900 ++ py ".") = (default_max_length + 1)%Z.
Proof. split; vm_compute; reflexivity. Qed.

(** C2 as stated fails: the two blanks at the end of this text are removed
    by the lstrip after the only split and no block follows them, so the one
    block returned, with blanks put back in front of later blocks (there are
    none), is not the text. *)
Lemma split_text_drops_final_blanks :
  split_text trailing_blank_text default_max_length
    = Done [repeat (chr "a") 1900 ++ py "."]
  /\ (forall gaps : list str,
        rejoin_between [repeat (chr "a") 1900 ++ py "."] gaps <> trailing_blank_text).
Proof.
  split; [vm_compute; reflexivity|].
  intros gaps Heq. apply (f_equal (@length N)) in Heq.
  unfold rejoin_between in Heq.
  replace (zip_with app gaps []) with (@nil (list N)) in Heq by (destruct gaps; reflexivity).
  vm_compute in Heq. discriminate Heq.
Qed.

(** C2, amended: for a limit of at least 1, split_text returns, and the text
    is its blocks each followed by the blanks that the lstrip after that
    block's split removed (the last gap holds blanks at the very end of the
    text, which appear in no block). The gaps are exactly what lstrip
    removed: every block after the first is non-empty and begins with a
    character that is not a blank. *)
Theorem split_text_undo_lstrip (text : str) (max_length : Z) :
  (1 <= max_length)%Z ->
  exists blocks gaps,
    split_text text max_length = Done blocks
    /\ length gaps = length blocks
    /\ Forall all_space gaps
    /\ undo_lstrip blocks gaps = text
    /\ Forall later_block (tail blocks).
Proof.
  intros Hmax. unfold split_text, split_text_fuel.
  destruct (Z.leb_spec (len text) max_length) as [Hle|Hgt].
  - exists [text], [[]]. unfold undo_lstrip. simpl. rewrite !app_nil_r.
    repeat split; repeat constructor.
  - apply split_loop_any; [exact Hmax|lia|exact Hgt].
Qed.

Lemma split_text_undo_lstrip_witness :
  exists blocks gaps,
    split_text (py "One. Two.   ") 5 = Done blocks
    /\ length gaps = length blocks
    /\ Forall all_space gaps
    /\ undo_lstrip blocks gaps = py "One. Two.   "
    /\ Forall later_block (tail blocks).
Proof. apply (split_text_undo_lstrip (py "One. Two.   ") 5). lia. Defined.

(** *** The file-change tracker *)

Section Tracker.
Context `{Libraries}.

Lemma new_file_test (processed : gmap str str) (f : File) :
  negb (bool_decide (f_path f ∈ dom processed))
  || negb (bool_decide (processed !! f_path f = Some (_get_file_hash f)))
  = changed processed f.
Proof.
  unfold changed.
  destruct (bool_decide (processed !! f_path f = Some (_get_file_hash f))) eqn:Hh;
    [|apply orb_true_r].
  apply bool_decide_eq_true in Hh. rewrite orb_false_r.
  apply negb_false_iff, bool_decide_eq_true, elem_of_dom. rewrite Hh. eauto.
Qed.

(** The loop of _get_new_files is a filter of the MP3 files, in order. *)
Lemma _get_new_files_filter (d : Disk) (processed : gmap str str) :
  _get_new_files d processed = List.filter (changed processed) (_get_mp3_files d).
Proof.
  unfold _get_new_files.
  enough (Hgen : forall files acc,
    fold_left
      (fun new_files file_path =>
         if negb (bool_decide (f_path file_path ∈ dom processed))
            || negb (bool_decide (processed !! f_path file_path
                                  = Some (_get_file_hash file_path)))
         then new_files ++ [file_path] else new_files) files acc
    = acc ++ List.filter (changed processed) files) by apply (Hgen _ []).
  induction files as [|f files IH]; intros acc; simpl.
  - symmetry. apply app_nil_r.
  - rewrite IH, new_file_test. destruct (changed processed f); simpl.
    + rewrite <- app_assoc. reflexivity.
    + reflexivity.
Qed.

Lemma _get_file_hash_bytes (f old : File) :
  f_bytes f = f_bytes old -> _get_file_hash f = _get_file_hash old.
Proof. unfold _get_file_hash. intros ->. reflexivity. Qed.

(** The blocks read are the file's bytes in order, cut into pieces of 1 to
    4096 bytes. *)
Lemma read_blocks_concat (fuel : nat) (data : list byte) :
  length data <= fuel ->
  concat (read_blocks fuel data) = data
  /\ Forall (fun block => 0 < length block <= 4096) (read_blocks fuel data).
Proof.
  revert data. induction fuel as [|fuel IH]; intros data Hfuel.
  - destruct data; [split; [reflexivity|constructor]|simpl in Hfuel; lia].
  - cbn [read_blocks]. remember 4096 as size eqn:Hsize.
    destruct (take size data) as [|b block] eqn:Htake.
    + apply (f_equal (@length byte)) in Htake. rewrite length_take in Htake.
      simpl in Htake. destruct data; [split; [reflexivity|constructor]|].
      simpl in Htake. lia.
    + assert (Hlen : length (b :: block) = Nat.min size (length data))
        by (rewrite <- Htake; apply length_take).
      destruct (IH (drop size data)) as [Hcat Hall].
      { rewrite length_drop. simpl in Hlen. lia. }
      split.
      * cbn [concat]. rewrite Hcat, <- Htake. apply take_drop.
      * constructor; [|exact Hall]. simpl in Hlen |- *. lia.
Qed.

(** For a digest that can be fed in pieces, the hash computed block by
    block is the digest of the whole content. *)
Lemma _get_file_hash_whole (file_path : File) :
  (forall h a b, md5_update (md5_update h a) b = md5_update h (a ++ b)) ->
  (forall h, md5_update h [] = h) ->
  _get_file_hash file_path = md5_hexdigest (md5_update md5_new (f_bytes file_path)).
Proof.
  intros Hfeed Hnone. unfold _get_file_hash. f_equal.
  destruct (read_blocks_concat (length (f_bytes file_path)) (f_bytes file_path)
              (Nat.le_refl _)) as [Hcat _].
  rewrite <- Hcat at 3.
  generalize (read_blocks (length (f_bytes file_path)) (f_bytes file_path)) as blocks.
  generalize md5_new as h.
  intros h blocks. revert h.
  induction blocks as [|block blocks IH]; intros h; cbn [fold_left concat].
  - symmetry. apply Hnone.
  - rewrite IH, Hfeed. reflexivity.
Qed.

(** C3, amended: the tracker returns, in folder order, exactly the MP3 files
    of the folder whose path is absent from the stored mapping or stored
    with a hash other than the file's current one. A file stored with the
    hash of its earlier bytes is not returned when its bytes are the same,
    and is returned when its current hash differs from that of the earlier
    bytes: so always when its bytes differ and the digest, fed in pieces or
    at once, gives different contents different values. (Bytes that differ
    but have the same MD5 digest are not noticed.) *)
Theorem tracker_reports_changed_files (d : Disk) (processed : gmap str str) (f : File) :
  _get_new_files d processed = List.filter (changed processed) (_get_mp3_files d)
  /\ (In f (_get_new_files d processed) <->
        In f (_get_mp3_files d)
        /\ (processed !! f_path f = None
             \/ exists h, processed !! f_path f = Some h /\ h <> _get_file_hash f))
  /\ (forall old : File,
        processed !! f_path f = Some (_get_file_hash old) ->
        f_bytes f = f_bytes old ->
        ~ In f (_get_new_files d processed))
  /\ (forall old : File,
        processed !! f_path f = Some (_get_file_hash old) ->
        _get_file_hash f <> _get_file_hash old ->
        In f (_get_mp3_files d) ->
        In f (_get_new_files d processed))
  /\ ((forall h a b, md5_update (md5_update h a) b = md5_update h (a ++ b)) ->
      (forall h, md5_update h [] = h) ->
      (forall a b, md5_hexdigest (md5_update md5_new a) = md5_hexdigest (md5_update md5_new b) ->
                   a = b) ->
      forall old : File,
        processed !! f_path f = Some (_get_file_hash old) ->
        f_bytes f <> f_bytes old ->
        In f (_get_mp3_files d) ->
        In f (_get_new_files d processed)).
Proof.
  assert (Hin : forall g, In g (_get_new_files d processed) <->
                          In g (_get_mp3_files d) /\ changed processed g = true).
  { intros g. rewrite _get_new_files_filter. apply filter_In. }
  assert (Hdiffer : forall old : File,
             processed !! f_path f = Some (_get_file_hash old) ->
             _get_file_hash f <> _get_file_hash old ->
             In f (_get_mp3_files d) ->
             In f (_get_new_files d processed)).
  { intros old Hold Hne Hmp3. apply Hin. split; [exact Hmp3|].
    unfold changed. rewrite negb_true_iff, bool_decide_eq_false, Hold. congruence. }
  split; [apply _get_new_files_filter|]. split; [|split; [|split]].
  - rewrite Hin. unfold changed. rewrite negb_true_iff, bool_decide_eq_false.
    split; intros [Hmp3 Hch]; (split; [exact Hmp3|]).
    + destruct (processed !! f_path f) as [h|]; [right|left; reflexivity].
      exists h. split; [reflexivity|]. congruence.
    + destruct Hch as [->|(h & -> & Hne)]; congruence.
  - intros old Hold Hbytes [_ Hch]%Hin. unfold changed in Hch.
    rewrite negb_true_iff, bool_decide_eq_false in Hch. apply Hch.
    rewrite Hold. f_equal. symmetry. apply _get_file_hash_bytes. exact Hbytes.
  - exact Hdiffer.
  - intros Hfeed Hnone Hfree old Hold Hbytes Hmp3. apply (Hdiffer old Hold); [|exact Hmp3].
    rewrite !(_get_file_hash_whole _ Hfeed Hnone). intros Hsame.
    apply Hbytes, Hfree, Hsame.
Qed.

(** *** Loading the state *)

Lemma _load_state_raises (d : Disk) (data : list byte) (e : exn) :
  state_file d = Some data -> json_load data = Raise e ->
  e <> JSONDecodeError -> e <> FileNotFoundError ->
  _load_state d = Raise e.
Proof.
  intros Hfile Hraise Hjson Hmissing. unfold _load_state, open_read. rewrite Hfile.
  rewrite bool_decide_eq_true_2 by eauto. cbn [bind]. rewrite Hraise.
  destruct e; try reflexivity; congruence.
Qed.

Lemma _get_new_files_empty (d : Disk) : _get_new_files d ∅ = _get_mp3_files d.
Proof.
  rewrite _get_new_files_filter.
  induction (_get_mp3_files d) as [|f files IH]; simpl; [reflexivity|].
  unfold changed at 1. rewrite lookup_empty.
  rewrite bool_decide_eq_false_2 by discriminate. simpl. f_equal. exact IH.
Qed.

(** C10, amended: with the state file missing, or present with text on
    which json.load raises JSONDecodeError, _load_state returns the empty
    mapping; so __init__, given the three credentials, returns a processor
    whose mapping is empty, and the tracker then reports every MP3 file of
    the folder. Any exception of json.load other than the two the [except]
    clause names (UnicodeDecodeError for a file whose bytes are not text)
    leaves _load_state, and so __init__, which then builds no processor. *)
Theorem load_state_missing_or_invalid (d : Disk) (env : gmap str str) :
  (state_file d = None
   \/ (exists data, state_file d = Some data /\ json_load data = Raise JSONDecodeError) ->
   _load_state d = Done (JsonObject ∅)
   /\ (is_set (env !! py "OPENAI_API_KEY") = true ->
       is_set (env !! py "NOTION_TOKEN") = true ->
       is_set (env !! py "NOTION_DATABASE_ID") = true ->
       exists self, init env d = Done (self, JsonObject ∅))
   /\ _get_new_files d ∅ = _get_mp3_files d)
  /\ (forall data e,
        state_file d = Some data -> json_load data = Raise e ->
        e <> JSONDecodeError -> e <> FileNotFoundError ->
        _load_state d = Raise e
        /\ (is_set (env !! py "OPENAI_API_KEY") = true ->
            is_set (env !! py "NOTION_TOKEN") = true ->
            is_set (env !! py "NOTION_DATABASE_ID") = true ->
            init env d = Raise e)).
Proof.
  split.
  - intros Hfile.
    assert (Hload : _load_state d = Done (JsonObject ∅)).
    { unfold _load_state, open_read.
      destruct Hfile as [->|(data & -> & Hbad)]; [reflexivity|].
      rewrite bool_decide_eq_true_2 by eauto. cbn [bind]. rewrite Hbad. reflexivity. }
    split; [exact Hload|]. split; [|apply _get_new_files_empty].
    intros H1 H2 H3. unfold init. rewrite H1, H2, H3, Hload. simpl. eauto.
  - intros data e Hfile Hraise Hjson Hmissing.
    assert (Hload : _load_state d = Raise e) by (apply _load_state_raises with data; assumption).
    split; [exact Hload|].
    intros H1 H2 H3. unfold init. rewrite H1, H2, H3, Hload. reflexivity.
Qed.

End Tracker.

Lemma demo_digest_injective (a b : list byte) :
  @md5_hexdigest demo_libraries (@md5_update demo_libraries (@md5_new demo_libraries) a)
  = @md5_hexdigest demo_libraries (@md5_update demo_libraries (@md5_new demo_libraries) b) ->
  a = b.
Proof.
  cbn [md5_hexdigest md5_update md5_new demo_libraries app].
  revert b. induction a as [|x a IH]; intros [|y b]; cbn [map]; try discriminate;
    [reflexivity|].
  intros [= Hxy Hab]. f_equal; [|apply IH, Hab].
  apply Nat2N.inj in Hxy. apply (f_equal Byte.of_nat) in Hxy.
  rewrite !Byte.of_to_nat in Hxy. congruence.
Qed.

Lemma tracker_reports_changed_files_witness :
  let d := {| folder := Some [edited_file]; state_file := None |} in
  let processed : gmap str str :=
    <[f_path demo_file := @_get_file_hash demo_libraries demo_file]> ∅ in
  In edited_file (@_get_new_files demo_libraries d processed).
Proof.
  intros d processed.
  destruct (@tracker_reports_changed_files demo_libraries d processed edited_file)
    as (_ & _ & _ & _ & Hfree).
  apply (Hfree (fun h a b => eq_sym (app_assoc h a b)) (fun h => app_nil_r h)
           demo_digest_injective demo_file).
  - apply lookup_insert_eq.
  - discriminate.
  - vm_compute. left. reflexivity.
Defined.

(** C3 as stated fails: two versions of a recording whose bytes differ and
    whose MD5 digests are equal. With the first version recorded in the
    mapping and the second in the folder, the tracker reports nothing. *)
Lemma tracker_misses_md5_collision :
  @_get_new_files md5_libraries {| folder := Some [recording_after]; state_file := None |}
    (<[f_path recording_before := @_get_file_hash md5_libraries recording_before]> ∅)
  = []
  /\ f_bytes recording_after <> f_bytes recording_before
  /\ @_get_file_hash md5_libraries recording_before = py "79054025255fb1a26e4bc422aef54eb4"
  /\ @_get_file_hash md5_libraries recording_after = py "79054025255fb1a26e4bc422aef54eb4".
Proof.
  split; [vm_compute; reflexivity|]. split; [|split; vm_compute; reflexivity].
  unfold recording_after, recording_before, collision_a, collision_b. cbn [f_bytes].
  discriminate.
Qed.

(** The digest written out above is MD5: the test values of RFC 1321 for the
    empty message and for "abc". *)
Lemma md5_test_values :
  hexdigest (md5_digest []) = py "d41d8cd98f00b204e9800998ecf8427e"
  /\ hexdigest (md5_digest (bytes "abc")) = py "900150983cd24fb0d6963f7d28e17f72".
Proof. split; vm_compute; reflexivity. Qed.

Lemma load_state_missing_or_invalid_witness :
  let d := {| folder := Some [demo_file]; state_file := Some (bytes "{broken") |} in
  @_load_state demo_libraries d = Done (JsonObject ∅)
  /\ (is_set (demo_env !! py "OPENAI_API_KEY") = true ->
      is_set (demo_env !! py "NOTION_TOKEN") = true ->
      is_set (demo_env !! py "NOTION_DATABASE_ID") = true ->
      exists self, @init demo_libraries demo_env d = Done (self, JsonObject ∅))
  /\ @_get_new_files demo_libraries d ∅ = @_get_mp3_files demo_libraries d.
Proof.
  intros d. destruct (@load_state_missing_or_invalid demo_libraries d demo_env) as [Hempty _].
  apply Hempty. right. exists (bytes "{broken"). split; reflexivity.
Defined.

(** C10 as stated fails: a state file that exists and whose bytes are not
    text holds no valid JSON, yet _load_state raises UnicodeDecodeError, and
    so does __init__ with the three credentials set: no processor is
    built. *)
Lemma undecodable_state_file_raises :
  @_load_state demo_libraries undecodable_disk = Raise UnicodeDecodeError
  /\ @init demo_libraries demo_env undecodable_disk = Raise UnicodeDecodeError.
Proof. split; vm_compute; reflexivity. Qed.

(** *** Running the processor *)

Section Run.
Context `{Libraries} {Net : Type} `{Services Net}.

#[local] Abbreviation frame := (@AudioToNotion.frame Net _).

Lemma kept_refl (m : Machine Net) : kept m m.
Proof. repeat split. Qed.

Lemma kept_trans (m1 m2 m3 : Machine Net) : kept m1 m2 -> kept m2 m3 -> kept m1 m3.
Proof. unfold kept. intros (?&?&?) (?&?&?). repeat split; congruence. Qed.

Lemma frame_ret {A} (a : A) : frame (ret a).
Proof. intros m. apply kept_refl. Qed.

Lemma frame_raise {A} (e : exn) : frame (@raise _ A e).
Proof. intros m. apply kept_refl. Qed.

Lemma frame_lift {A} (o : outcome A) : frame (lift o).
Proof. intros m. apply kept_refl. Qed.

Lemma frame_print (e : Event) : frame (print e).
Proof. intros m. repeat split. Qed.

Lemma frame_post (r : Request) : frame (post r).
Proof. intros m. unfold post. destruct (requests_post r (net m)). repeat split. Qed.

Lemma frame_bindM {A B} (c : M (Machine Net) A) (k : A -> M (Machine Net) B) :
  frame c -> (forall a, frame (k a)) -> frame (bindM c k).
Proof.
  intros Hc Hk m. unfold bindM. specialize (Hc m).
  destruct (c m) as [[a|e|] m1]; simpl in *; [|exact Hc|exact Hc].
  eapply kept_trans; [exact Hc|apply Hk].
Qed.

Lemma frame_try_except {A} (c : M (Machine Net) A) (h : exn -> M (Machine Net) A) :
  frame c -> (forall e, frame (h e)) -> frame (try_except c h).
Proof.
  intros Hc Hh m. unfold try_except. specialize (Hc m).
  destruct (c m) as [[a|e|] m1]; simpl in *; [exact Hc| |exact Hc].
  eapply kept_trans; [exact Hc|apply Hh].
Qed.

Lemma frame_if {A} (b : bool) (c1 c2 : M (Machine Net) A) :
  frame c1 -> frame c2 -> frame (if b then c1 else c2).
Proof. destruct b; auto. Qed.

Create HintDb frame discriminated.
#[local] Hint Resolve frame_ret frame_raise frame_lift frame_print frame_post : frame.
#[local] Hint Extern 2 (frame (bindM _ _)) => apply frame_bindM; [|intros ?] : frame.
#[local] Hint Extern 2 (frame (try_except _ _)) => apply frame_try_except; [|intros ?] : frame.
#[local] Hint Extern 2 (frame (if _ then _ else _)) => apply frame_if : frame.

Lemma frame_transcribe_chunks (self : Processor) (chunk_paths : list File) (transcript : str) :
  frame (transcribe_chunks self chunk_paths transcript).
Proof.
  revert transcript. induction chunk_paths as [|c rest IH]; intros transcript; simpl.
  - apply frame_ret.
  - auto 10 with frame.
Qed.

Lemma frame__transcribe_audio (self : Processor) (file_path : File) :
  frame (_transcribe_audio self file_path).
Proof.
  unfold _transcribe_audio. apply frame_bindM.
  - intros m. destruct (_split_audio_if_needed file_path max_bytes (net m)). repeat split.
  - intros chunks. apply frame_bindM; [apply frame_transcribe_chunks|intros; apply frame_ret].
Qed.

Lemma frame__summarize_text (self : Processor) (text : str) :
  frame (_summarize_text self text).
Proof. unfold _summarize_text. auto 10 with frame. Qed.

Lemma frame__create_notion_page (self : Processor) (file_name transcript summary : str) :
  frame (_create_notion_page self file_name transcript summary).
Proof. unfold _create_notion_page. auto 20 with frame. Qed.

Lemma process_file_run (self : Processor) (file_path : File) (m : Machine Net) :
  process_file self file_path m =
  match _transcribe_audio self file_path m with
  | (Done transcript, ma) =>
      match _summarize_text self transcript ma with
      | (Done summary, mb) =>
          match _create_notion_page self (f_name file_path) transcript summary mb with
          | (Done page_id, mc) => (Done tt, mark_processed file_path page_id mc)
          | (Raise e, mc) => (Raise e, mc)
          | (OutOfFuel, mc) => (OutOfFuel, mc)
          end
      | (Raise e, mb) => (Raise e, mb)
      | (OutOfFuel, mb) => (OutOfFuel, mb)
      end
  | (Raise e, ma) => (Raise e, ma)
  | (OutOfFuel, ma) => (OutOfFuel, ma)
  end.
Proof.
  unfold process_file, bindM at 1.
  destruct (_transcribe_audio self file_path m) as [[transcript|e|] ma]; reflexivity.
Qed.

Lemma step_raises_kept (self : Processor) (file_path : File) (m m1 : Machine Net) (e : exn) :
  step_raises self file_path m e m1 ->
  process_file self file_path m = (Raise e, m1) /\ kept m m1.
Proof.
  intros Hstep. rewrite process_file_run.
  destruct Hstep as [Ht|transcript ma Ht Hs|transcript summary ma mb Ht Hs Hp].
  - rewrite Ht. split; [reflexivity|].
    pose proof (frame__transcribe_audio self file_path m) as Hk. rewrite Ht in Hk. exact Hk.
  - rewrite Ht, Hs. split; [reflexivity|].
    pose proof (frame__transcribe_audio self file_path m) as Hk1. rewrite Ht in Hk1.
    pose proof (frame__summarize_text self transcript ma) as Hk2. rewrite Hs in Hk2.
    eapply kept_trans; eassumption.
  - rewrite Ht, Hs, Hp. split; [reflexivity|].
    pose proof (frame__transcribe_audio self file_path m) as Hk1. rewrite Ht in Hk1.
    pose proof (frame__summarize_text self transcript ma) as Hk2. rewrite Hs in Hk2.
    pose proof (frame__create_notion_page self (f_name file_path) transcript summary mb) as Hk3.
    rewrite Hp in Hk3. eapply kept_trans; [|exact Hk3]. eapply kept_trans; eassumption.
Qed.

(** A turn of the loop that changes the mapping went through page creation. *)
Lemma process_one_changes (self : Processor) (file_path : File) (m0 m2 : Machine Net)
  (r : outcome unit) :
  process_one self file_path m0 = (r, m2) ->
  processed_files m2 <> processed_files m0 ->
  exists transcript summary page_id ma mb mc,
    _transcribe_audio self file_path m0 = (Done transcript, ma)
    /\ _summarize_text self transcript ma = (Done summary, mb)
    /\ _create_notion_page self (f_name file_path) transcript summary mb = (Done page_id, mc)
    /\ processed_files m2
       = <[f_path file_path := _get_file_hash file_path]> (processed_files m0).
Proof.
  unfold process_one, try_except. rewrite process_file_run.
  pose proof (frame__transcribe_audio self file_path m0) as Hk1.
  destruct (_transcribe_audio self file_path m0) as [[transcript|e|] ma] eqn:Ht;
    simpl in Hk1; destruct Hk1 as [E1 _].
  2,3: intros [= <- <-] Hne; exfalso; apply Hne; simpl; congruence.
  pose proof (frame__summarize_text self transcript ma) as Hk2.
  destruct (_summarize_text self transcript ma) as [[summary|e|] mb] eqn:Hs;
    simpl in Hk2; destruct Hk2 as [E2 _].
  2,3: intros [= <- <-] Hne; exfalso; apply Hne; simpl; congruence.
  pose proof (frame__create_notion_page self (f_name file_path) transcript summary mb) as Hk3.
  destruct (_create_notion_page self (f_name file_path) transcript summary mb)
    as [[page_id|e|] mc] eqn:Hp; simpl in Hk3; destruct Hk3 as [E3 _].
  2,3: intros [= <- <-] Hne; exfalso; apply Hne; simpl; congruence.
  intros [= <- <-] _. exists transcript, summary, page_id, ma, mb, mc.
  split; [reflexivity|]. split; [exact Hs|]. split; [exact Hp|].
  simpl. congruence.
Qed.

(** C4: when transcription, summarization or page creation raises for a
    file, that turn of the loop ends normally with only the error printed,
    the mapping and the list of pages are as before the file, and the loop
    goes on with the remaining files. A turn that changes the mapping has
    seen page creation return, and sets exactly the file's entry. *)
Theorem failed_file_is_skipped (self : Processor) (file_path : File) (rest : list File)
  (m m1 : Machine Net) (e : exn) :
  step_raises self file_path m e m1 ->
  let m' := add_stdout (Failed (f_name file_path) e) m1 in
  process_one self file_path m = (Done tt, m')
  /\ processed_files m' = processed_files m
  /\ created_pages m' = created_pages m
  /\ process_loop self (file_path :: rest) m = process_loop self rest m'
  /\ (forall (m0 m2 : Machine Net) (r : outcome unit),
        process_one self file_path m0 = (r, m2) ->
        processed_files m2 <> processed_files m0 ->
        exists transcript summary page_id ma mb mc,
          _transcribe_audio self file_path m0 = (Done transcript, ma)
          /\ _summarize_text self transcript ma = (Done summary, mb)
          /\ _create_notion_page self (f_name file_path) transcript summary mb
             = (Done page_id, mc)
          /\ processed_files m2
             = <[f_path file_path := _get_file_hash file_path]> (processed_files m0)).
Proof.
  intros Hstep m'. destruct (step_raises_kept _ _ _ _ _ Hstep) as [Hrun (Hpf & Hcp & _)].
  assert (Hone : process_one self file_path m = (Done tt, m')).
  { unfold process_one, try_except. rewrite Hrun. reflexivity. }
  split; [exact Hone|]. split; [exact Hpf|]. split; [exact Hcp|]. split.
  - unfold process_loop. simpl. unfold bindM at 1. rewrite Hone. reflexivity.
  - intros m0 m2 r. apply process_one_changes.
Qed.

(** *** The page title *)

Lemma split_text_default_returns (transcript : str) :
  exists chunks, split_text transcript default_max_length = Done chunks.
Proof.
  unfold split_text, split_text_fuel.
  destruct (Z.leb_spec (len transcript) default_max_length) as [Hle|Hgt]; [eauto|].
  destruct (split_loop_any default_max_length (S (length transcript)) transcript)
    as (blocks & _ & Hrun & _); [unfold default_max_length; lia|lia|exact Hgt|eauto].
Qed.

(** C9: when the title request raises or answers with a status other than
    200, _create_notion_page goes on: it proposes the file name as title,
    sends the page request with the file name as the page title, and its
    result is what the answer to that request gives (the page id on 200). *)
Theorem title_failure_uses_file_name (self : Processor) (file_name transcript summary : str)
  (m : Machine Net) (res : outcome Response) (n1 : Net) :
  requests_post (title_request self file_name transcript) (net m) = (res, n1) ->
  title_failed res ->
  exists chunks m',
    split_text transcript default_max_length = Done chunks
    /\ _create_notion_page self file_name transcript summary m
       = (page_result
            (fst (requests_post
                    (CreatePage (notion_token self) (notion_database_id self) file_name
                       (page_children summary chunks)) n1)), m')
    /\ net m'
       = snd (requests_post
                (CreatePage (notion_token self) (notion_database_id self) file_name
                   (page_children summary chunks)) n1)
    /\ In (ProposedTitle file_name) (stdout m').
Proof.
  intros Hreq Hfail.
  destruct (split_text_default_returns transcript) as [chunks Hchunks].
  exists chunks.
  unfold _create_notion_page, bindM, try_except, print, modify, post, lift, ret, raise.
  cbn [net add_stdout]. rewrite Hreq, Hchunks.
  destruct res as [title_response|e|]; [|clear Hfail|destruct Hfail].
  - simpl in Hfail. apply Z.eqb_neq in Hfail. rewrite Hfail. cbn [net set_net add_stdout].
    destruct (requests_post _ n1) as [[response|e|] n2]; cbn [fst snd page_result].
    + destruct (status_code response =? 200)%Z; eexists; (split; [reflexivity|]);
        (split; [reflexivity|]); cbn; rewrite !in_app_iff; simpl; tauto.
    + eexists; split; [reflexivity|]; split; [reflexivity|].
      cbn. rewrite !in_app_iff. simpl. tauto.
    + eexists; split; [reflexivity|]; split; [reflexivity|].
      cbn. rewrite !in_app_iff. simpl. tauto.
  - cbn [net set_net add_stdout].
    destruct (requests_post _ n1) as [[response|e'|] n2]; cbn [fst snd page_result].
    + destruct (status_code response =? 200)%Z; eexists; (split; [reflexivity|]);
        (split; [reflexivity|]); cbn; rewrite !in_app_iff; simpl; tauto.
    + eexists; split; [reflexivity|]; split; [reflexivity|].
      cbn. rewrite !in_app_iff. simpl. tauto.
    + eexists; split; [reflexivity|]; split; [reflexivity|].
      cbn. rewrite !in_app_iff. simpl. tauto.
Qed.

(** X2: a file that went through all three steps is recorded with its
    current hash, so the tracker does not report it again while its bytes
    stay the same. *)
Theorem processed_file_not_reported_again (self : Processor) (file_path : File)
  (m ma mb mc : Machine Net) (transcript summary page_id : str) (d : Disk) :
  _transcribe_audio self file_path m = (Done transcript, ma) ->
  _summarize_text self transcript ma = (Done summary, mb) ->
  _create_notion_page self (f_name file_path) transcript summary mb = (Done page_id, mc) ->
  process_one self file_path m = (Done tt, mark_processed file_path page_id mc)
  /\ processed_files (mark_processed file_path page_id mc) !! f_path file_path
     = Some (_get_file_hash file_path)
  /\ ~ In file_path
         (_get_new_files d (processed_files (mark_processed file_path page_id mc))).
Proof.
  intros Ht Hs Hp. split; [|split].
  - unfold process_one, try_except. rewrite process_file_run, Ht, Hs, Hp. reflexivity.
  - cbn. apply lookup_insert_eq.
  - rewrite _get_new_files_filter. intros [_ Hch]%filter_In.
    unfold changed in Hch. apply negb_true_iff, bool_decide_eq_false in Hch.
    apply Hch. cbn. apply lookup_insert_eq.
Qed.

End Run.

Lemma processed_file_not_reported_again_witness :
  let mc :=
    {| processed_files := ∅; created_pages := []; net := true; disk := disk (demo_machine true);
       stdout := [TranscribingChunk (py "memo.mp3"); GeneratingSummary;
                  CreatingPage (py "memo.mp3");
                  ProposedTitle (py "A summary. - memo.mp3")] |} in
  @process_one demo_libraries bool demo_services demo_self demo_file (demo_machine true)
    = (Done tt, @mark_processed demo_libraries bool demo_file (py "page-1") mc)
  /\ processed_files (@mark_processed demo_libraries bool demo_file (py "page-1") mc)
       !! f_path demo_file
     = Some (@_get_file_hash demo_libraries demo_file)
  /\ ~ In demo_file
         (@_get_new_files demo_libraries (disk (demo_machine true))
            (processed_files (@mark_processed demo_libraries bool demo_file (py "page-1") mc))).
Proof.
  intros mc.
  apply (@processed_file_not_reported_again demo_libraries bool demo_services demo_self
           demo_file (demo_machine true)
           {| processed_files := ∅; created_pages := []; net := true;
              disk := disk (demo_machine true);
              stdout := [TranscribingChunk (py "memo.mp3")] |}
           {| processed_files := ∅; created_pages := []; net := true;
              disk := disk (demo_machine true);
              stdout := [TranscribingChunk (py "memo.mp3"); GeneratingSummary] |}
           mc (py "hello world") (py "A summary.") (py "page-1")).
  - vm_compute. reflexivity.
  - vm_compute. reflexivity.
  - vm_compute. reflexivity.
Defined.

Lemma title_failure_uses_file_name_witness :
  exists chunks m',
    split_text (py "hello world") default_max_length = Done chunks
    /\ @_create_notion_page bool demo_services demo_self (py "memo.mp3")
         (py "hello world") (py "A summary.") (demo_machine false)
       = (page_result
            (fst (@requests_post bool demo_services
                    (CreatePage (notion_token demo_self) (notion_database_id demo_self)
                       (py "memo.mp3") (page_children (py "A summary.") chunks)) false)), m')
    /\ net m'
       = snd (@requests_post bool demo_services
                (CreatePage (notion_token demo_self) (notion_database_id demo_self)
                   (py "memo.mp3") (page_children (py "A summary.") chunks)) false)
    /\ In (ProposedTitle (py "memo.mp3")) (stdout m').
Proof.
  apply (@title_failure_uses_file_name bool demo_services demo_self (py "memo.mp3")
           (py "hello world") (py "A summary.") (demo_machine false)
           (Done (demo_response 500 (py "server error"))) false).
  - reflexivity.
  - simpl. lia.
Defined.

Lemma failed_file_is_skipped_witness :
  let m := demo_machine false in
  let e := Exception (py "Summarization failed: server error") in
  let m1 :=
    {| processed_files := ∅; created_pages := []; net := false; disk := disk m;
       stdout := [TranscribingChunk (py "memo.mp3"); GeneratingSummary] |} in
  let m' := @add_stdout bool (Failed (py "memo.mp3") e) m1 in
  @process_one demo_libraries bool demo_services demo_self demo_file m = (Done tt, m')
  /\ processed_files m' = processed_files m
  /\ created_pages m' = created_pages m
  /\ @process_loop demo_libraries bool demo_services demo_self [demo_file] m
     = @process_loop demo_libraries bool demo_services demo_self [] m'
  /\ (forall (m0 m2 : Machine bool) (r : outcome unit),
        @process_one demo_libraries bool demo_services demo_self demo_file m0 = (r, m2) ->
        processed_files m2 <> processed_files m0 ->
        exists transcript summary page_id ma mb mc,
          @_transcribe_audio bool demo_services demo_self demo_file m0 = (Done transcript, ma)
          /\ @_summarize_text bool demo_services demo_self transcript ma = (Done summary, mb)
          /\ @_create_notion_page bool demo_services demo_self (f_name demo_file)
               transcript summary mb = (Done page_id, mc)
          /\ processed_files m2
             = <[f_path demo_file := @_get_file_hash demo_libraries demo_file]>
                 (processed_files m0)).
Proof.
  intros m e m1 m'.
  apply (@failed_file_is_skipped demo_libraries bool demo_services
           demo_self demo_file [] m m1 e).
  apply (summarization_raises _ _ _ _ _ (py "hello world")
           {| processed_files := ∅; created_pages := []; net := false; disk := disk m;
              stdout := [TranscribingChunk (py "memo.mp3")] |}).
  - vm_compute. reflexivity.
  - vm_compute. reflexivity.
Defined.

(** *** Hashing a file block by block *)

Section Hashing.
Context `{Libraries}.

(** X3: for a digest that can be fed in pieces (feeding two pieces one after
    the other is feeding their concatenation, and feeding nothing changes
    nothing), the hash _get_file_hash computes block by block is the digest
    of the whole content fed at once; the script's second copy,
    get_file_hash, gives the same hash. *)
Theorem file_hash_is_digest_of_content (file_path : File) :
  (forall h a b, md5_update (md5_update h a) b = md5_update h (a ++ b)) ->
  (forall h, md5_update h [] = h) ->
  _get_file_hash file_path = md5_hexdigest (md5_update md5_new (f_bytes file_path))
  /\ get_file_hash file_path = _get_file_hash file_path.
Proof.
  intros Hfeed Hnone. split; [|reflexivity].
  unfold _get_file_hash. f_equal.
  destruct (read_blocks_concat (length (f_bytes file_path)) (f_bytes file_path)
              (Nat.le_refl _)) as [Hcat _].
  rewrite <- Hcat at 3.
  generalize (read_blocks (length (f_bytes file_path)) (f_bytes file_path)) as blocks.
  generalize md5_new as h.
  intros h blocks. revert h. induction blocks as [|block blocks IH]; intros h; cbn [fold_left concat].
  - symmetry. apply Hnone.
  - rewrite IH, Hfeed. reflexivity.
Qed.

End Hashing.

Lemma file_hash_is_digest_of_content_witness :
  @_get_file_hash demo_libraries demo_file
  = @md5_hexdigest demo_libraries
      (@md5_update demo_libraries (@md5_new demo_libraries) (f_bytes demo_file))
  /\ @get_file_hash demo_libraries demo_file = @_get_file_hash demo_libraries demo_file.
Proof.
  apply (@file_hash_is_digest_of_content demo_libraries demo_file).
  - intros h a b. cbn. symmetry. apply app_assoc.
  - intros h. cbn. apply app_nil_r.
Defined.

(** *** A whole run of the loop *)

Section WholeRun.
Context `{Libraries} {Net : Type} `{Services Net}.

(** One turn never raises, leaves the disk alone, and either leaves the
    mapping and the pages alone or adds one page and sets the file's entry. *)
Lemma process_one_outcome (self : Processor) (file_path : File) (m : Machine Net) :
  (forall e, fst (process_one self file_path m) <> Raise e)
  /\ disk (snd (process_one self file_path m)) = disk m
  /\ ((processed_files (snd (process_one self file_path m)) = processed_files m
       /\ created_pages (snd (process_one self file_path m)) = created_pages m)
      \/ (processed_files (snd (process_one self file_path m))
          = <[f_path file_path := _get_file_hash file_path]> (processed_files m)
          /\ exists page_id,
               created_pages (snd (process_one self file_path m))
               = created_pages m ++ [page_id])).
Proof.
  unfold process_one, try_except. rewrite process_file_run.
  pose proof (frame__transcribe_audio self file_path m) as Hk1.
  destruct (_transcribe_audio self file_path m) as [[transcript|e|] ma];
    cbn [fst snd] in *; destruct Hk1 as (E1 & C1 & D1).
  2,3: (split; [discriminate|]); (split; [exact D1|]); left; split; assumption.
  pose proof (frame__summarize_text self transcript ma) as Hk2.
  destruct (_summarize_text self transcript ma) as [[summary|e|] mb];
    cbn [fst snd] in *; destruct Hk2 as (E2 & C2 & D2).
  2,3: (split; [discriminate|]); (split; [cbn; congruence|]); left; split; cbn; congruence.
  pose proof (frame__create_notion_page self (f_name file_path) transcript summary mb) as Hk3.
  destruct (_create_notion_page self (f_name file_path) transcript summary mb)
    as [[page_id|e|] mc]; cbn [fst snd] in *; destruct Hk3 as (E3 & C3 & D3).
  2,3: (split; [discriminate|]); (split; [cbn; congruence|]); left; split; cbn; congruence.
  split; [discriminate|]. split; [cbn; congruence|]. right. split.
  - cbn. congruence.
  - exists page_id. cbn. congruence.
Qed.

Lemma process_loop_cons (self : Processor) (file_path : File) (rest : list File)
  (m : Machine Net) :
  process_loop self (file_path :: rest) m =
  match process_one self file_path m with
  | (Done _, m1) => process_loop self rest m1
  | (Raise e, m1) => (Raise e, m1)
  | (OutOfFuel, m1) => (OutOfFuel, m1)
  end.
Proof. reflexivity. Qed.

(** What the loop keeps, for any list of files. *)
Lemma process_loop_invariant (self : Processor) (files : list File) (m : Machine Net) :
  (forall e, fst (process_loop self files m) <> Raise e)
  /\ disk (snd (process_loop self files m)) = disk m
  /\ dom (processed_files m) ⊆ dom (processed_files (snd (process_loop self files m)))
  /\ (forall p,
        processed_files (snd (process_loop self files m)) !! p = processed_files m !! p
        \/ exists f, In f files /\ f_path f = p
                     /\ processed_files (snd (process_loop self files m)) !! p
                        = Some (_get_file_hash f))
  /\ length (created_pages (snd (process_loop self files m)))
     <= length (created_pages m) + length files.
Proof.
  revert m. induction files as [|f files IH]; intros m.
  - cbn. split; [discriminate|]. split; [reflexivity|]. split; [reflexivity|].
    split; [left; reflexivity|lia].
  - rewrite process_loop_cons.
    destruct (process_one_outcome self f m) as (Hraise & Hdisk & Hmap).
    destruct (process_one self f m) as [[[]|e|] m1]; cbn [fst snd] in *;
      [|exfalso; exact (Hraise e eq_refl)|].
    + destruct (IH m1) as (IHr & IHd & IHdom & IHmap & IHlen).
      split; [exact IHr|]. split; [congruence|].
      destruct Hmap as [[Hpf Hcp]|[Hpf [page_id Hcp]]].
      * rewrite <- Hpf at 1. split; [exact IHdom|]. split.
        -- intros p. destruct (IHmap p) as [Hsame|(g & Hg & Hp & Hl)].
           ++ left. congruence.
           ++ right. exists g. split; [right; exact Hg|]. split; assumption.
        -- rewrite Hcp in IHlen. cbn [length]. lia.
      * split; [|split].
        -- etransitivity; [|exact IHdom]. rewrite Hpf, dom_insert. apply union_subseteq_r.
        -- intros p. destruct (IHmap p) as [Hsame|(g & Hg & Hp & Hl)].
           ++ rewrite Hsame, Hpf. destruct (decide (f_path f = p)) as [Hfp|Hfp].
              ** right. exists f. split; [left; reflexivity|]. split; [exact Hfp|].
                 rewrite <- Hfp. apply lookup_insert_eq.
              ** left. apply lookup_insert_ne. exact Hfp.
           ++ right. exists g. split; [right; exact Hg|]. split; assumption.
        -- rewrite Hcp, length_app in IHlen. cbn [length] in *. lia.
    + split; [discriminate|]. split; [exact Hdisk|].
      destruct Hmap as [[Hpf Hcp]|[Hpf [page_id Hcp]]].
      * rewrite Hpf, Hcp. split; [reflexivity|]. split; [left; reflexivity|]. cbn [length]. lia.
      * split; [rewrite Hpf, dom_insert; apply union_subseteq_r|]. split.
        -- intros p. rewrite Hpf. destruct (decide (f_path f = p)) as [Hfp|Hfp].
           ++ right. exists f. split; [left; reflexivity|]. split; [exact Hfp|].
              rewrite <- Hfp. apply lookup_insert_eq.
           ++ left. apply lookup_insert_ne. exact Hfp.
        -- rewrite Hcp, length_app. cbn [length]. lia.
Qed.

(** X4: the loop of process_new_files never raises, whatever the services
    do; it does not touch the disk; it removes no entry of the mapping, and
    every entry it adds or changes is that of one of the files it was given,
    set to that file's current hash; it adds at most one page per file. *)
Theorem process_loop_keeps_entries (self : Processor) (files : list File) (m : Machine Net) :
  (forall e, fst (process_loop self files m) <> Raise e)
  /\ disk (snd (process_loop self files m)) = disk m
  /\ dom (processed_files m) ⊆ dom (processed_files (snd (process_loop self files m)))
  /\ (forall p,
        processed_files (snd (process_loop self files m)) !! p = processed_files m !! p
        \/ exists f, In f files /\ f_path f = p
                     /\ processed_files (snd (process_loop self files m)) !! p
                        = Some (_get_file_hash f))
  /\ length (created_pages (snd (process_loop self files m)))
     <= length (created_pages m) + length files.
Proof. apply process_loop_invariant. Qed.

End WholeRun.

(** *** A run in which every new file got its page *)

Section CompleteRun.
Context `{Libraries} {Net : Type} `{Services Net}.

Lemma record_files_other (files : list File) (pf : gmap str str) (p : str) :
  ~ In p (map f_path files) ->
  fold_left record_file files pf !! p = pf !! p.
Proof.
  revert pf. induction files as [|g files IH]; intros pf Hp; cbn [fold_left]; [reflexivity|].
  rewrite IH by (intros Hin; apply Hp; right; exact Hin).
  apply lookup_insert_ne. intros Heq. apply Hp. left. exact Heq.
Qed.

Lemma record_files_lookup (files : list File) (pf : gmap str str) (f : File) :
  List.NoDup (map f_path files) ->
  In f files ->
  fold_left record_file files pf !! f_path f = Some (_get_file_hash f).
Proof.
  revert pf. induction files as [|g files IH]; intros pf Hnd Hin; [destruct Hin|].
  cbn [map] in Hnd. inversion Hnd as [|? ? Hfresh Hrest]; subst.
  cbn [fold_left]. destruct Hin as [->|Hin].
  - rewrite record_files_other by exact Hfresh. apply lookup_insert_eq.
  - apply IH; assumption.
Qed.

Lemma NoDup_map_filter {A B} (g : A -> B) (p : A -> bool) (l : list A) :
  List.NoDup (map g l) -> List.NoDup (map g (List.filter p l)).
Proof.
  induction l as [|x l IH]; intros Hnd; [constructor|].
  cbn [map] in Hnd. inversion Hnd as [|? ? Hfresh Hrest]; subst.
  cbn [List.filter]. destruct (p x); [|apply IH, Hrest].
  cbn [map]. constructor; [|apply IH, Hrest].
  intros Hin. apply Hfresh. apply in_map_iff in Hin. destruct Hin as (y & Hy & Hin).
  apply filter_In in Hin. apply in_map_iff. exists y. tauto.
Qed.

Lemma NoDup_map_same {A B} (g : A -> B) (l : list A) (x y : A) :
  List.NoDup (map g l) -> In x l -> In y l -> g x = g y -> x = y.
Proof.
  induction l as [|z l IH]; intros Hnd Hx Hy Heq; [destruct Hx|].
  cbn [map] in Hnd. inversion Hnd as [|? ? Hfresh Hrest]; subst.
  destruct Hx as [->|Hx], Hy as [->|Hy].
  - reflexivity.
  - exfalso. apply Hfresh. rewrite Heq. apply in_map. exact Hy.
  - exfalso. apply Hfresh. rewrite <- Heq. apply in_map. exact Hx.
  - apply IH; assumption.
Qed.

(** When the loop ends with one page more per file, every file was
    recorded. *)
Lemma process_loop_complete (self : Processor) (files : list File) :
  forall m m' : Machine Net,
    process_loop self files m = (Done tt, m') ->
    length (created_pages m') = length (created_pages m) + length files ->
    processed_files m' = fold_left record_file files (processed_files m).
Proof.
  induction files as [|f files IH]; intros m m' Hrun Hlen.
  - cbn in Hrun. injection Hrun as <-. reflexivity.
  - rewrite process_loop_cons in Hrun.
    destruct (process_one_outcome self f m) as (_ & _ & Hmap).
    destruct (process_one self f m) as [[[]|e|] m1]; cbn [fst snd] in *; try discriminate.
    destruct (process_loop_invariant self files m1) as (_ & _ & _ & _ & Hbound).
    rewrite Hrun in Hbound. cbn [snd] in Hbound. cbn [length] in Hlen.
    destruct Hmap as [[Hpf Hcp]|[Hpf [page_id Hcp]]].
    + rewrite Hcp in Hbound. lia.
    + cbn [fold_left]. unfold record_file at 2. rewrite <- Hpf. apply IH; [exact Hrun|].
      rewrite Hcp, length_app. cbn [length]. lia.
Qed.

Lemma filter_none {A} (p : A -> bool) (l : list A) :
  (forall x, In x l -> p x = false) -> List.filter p l = [].
Proof.
  induction l as [|x l IH]; intros Hall; [reflexivity|].
  cbn [List.filter]. rewrite (Hall x (or_introl eq_refl)).
  apply IH. intros y Hy. apply Hall. right. exact Hy.
Qed.

(** X5: when the paths of the folder's MP3 files are distinct and a run of
    process_new_files returns as many page ids as the tracker had reported
    new files (no file failed), the tracker reports no file on the state the
    run leaves: the next run has nothing to do. *)
Theorem complete_run_leaves_nothing_new (self : Processor) (m m' : Machine Net)
  (pages : list str) :
  List.NoDup (map f_path (_get_mp3_files (disk m))) ->
  process_new_files self m = (Done pages, m') ->
  length pages = length (_get_new_files (disk m) (processed_files m)) ->
  _get_new_files (disk m') (processed_files m') = [].
Proof.
  intros Hnd Hrun Hlen. unfold process_new_files in Hrun.
  unfold bindM at 1, gets at 1 in Hrun.
  remember (_get_new_files (disk m) (processed_files m)) as new_files eqn:Hnew.
  destruct new_files as [|f0 rest].
  - cbn in Hrun. injection Hrun as <- <-. cbn. symmetry. exact Hnew.
  - rewrite bool_decide_eq_true_2 in Hrun by discriminate. cbn [negb] in Hrun.
    unfold bindM at 1, print at 1, modify at 1 in Hrun.
    unfold bindM at 1, modify at 1 in Hrun. unfold bindM at 1 in Hrun.
    remember (set_created_pages [] (add_stdout (Found (map f_name (f0 :: rest))) m))
      as m2 eqn:Hm2.
    destruct (process_loop_invariant self (f0 :: rest) m2) as (_ & Hdisk & _).
    destruct (process_loop self (f0 :: rest) m2) as [[[]|e|] m3] eqn:Hloop;
      try discriminate.
    cbn [snd] in Hdisk. cbn in Hrun. injection Hrun as <- <-.
    cbn [created_pages set_disk] in Hlen.
    pose proof (process_loop_complete self (f0 :: rest) m2 m3 Hloop) as Hpf.
    rewrite Hm2 in Hpf. cbn [created_pages processed_files set_created_pages add_stdout]
      in Hpf.
    specialize (Hpf Hlen).
    assert (Hfolder : disk m3 = disk m) by (rewrite Hdisk, Hm2; reflexivity).
    rewrite _get_new_files_filter. cbn [disk set_disk processed_files].
    unfold _get_mp3_files at 1. cbn [folder]. rewrite Hfolder.
    change (match folder (disk m) with
            | Some entries =>
                List.filter (fun f => glob_match (py "*.mp3") (f_name f)) entries
            | None => []
            end) with (_get_mp3_files (disk m)).
    apply filter_none. intros g Hg. unfold changed.
    apply negb_false_iff, bool_decide_eq_true. rewrite Hpf.
    assert (Hnd_new : List.NoDup (map f_path (f0 :: rest))).
    { rewrite Hnew, _get_new_files_filter. apply NoDup_map_filter, Hnd. }
    assert (Hsub : forall f, In f (f0 :: rest) -> In f (_get_mp3_files (disk m))).
    { intros f Hf. rewrite Hnew, _get_new_files_filter in Hf. apply filter_In in Hf. tauto. }
    destruct (in_dec (fun a b : str => decide (a = b)) (f_path g) (map f_path (f0 :: rest)))
      as [Hin|Hout].
    + apply in_map_iff in Hin. destruct Hin as (f & Hpath & Hf).
      assert (f = g) as ->
        by (apply (NoDup_map_same f_path (_get_mp3_files (disk m))); auto).
      apply (record_files_lookup _ _ _ Hnd_new Hf).
    + rewrite record_files_other by exact Hout.
      destruct (changed (processed_files m) g) eqn:Hch.
      * exfalso. apply Hout. apply in_map. rewrite Hnew, _get_new_files_filter.
        apply filter_In. split; assumption.
      * unfold changed in Hch. apply negb_false_iff, bool_decide_eq_true in Hch. exact Hch.
Qed.

End CompleteRun.

Lemma complete_run_leaves_nothing_new_witness :
  let run := @process_new_files demo_libraries bool demo_services demo_self
               (demo_machine true) in
  @_get_new_files demo_libraries (disk (snd run)) (processed_files (snd run)) = [].
Proof.
  intros run.
  apply (@complete_run_leaves_nothing_new demo_libraries bool demo_services demo_self
           (demo_machine true) (snd run) [py "page-1"]).
  - vm_compute. constructor; [intros []|constructor].
  - vm_compute. reflexivity.
  - vm_compute. reflexivity.
Defined.

(** *** What a run leaves on disk *)

Section SavedState.
Context `{Libraries} {Net : Type} `{Services Net}.

Lemma _load_state_saved (d : Disk) (state : gmap str str) :
  state_file d = Some (json_dump state) ->
  json_load (json_dump state) = Done (JsonObject state) ->
  _load_state d = Done (JsonObject state).
Proof.
  intros Hfile Hround. unfold _load_state, open_read. rewrite Hfile.
  rewrite bool_decide_eq_true_2 by eauto. cbn [bind]. rewrite Hround. reflexivity.
Qed.

(** X6: a run of process_new_files that finds no new file returns no page
    and leaves the mapping and the disk as they are (the state file is not
    written). A run that finds new files and returns leaves the folder as it
    is and the state file holding the dump of the final mapping, and returns
    the pages of this run; if json.load reads that dump back, the next
    _load_state gives the final mapping. *)
Theorem process_new_files_saves_state (self : Processor) (m m' : Machine Net)
  (pages : list str) :
  process_new_files self m = (Done pages, m') ->
  (_get_new_files (disk m) (processed_files m) = [] ->
   pages = [] /\ disk m' = disk m /\ processed_files m' = processed_files m
   /\ net m' = net m)
  /\ (_get_new_files (disk m) (processed_files m) <> [] ->
      folder (disk m') = folder (disk m)
      /\ state_file (disk m') = Some (json_dump (processed_files m'))
      /\ pages = created_pages m'
      /\ length pages <= length (_get_new_files (disk m) (processed_files m))
      /\ (json_load (json_dump (processed_files m'))
          = Done (JsonObject (processed_files m')) ->
          _load_state (disk m') = Done (JsonObject (processed_files m')))).
Proof.
  intros Hrun. unfold process_new_files in Hrun. unfold bindM at 1, gets at 1 in Hrun.
  destruct (_get_new_files (disk m) (processed_files m)) as [|f0 rest] eqn:Hnew.
  - cbn in Hrun. injection Hrun as <- <-. split; [|intros Hne; destruct (Hne eq_refl)].
    intros _. repeat split.
  - split; [discriminate|]. intros _.
    rewrite bool_decide_eq_true_2 in Hrun by discriminate. cbn [negb] in Hrun.
    unfold bindM at 1, print at 1, modify at 1 in Hrun.
    unfold bindM at 1, modify at 1 in Hrun. unfold bindM at 1 in Hrun.
    remember (set_created_pages [] (add_stdout (Found (map f_name (f0 :: rest))) m))
      as m2 eqn:Hm2.
    destruct (process_loop_invariant self (f0 :: rest) m2) as (_ & Hdisk & _ & _ & Hlen).
    destruct (process_loop self (f0 :: rest) m2) as [[[]|e|] m3] eqn:Hloop;
      try discriminate.
    cbn [snd] in Hdisk, Hlen. cbn in Hrun. injection Hrun as <- <-.
    cbn [disk set_disk folder state_file processed_files created_pages].
    rewrite Hm2 in Hdisk, Hlen. cbn in Hdisk, Hlen.
    split; [rewrite Hdisk; reflexivity|]. split; [reflexivity|]. split; [reflexivity|].
    split; [cbn [length]; lia|].
    intros Hround. eapply _load_state_saved; [reflexivity|exact Hround].
Qed.

End SavedState.

Lemma process_new_files_saves_state_witness :
  let run := @process_new_files demo_libraries bool demo_services demo_self
               (demo_machine true) in
  (@_get_new_files demo_libraries (disk (demo_machine true))
     (processed_files (demo_machine true)) = [] ->
   [py "page-1"] = [] /\ disk (snd run) = disk (demo_machine true)
   /\ processed_files (snd run) = processed_files (demo_machine true)
   /\ net (snd run) = net (demo_machine true))
  /\ (@_get_new_files demo_libraries (disk (demo_machine true))
        (processed_files (demo_machine true)) <> [] ->
      folder (disk (snd run)) = folder (disk (demo_machine true))
      /\ state_file (disk (snd run))
         = Some (@json_dump demo_libraries (processed_files (snd run)))
      /\ [py "page-1"] = created_pages (snd run)
      /\ length [py "page-1"]
         <= length (@_get_new_files demo_libraries (disk (demo_machine true))
                      (processed_files (demo_machine true)))
      /\ (@json_load demo_libraries (@json_dump demo_libraries (processed_files (snd run)))
          = Done (JsonObject (processed_files (snd run))) ->
          @_load_state demo_libraries (disk (snd run))
          = Done (JsonObject (processed_files (snd run))))).
Proof.
  intros run.
  apply (@process_new_files_saves_state demo_libraries bool demo_services demo_self
           (demo_machine true) (snd run) [py "page-1"]).
  vm_compute. reflexivity.
Defined.

(** *** get_processing_stats *)

Section Statistics.
Context `{Libraries}.

Lemma filter_split_length {A} (p : A -> bool) (l : list A) :
  length (List.filter p l) + length (List.filter (fun x => negb (p x)) l) = length l.
Proof.
  induction l as [|x l IH]; [reflexivity|].
  cbn [List.filter]. destruct (p x); cbn [negb length]; lia.
Qed.

Lemma filter_length_le {A} (p q : A -> bool) (l : list A) :
  (forall x, In x l -> p x = true -> q x = true) ->
  length (List.filter p l) <= length (List.filter q l).
Proof.
  induction l as [|x l IH]; intros Himp; [reflexivity|].
  assert (IH' : length (List.filter p l) <= length (List.filter q l))
    by (apply IH; intros y Hy; apply Himp; right; exact Hy).
  cbn [List.filter]. destruct (p x) eqn:Hp.
  - rewrite (Himp x (or_introl eq_refl) Hp). cbn [length]. lia.
  - destruct (q x); cbn [length]; lia.
Qed.

(** Files with distinct paths found in the mapping are at most as many as
    the mapping has entries, and exactly as many when every entry is the
    path of one of the files. *)
Lemma tracked_files_size (files : list File) (processed : gmap str str) :
  List.NoDup (map f_path files) ->
  length (List.filter (fun f => bool_decide (f_path f ∈ dom processed)) files)
  <= size processed
  /\ ((forall p, p ∈ dom processed -> In p (map f_path files)) ->
      length (List.filter (fun f => bool_decide (f_path f ∈ dom processed)) files)
      = size processed).
Proof.
  intros Hnd.
  set (tracked := List.filter (fun f => bool_decide (f_path f ∈ dom processed)) files).
  assert (Hnd' : NoDup (map f_path tracked))
    by (apply NoDup_ListNoDup, NoDup_map_filter, Hnd).
  assert (Hsize : size (list_to_set (map f_path tracked) : gset str) = length tracked)
    by (rewrite size_list_to_set by exact Hnd'; apply length_map).
  assert (Hsub : (list_to_set (map f_path tracked) : gset str) ⊆ dom processed).
  { intros p Hp. apply elem_of_list_to_set, list_elem_of_In, in_map_iff in Hp.
    destruct Hp as (f & <- & Hf). apply filter_In in Hf.
    destruct Hf as [_ Hf]. apply bool_decide_eq_true in Hf. exact Hf. }
  split.
  - rewrite <- Hsize, <- (size_dom processed). apply subseteq_size, Hsub.
  - intros Hall. rewrite <- Hsize, <- (size_dom processed). f_equal.
    apply set_eq. intros p. split; [apply Hsub|].
    intros Hp. apply elem_of_list_to_set, list_elem_of_In.
    destruct (proj1 (in_map_iff _ _ _) (Hall p Hp)) as (f & <- & Hf).
    apply in_map, filter_In. split; [exact Hf|]. apply bool_decide_eq_true. exact Hp.
Qed.

(** X7: with distinct paths in the folder, the "unprocessed_files" figure of
    get_processing_stats is at most the number of MP3 files whose path is
    not in the mapping, which is at most the number of files the tracker
    reports (a changed file counts as processed, and entries for paths
    outside the folder lower the figure, possibly below zero). When every
    entry of the mapping is the path of an MP3 file of the folder, the
    figure is exactly the number of MP3 files whose path is not in the
    mapping. *)
Theorem unprocessed_files_bound (d : Disk) (processed : gmap str str) :
  List.NoDup (map f_path (_get_mp3_files d)) ->
  (unprocessed_files (get_processing_stats d processed)
   <= Z.of_nat (length (List.filter (path_absent processed) (_get_mp3_files d))))%Z
  /\ length (List.filter (path_absent processed) (_get_mp3_files d))
     <= length (_get_new_files d processed)
  /\ ((forall p, p ∈ dom processed -> In p (map f_path (_get_mp3_files d))) ->
      unprocessed_files (get_processing_stats d processed)
      = Z.of_nat (length (List.filter (path_absent processed) (_get_mp3_files d)))).
Proof.
  intros Hnd. destruct (tracked_files_size (_get_mp3_files d) processed Hnd) as [Hle Heq].
  pose proof (filter_split_length (fun f => bool_decide (f_path f ∈ dom processed))
                (_get_mp3_files d)) as Hsplit.
  cbv beta in Hsplit. fold (path_absent processed) in Hsplit.
  unfold get_processing_stats. cbn [unprocessed_files]. split; [lia|]. split.
  - rewrite _get_new_files_filter. apply filter_length_le. intros f _ Habs.
    unfold path_absent, changed in *. apply negb_true_iff, bool_decide_eq_false in Habs.
    apply negb_true_iff, bool_decide_eq_false. intros Hl. apply Habs, elem_of_dom.
    rewrite Hl. eauto.
  - intros Hall. specialize (Heq Hall). lia.
Qed.

End Statistics.

Lemma unprocessed_files_bound_witness :
  let d := disk (demo_machine true) in
  let processed : gmap str str := <[py "audio/old.mp3" := py "0000"]> ∅ in
  (unprocessed_files (@get_processing_stats demo_libraries d processed)
   <= Z.of_nat (length (List.filter (path_absent processed) (@_get_mp3_files demo_libraries d))))%Z
  /\ length (List.filter (path_absent processed) (@_get_mp3_files demo_libraries d))
     <= length (@_get_new_files demo_libraries d processed)
  /\ ((forall p, p ∈ dom processed -> In p (map f_path (@_get_mp3_files demo_libraries d))) ->
      unprocessed_files (@get_processing_stats demo_libraries d processed)
      = Z.of_nat (length (List.filter (path_absent processed)
                            (@_get_mp3_files demo_libraries d)))).
Proof.
  intros d processed.
  apply (@unprocessed_files_bound demo_libraries d processed).
  vm_compute. constructor; [intros []|constructor].
Defined.

(** *** The page request, whatever the title service answers *)

Section PageRequest.
Context `{Libraries} {Net : Type} `{Services Net}.

Lemma In_lstrip (c : N) (s : str) : In c (lstrip s) -> In c s.
Proof.
  destruct (lstrip_split s) as (gap & Hs & _). intros Hc.
  rewrite Hs. apply in_or_app. right. exact Hc.
Qed.

Lemma In_strip (c : N) (s : str) : In c (strip s) -> In c s.
Proof.
  unfold strip, rstrip. intros Hc.
  apply In_lstrip. apply in_rev. apply In_lstrip. apply in_rev. exact Hc.
Qed.

Lemma In_remove_char (c old : N) (s : str) :
  In c (remove_char old s) <-> In c s /\ c <> old.
Proof.
  unfold remove_char. rewrite filter_In, negb_true_iff, N.eqb_neq. reflexivity.
Qed.

Lemma clean_title_no_quotes (content : str) :
  ~ In 34%N (clean_title content) /\ ~ In 39%N (clean_title content).
Proof.
  unfold clean_title. split; intros Hc%In_strip.
  - apply In_remove_char in Hc. destruct Hc as [Hc _].
    apply In_remove_char in Hc. destruct Hc as [_ Hc]. exact (Hc eq_refl).
  - apply In_remove_char in Hc. destruct Hc as [_ Hc]. exact (Hc eq_refl).
Qed.

Lemma split_text_default_bound (transcript : str) :
  exists chunks,
    split_text transcript default_max_length = Done chunks
    /\ Forall (fun chunk => len chunk <= 1901)%Z chunks.
Proof.
  destruct (split_text_default_returns transcript) as [chunks Hrun].
  exists chunks. split; [exact Hrun|].
  unfold split_text, split_text_fuel in Hrun.
  destruct (Z.leb_spec (len transcript) default_max_length) as [Hle|Hgt].
  - injection Hrun as <-. unfold default_max_length in Hle.
    constructor; [lia|constructor].
  - eapply (split_loop_bound default_max_length) in Hrun;
      [exact Hrun|unfold default_max_length; lia|constructor].
Qed.

Ltac page_request_sent n1 :=
  cbn [net set_net add_stdout];
  destruct (requests_post _ n1) as [[response|err|] n2]; cbn [fst snd page_result];
  try destruct (status_code response =? 200)%Z;
  eexists; (split; [reflexivity|]); (split; [reflexivity|]);
  cbn; rewrite !in_app_iff; simpl; tauto.

(** The function, once the title request has been answered. *)
Lemma _create_notion_page_run (self : Processor) (file_name transcript summary : str)
  (m : Machine Net) (res : outcome Response) (n1 : Net) (chunks : list str) :
  requests_post (title_request self file_name transcript) (net m) = (res, n1) ->
  res <> OutOfFuel ->
  split_text transcript default_max_length = Done chunks ->
  exists m',
    _create_notion_page self file_name transcript summary m
    = (page_result
         (fst (requests_post
                 (CreatePage (notion_token self) (notion_database_id self)
                    (notion_title_for file_name res) (page_children summary chunks)) n1)),
       m')
    /\ net m'
       = snd (requests_post
                (CreatePage (notion_token self) (notion_database_id self)
                   (notion_title_for file_name res) (page_children summary chunks)) n1)
    /\ In (ProposedTitle (notion_title_for file_name res)) (stdout m').
Proof.
  intros Hreq Hres Hchunks.
  unfold _create_notion_page, bindM, try_except, print, modify, post, lift, ret, raise.
  cbn [net add_stdout]. rewrite Hreq, Hchunks.
  destruct res as [title_response|e|]; [| |destruct (Hres eq_refl)]; cbn [notion_title_for].
  - destruct (status_code title_response =? 200)%Z.
    + destruct (json_content title_response) as [content|]; cbn [subscript net set_net].
      * fold (clean_title content). page_request_sent n1.
      * page_request_sent n1.
    + cbn [net set_net]. page_request_sent n1.
  - cbn [net set_net]. page_request_sent n1.
Qed.

(** X8: whatever the title request gives (an answer or an exception), as
    long as it returns, _create_notion_page sends the page request and its
    result is what that request's answer gives. The page title is the file
    name, or a non-empty text without quotation marks followed by " - " and
    the file name. The children are the summary heading, the summary in one
    paragraph, the transcript heading and one paragraph per block of
    split_text, each of at most 1901 characters. *)
Theorem page_request_shape (self : Processor) (file_name transcript summary : str)
  (m : Machine Net) (res : outcome Response) (n1 : Net) :
  requests_post (title_request self file_name transcript) (net m) = (res, n1) ->
  res <> OutOfFuel ->
  exists title chunks m',
    (title = file_name
     \/ exists ai_title,
          title = ai_title ++ py " - " ++ file_name
          /\ ai_title <> [] /\ ~ In 34%N ai_title /\ ~ In 39%N ai_title)
    /\ split_text transcript default_max_length = Done chunks
    /\ Forall (fun chunk => len chunk <= 1901)%Z chunks
    /\ _create_notion_page self file_name transcript summary m
       = (page_result
            (fst (requests_post
                    (CreatePage (notion_token self) (notion_database_id self) title
                       ([Heading2 (py "Summary"); Paragraph summary;
                         Heading2 (py "Full Transcript")] ++ map Paragraph chunks)) n1)),
          m')
    /\ In (ProposedTitle title) (stdout m').
Proof.
  intros Hreq Hres.
  destruct (split_text_default_bound transcript) as (chunks & Hchunks & Hbound).
  destruct (_create_notion_page_run self file_name transcript summary m res n1 chunks
              Hreq Hres Hchunks) as (m' & Hrun & _ & Hout).
  exists (notion_title_for file_name res), chunks, m'.
  split; [|split; [exact Hchunks|split; [exact Hbound|split; [exact Hrun|exact Hout]]]].
  unfold notion_title_for. destruct res as [title_response|e|]; [|left; reflexivity..].
  destruct (status_code title_response =? 200)%Z; [|left; reflexivity].
  destruct (json_content title_response) as [content|]; [|left; reflexivity].
  right. destruct (clean_title_no_quotes content) as [Hq1 Hq2].
  destruct (truthy (clean_title content)) eqn:Hne; cbn [negb].
  - exists (clean_title content). split; [reflexivity|]. split; [|split; assumption].
    intros Hnil. rewrite Hnil in Hne. discriminate.
  - exists (py "Untitled"). split; [reflexivity|]. split; [discriminate|].
    split; vm_compute; intuition discriminate.
Qed.

End PageRequest.

Lemma page_request_shape_witness :
  exists title chunks m',
    (title = py "memo.mp3"
     \/ exists ai_title,
          title = ai_title ++ py " - " ++ py "memo.mp3"
          /\ ai_title <> [] /\ ~ In 34%N ai_title /\ ~ In 39%N ai_title)
    /\ split_text (py "hello world") default_max_length = Done chunks
    /\ Forall (fun chunk => len chunk <= 1901)%Z chunks
    /\ @_create_notion_page bool demo_services demo_self (py "memo.mp3")
         (py "hello world") (py "A summary.") (demo_machine true)
       = (page_result
            (fst (@requests_post bool demo_services
                    (CreatePage (notion_token demo_self) (notion_database_id demo_self) title
                       ([Heading2 (py "Summary"); Paragraph (py "A summary.");
                         Heading2 (py "Full Transcript")] ++ map Paragraph chunks)) true)),
          m')
    /\ In (ProposedTitle title) (stdout m').
Proof.
  apply (@page_request_shape bool demo_services demo_self (py "memo.mp3")
           (py "hello world") (py "A summary.") (demo_machine true)
           (Done (demo_response 200 (py "A summary."))) true).
  - reflexivity.
  - discriminate.
Defined.

(** *** Transcription chunk by chunk *)

Section Transcription.
Context `{Libraries} {Net : Type} `{Services Net}.





End Transcription.


(** *** The initialization script *)

Section InitializeScript.
Context `{Libraries}.

Lemma initialize_file_records (st : InitState) (f : File) :
  existing_state (initialize_file st f) = record_file (existing_state st) f.
Proof.
  unfold initialize_file, record_file, get_file_hash, _get_file_hash.
  destruct (bool_decide (f_path f ∈ dom (existing_state st))); [|reflexivity].
  destruct (bool_decide (existing_state st !! f_path f = Some _)) eqn:Hsame;
    cbn [negb existing_state]; [|reflexivity].
  apply bool_decide_eq_true in Hsame. symmetry. apply insert_id. exact Hsame.
Qed.

Lemma initialize_files_record (files : list File) (st : InitState) :
  existing_state (fold_left initialize_file files st)
  = fold_left record_file files (existing_state st).
Proof.
  revert st. induction files as [|f files IH]; intros st; cbn [fold_left]; [reflexivity|].
  rewrite IH, initialize_file_records. reflexivity.
Qed.

(** Each turn raises exactly one counter when the tracker would report the
    file, and none otherwise. *)
Lemma initialize_file_counts (st : InitState) (f : File) :
  (new_files_added (initialize_file st f) + existing_files_updated (initialize_file st f)
   = new_files_added st + existing_files_updated st
     + (if changed (existing_state st) f then 1 else 0))%Z.
Proof.
  unfold initialize_file, changed, get_file_hash, _get_file_hash.
  destruct (bool_decide (f_path f ∈ dom (existing_state st))) eqn:Hdom.
  - destruct (bool_decide (existing_state st !! f_path f = Some _));
      cbn [negb new_files_added existing_files_updated]; lia.
  - apply bool_decide_eq_false in Hdom. apply not_elem_of_dom in Hdom.
    rewrite Hdom, bool_decide_eq_false_2 by discriminate.
    cbn [negb new_files_added existing_files_updated]. lia.
Qed.

Lemma changed_record_other (pf : gmap str str) (f g : File) :
  f_path f <> f_path g -> changed (record_file pf f) g = changed pf g.
Proof.
  intros Hne. unfold changed, record_file. rewrite lookup_insert_ne by exact Hne. reflexivity.
Qed.

Lemma initialize_files_count (files : list File) (st : InitState) :
  List.NoDup (map f_path files) ->
  (new_files_added (fold_left initialize_file files st)
   + existing_files_updated (fold_left initialize_file files st)
   = new_files_added st + existing_files_updated st
     + Z.of_nat (length (List.filter (changed (existing_state st)) files)))%Z.
Proof.
  revert st. induction files as [|f files IH]; intros st Hnd; cbn [fold_left].
  - cbn. lia.
  - cbn [map] in Hnd. inversion Hnd as [|? ? Hfresh Hrest]; subst.
    rewrite (IH _ Hrest), initialize_file_counts, initialize_file_records.
    assert (Hsame : List.filter (changed (record_file (existing_state st) f)) files
                    = List.filter (changed (existing_state st)) files).
    { apply filter_ext_in. intros g Hg. apply changed_record_other.
      intros Heq. apply Hfresh. rewrite Heq. apply in_map. exact Hg. }
    rewrite Hsame. cbn [List.filter].
    destruct (changed (existing_state st) f); cbn [length]; lia.
Qed.

(** The mapping the script starts from, in terms of the state file. *)
Lemma initial_state_loaded (d : Disk) (lines : list InitLine) (st0 : InitState) :
  initial_state d lines = Done st0 ->
  new_files_added st0 = 0%Z /\ existing_files_updated st0 = 0%Z
  /\ (state_file d = None /\ existing_state st0 = ∅
      \/ exists data,
           state_file d = Some data
           /\ (json_load data = Done (JsonObject (existing_state st0))
               \/ existing_state st0 = ∅
                  /\ (json_load data = Raise JSONDecodeError
                      \/ json_load data = Raise FileNotFoundError))).
Proof.
  unfold initial_state. destruct (state_file d) as [data|].
  - destruct (json_load data) as [[state|]|e|] eqn:Hload; try discriminate.
    + intros [= <-]. cbn. split; [reflexivity|]. split; [reflexivity|].
      right. exists data. split; [reflexivity|]. left. exact Hload.
    + destruct e; try discriminate; intros [= <-]; cbn;
        (split; [reflexivity|]); (split; [reflexivity|]);
        right; exists data; (split; [reflexivity|]); right; (split; [reflexivity|]); tauto.
  - intros [= <-]. cbn. split; [reflexivity|]. split; [reflexivity|]. left. tauto.
Qed.

(** X9: initialize_existing_files returns False and leaves the disk as it is
    when the folder is missing or holds no MP3 file. With MP3 files and a
    state file on which json.load raises an exception other than
    JSONDecodeError and FileNotFoundError (bytes that are not text), it
    raises that exception; on a state file whose JSON value is not an
    object it raises TypeError. When it returns True, it has left the
    folder as it is and written the dump of its final mapping, having
    started from the mapping of the state file (the empty one when the file
    is missing or json.load raised JSONDecodeError); when the paths of the
    MP3 files are distinct, the tracker of audio_to_notion then reports no
    file on the final mapping, entries for other paths are those of the
    mapping it started from, and the two counters it prints add up to the
    number of files the tracker reported before. *)
Theorem initialize_marks_all_processed (d : Disk) :
  (_get_mp3_files d = [] ->
   exists st, initialize_existing_files d = Done (false, d, st))
  /\ (_get_mp3_files d <> [] ->
      forall data, state_file d = Some data ->
        (json_load data = Done JsonOther -> initialize_existing_files d = Raise TypeError)
        /\ (forall e, json_load data = Raise e ->
                      e <> JSONDecodeError -> e <> FileNotFoundError ->
                      initialize_existing_files d = Raise e))
  /\ (forall d' st,
        initialize_existing_files d = Done (true, d', st) ->
        exists state0,
          (state_file d = None /\ state0 = ∅
           \/ exists data,
                state_file d = Some data
                /\ (json_load data = Done (JsonObject state0)
                    \/ state0 = ∅
                       /\ (json_load data = Raise JSONDecodeError
                           \/ json_load data = Raise FileNotFoundError)))
          /\ folder d' = folder d
          /\ state_file d' = Some (json_dump (existing_state st))
          /\ (List.NoDup (map f_path (_get_mp3_files d)) ->
              _get_new_files d' (existing_state st) = []
              /\ (forall p, ~ In p (map f_path (_get_mp3_files d)) ->
                            existing_state st !! p = state0 !! p)
              /\ (new_files_added st + existing_files_updated st
                  = Z.of_nat (length (_get_new_files d state0)))%Z)).
Proof.
  unfold initialize_existing_files, _get_mp3_files.
  destruct (folder d) as [entries|] eqn:Hfolder.
  2: { split; [intros _; eauto|]. split; [intros Hne; destruct (Hne eq_refl)|].
       intros d' st [=]. }
  set (mp3_files := List.filter (fun f => glob_match (py "*.mp3") (f_name f)) entries).
  split; [|split].
  - intros Hnone. rewrite Hnone. cbn. eauto.
  - intros Hsome data Hfile. rewrite bool_decide_eq_true_2 by exact Hsome. cbn [negb].
    unfold initial_state. rewrite Hfile. split.
    + intros ->. reflexivity.
    + intros e -> Hjson Hmissing. destruct e; try reflexivity; congruence.
  - intros d' st. destruct (bool_decide (mp3_files <> [])); cbn [negb]; [|intros [=]].
    destruct (initial_state d [FoundFiles (length mp3_files)]) as [st0|e|] eqn:Hstart;
      cbn [bind]; [|discriminate|discriminate].
    intros [= <- <-].
    destruct (initial_state_loaded _ _ _ Hstart) as (Hadded & Hupdated & Hloaded).
    exists (existing_state st0). split; [exact Hloaded|].
    cbn [existing_state new_files_added existing_files_updated folder state_file].
    split; [reflexivity|]. split; [reflexivity|]. intros Hnd.
    rewrite initialize_files_record. split; [|split].
    + rewrite _get_new_files_filter. unfold _get_mp3_files. cbn [folder].
      fold mp3_files. apply filter_none. intros g Hg. unfold changed.
      apply negb_false_iff, bool_decide_eq_true.
      apply record_files_lookup; assumption.
    + intros p Hp. apply record_files_other. exact Hp.
    + rewrite (initialize_files_count _ _ Hnd), Hadded, Hupdated, _get_new_files_filter.
      unfold _get_mp3_files. rewrite Hfolder. fold mp3_files. lia.
Qed.

End InitializeScript.

Lemma initialize_marks_all_processed_witness :
  let d := disk (demo_machine true) in
  exists d' st,
    @initialize_existing_files demo_libraries d = Done (true, d', st)
    /\ state_file d' = Some (@json_dump demo_libraries (existing_state st))
    /\ @_get_new_files demo_libraries d' (existing_state st) = [].
Proof.
  intros d.
  destruct (@initialize_existing_files demo_libraries d) as [[[ok d'] st]|e|] eqn:Hrun;
    [|vm_compute in Hrun; discriminate|vm_compute in Hrun; discriminate].
  assert (Hok : ok = true) by (vm_compute in Hrun; congruence).
  subst ok. exists d', st. split; [reflexivity|].
  destruct (@initialize_marks_all_processed demo_libraries d) as (_ & _ & Hdone).
  destruct (Hdone d' st Hrun) as (state0 & _ & _ & Hfile & Hall).
  split; [exact Hfile|]. apply Hall.
  repeat constructor. simpl. tauto.
Defined.

(** *** The entry point *)

Section EntryPoint.
Context `{Libraries} {Net : Type} `{Services Net} `{OtherState Net}.

(** X10: main never lets an exception escape. When one of the three
    credentials is missing or empty it prints the ValueError and returns 1,
    and the mapping, the disk and the network are as they were. With the
    three credentials set: when _load_state raises (a state file whose
    bytes are not text), no processor is built, main prints that exception
    and returns 1, and nothing else has changed; when _load_state returns a
    mapping, the processor is built with it, and when its process_new_files
    returns, main returns 0, the state is the one process_new_files left,
    and the lines printed are the statistics before, the created pages (or
    the line for none) and the statistics after. *)
Theorem main_exit_code (env : gmap str str) (s : Session Net) :
  (forall e, fst (main env s) <> Raise e)
  /\ (is_set (env !! py "OPENAI_API_KEY") = false
      \/ is_set (env !! py "NOTION_TOKEN") = false
      \/ is_set (env !! py "NOTION_DATABASE_ID") = false ->
      fst (main env s) = Done 1%Z
      /\ machine (snd (main env s)) = machine s
      /\ exists msg, console (snd (main env s)) = console s ++ [MainError (ValueError msg)])
  /\ (is_set (env !! py "OPENAI_API_KEY") = true ->
      is_set (env !! py "NOTION_TOKEN") = true ->
      is_set (env !! py "NOTION_DATABASE_ID") = true ->
      (forall e,
         _load_state (disk (machine s)) = Raise e ->
         main env s
         = (Done 1%Z, {| machine := machine s; console := console s ++ [MainError e] |}))
      /\ (forall state,
            _load_state (disk (machine s)) = Done (JsonObject state) ->
            exists self,
              init env (disk (machine s)) = Done (self, JsonObject state)
              /\ forall pages m',
                   process_new_files self (set_processed_files state (machine s))
                   = (Done pages, m') ->
                   main env s
                   = (Done 0%Z,
                      {| machine := m';
                         console :=
                           console s
                           ++ [StatsBefore (get_processing_stats (disk (machine s)) state);
                               (if bool_decide (pages <> []) then CreatedPages pages
                                else NoNewPages);
                               FinalStats (get_processing_stats (disk m')
                                             (processed_files m'))] |}))).
Proof.
  split; [|split].
  - intros e. unfold main, try_except.
    match goal with |- context [bindM ?c ?k s] => destruct (bindM c k s) as [[code|e'|] s'] end;
      cbn; discriminate.
  - intros Hmissing.
    assert (Hinit : exists msg, init env (disk (machine s)) = Raise (ValueError msg)).
    { unfold init.
      destruct (is_set (env !! py "OPENAI_API_KEY")); cbn [negb]; [|eauto].
      destruct (is_set (env !! py "NOTION_TOKEN")); cbn [negb]; [|eauto].
      destruct (is_set (env !! py "NOTION_DATABASE_ID")); cbn [negb]; [|eauto].
      destruct Hmissing as [Hm|[Hm|Hm]]; discriminate. }
    destruct Hinit as [msg Hinit].
    unfold main, try_except, bindM, new_processor. cbv beta. rewrite Hinit.
    cbn. split; [reflexivity|]. split; [reflexivity|]. eauto.
  - intros Hkey Htoken Hdb. split.
    + intros e Hload.
      unfold main, try_except, bindM, new_processor. cbv beta.
      unfold init. rewrite Hkey, Htoken, Hdb, Hload. cbn [negb bind]. destruct s. reflexivity.
    + intros state Hload. eexists. split.
      { unfold init. rewrite Hkey, Htoken, Hdb, Hload. cbn [negb bind]. reflexivity. }
      intros pages m' Hrun.
      unfold main, try_except, bindM, new_processor. cbv beta.
      unfold init. rewrite Hkey, Htoken, Hdb, Hload. cbn [negb bind fst snd].
      unfold stats_now, say, in_machine, gets, modify, ret.
      cbn [machine console disk processed_files set_processed_files].
      rewrite Hrun. cbn [machine console].
      destruct (bool_decide (pages <> [])); cbn [machine console];
        rewrite <- !app_assoc; reflexivity.
Qed.

End EntryPoint.

Lemma main_exit_code_witness :
  let s := {| machine := demo_machine true; console := [] |} in
  let unreadable :=
    {| machine := @set_disk bool undecodable_disk (demo_machine true); console := [] |} in
  fst (@main demo_libraries bool demo_services demo_other_state ∅ s) = Done 1%Z
  /\ fst (@main demo_libraries bool demo_services demo_other_state demo_env s) = Done 0%Z
  /\ fst (@main demo_libraries bool demo_services demo_other_state demo_env unreadable)
     = Done 1%Z.
Proof.
  intros s unreadable. split; [|split].
  - destruct (@main_exit_code demo_libraries bool demo_services demo_other_state ∅ s)
      as (_ & Hmissing & _).
    destruct Hmissing as (Hcode & _); [left; reflexivity|exact Hcode].
  - destruct (@main_exit_code demo_libraries bool demo_services demo_other_state demo_env s)
      as (_ & _ & Hset).
    destruct Hset as [_ Hbuilt]; [reflexivity|reflexivity|reflexivity|].
    destruct (Hbuilt ∅ eq_refl) as (self & Hinit & Hrun).
    assert (Hself : @init demo_libraries demo_env (disk (machine s))
                    = Done (demo_self, JsonObject ∅)) by (vm_compute; reflexivity).
    rewrite Hself in Hinit. injection Hinit as <-.
    rewrite (Hrun [py "page-1"]
               (snd (@process_new_files demo_libraries bool demo_services demo_self
                       (set_processed_files ∅ (machine s)))));
      [reflexivity|vm_compute; reflexivity].
  - destruct (@main_exit_code demo_libraries bool demo_services demo_other_state demo_env
                unreadable) as (_ & _ & Hset).
    destruct Hset as [Hraise _]; [reflexivity|reflexivity|reflexivity|].
    rewrite (Hraise UnicodeDecodeError); [reflexivity|vm_compute; reflexivity].
Defined.

End AudioToNotionSpec.

(** ** Properties of zotero_to_anki.py *)

Module ZoteroToAnkiSpec.
Import ZoteroToAnki.

(** *** parse_cards *)

Lemma finish_emit (q a : str) (out : list (str * str)) :
  finish (q, a, out) = out ++ emit q a.
Proof.
  unfold finish, emit. destruct (truthy q && truthy a); [reflexivity|].
  symmetry. apply app_nil_r.
Qed.

Lemma parse_line_classify (q a : str) (out : list (str * str)) (ln : str) :
  parse_line (q, a, out) ln =
  match classify ln with
  | QLine q' => (q', [], out ++ emit q a)
  | ALine a' => (q, a', out)
  | OtherLine => (q, a, out)
  end.
Proof.
  unfold parse_line, classify, emit. cbv zeta.
  destruct (startswith (strip ln) (py "Q:")).
  - destruct (truthy q && truthy a); [reflexivity|]. rewrite app_nil_r. reflexivity.
  - destruct (startswith (strip ln) (py "A:")); reflexivity.
Qed.

Lemma parse_lines_pairs (lines : list str) (q a : str) (out : list (str * str)) :
  finish (fold_left parse_line lines (q, a, out))
  = out ++ emit q (last_answer (map classify lines) a)
        ++ wellformed_pairs (map classify lines).
Proof.
  revert q a out. induction lines as [|ln lines IH]; intros q a out.
  - simpl. rewrite app_nil_r. apply finish_emit.
  - cbn [fold_left map]. rewrite parse_line_classify.
    destruct (classify ln) as [q'|a'|]; rewrite IH; cbn [last_answer wellformed_pairs].
    + rewrite <- app_assoc. reflexivity.
    + reflexivity.
    + reflexivity.
Qed.

Lemma parse_cards_pairs (txt : str) :
  parse_cards txt = wellformed_pairs (map classify (splitlines txt)).
Proof.
  unfold parse_cards.
  change (finish (fold_left parse_line (splitlines txt) ([], [], []))
          = wellformed_pairs (map classify (splitlines txt))).
  rewrite parse_lines_pairs. reflexivity.
Qed.

(** C8 as stated fails: this reply has one "Q:" line followed by an "A:"
    line, and parse_cards returns no pair, because the text on the "A:" line
    is empty. *)
Lemma parse_cards_empty_answer :
  answered_questions (map classify (splitlines reply_answer_on_next_line)) = 1
  /\ parse_cards reply_answer_on_next_line = [].
Proof. split; vm_compute; reflexivity. Qed.

(** *** top_level_key *)

Lemma top_level_key_fuel_step (fuel : nat) (items_by_key : gmap str Item) (k : str) :
  top_level_key_fuel (S fuel) items_by_key k =
  match parent_of items_by_key k with
  | Some p => top_level_key_fuel fuel items_by_key p
  | None => Done k
  end.
Proof.
  cbn [top_level_key_fuel]. unfold parent_of.
  destruct (items_by_key !! k) as [i|]; [|reflexivity].
  destruct (parentItem i) as [p|]; [|reflexivity].
  destruct (truthy p); reflexivity.
Qed.

Lemma ancestor_snoc (items_by_key : gmap str Item) (n : nat) (s k p : str) :
  ancestor n items_by_key s = Some k ->
  parent_of items_by_key k = Some p ->
  ancestor (S n) items_by_key s = Some p.
Proof.
  revert s. induction n as [|n IH]; intros s Hs Hk.
  - injection Hs as ->. simpl. rewrite Hk. reflexivity.
  - cbn [ancestor] in Hs |- *.
    destruct (parent_of items_by_key s) as [q|]; [|discriminate].
    apply IH; assumption.
Qed.

Lemma parent_of_dom (items_by_key : gmap str Item) (k p : str) :
  parent_of items_by_key k = Some p -> k ∈ dom items_by_key.
Proof.
  unfold parent_of. intros Hp. apply elem_of_dom.
  destruct (items_by_key !! k); [eauto|discriminate].
Qed.

Lemma acyclic_cycle_free (items_by_key : gmap str Item) (k : str) :
  acyclic items_by_key -> cycle_free_from items_by_key k.
Proof. intros Hacyclic m c n _. apply Hacyclic. Qed.

Lemma cycle_free_parent (items_by_key : gmap str Item) (k p : str) :
  cycle_free_from items_by_key k ->
  parent_of items_by_key k = Some p ->
  cycle_free_from items_by_key p.
Proof.
  intros Hfree Hp m c n Hm. apply (Hfree (S m)). cbn [ancestor]. rewrite Hp. exact Hm.
Qed.

(** The walk from [k] ends, given a set [visited] of fetched keys that all
    lead to [k] and enough fuel for the keys not yet visited. *)
Lemma top_level_key_fuel_visited (items_by_key : gmap str Item) :
  forall (fuel : nat) (visited : gset str) (k : str),
    cycle_free_from items_by_key k ->
    visited ⊆ dom items_by_key ->
    (forall s, s ∈ visited -> exists n, ancestor (S n) items_by_key s = Some k) ->
    size items_by_key < fuel + size visited ->
    exists r, top_level_key_fuel fuel items_by_key k = Done r
              /\ parent_of items_by_key r = None.
Proof.
  induction fuel as [|fuel IH]; intros visited k Hfree Hsub Hlead Hsize.
  - apply subseteq_size in Hsub. rewrite size_dom in Hsub. lia.
  - rewrite top_level_key_fuel_step.
    destruct (parent_of items_by_key k) as [p|] eqn:Hp; [|eauto].
    assert (Hfresh : k ∉ visited).
    { intros Hk. destruct (Hlead k Hk) as [n Hn]. exact (Hfree 0 k n eq_refl Hn). }
    apply (IH ({[k]} ∪ visited) p).
    + eapply cycle_free_parent; eassumption.
    + apply union_subseteq. split; [|exact Hsub].
      apply singleton_subseteq_l. eapply parent_of_dom. exact Hp.
    + intros s [->%elem_of_singleton|Hs]%elem_of_union.
      * exists 0. simpl. rewrite Hp. reflexivity.
      * destruct (Hlead s Hs) as [n Hn]. exists (S n).
        eapply ancestor_snoc; eassumption.
    + rewrite size_union by (apply disjoint_singleton_l; exact Hfresh).
      rewrite size_singleton. lia.
Qed.

Lemma top_level_key_cycle_free (items_by_key : gmap str Item) (k : str) :
  cycle_free_from items_by_key k ->
  exists r, top_level_key items_by_key k = Done r /\ parent_of items_by_key r = None.
Proof.
  intros Hfree. unfold top_level_key.
  apply (top_level_key_fuel_visited items_by_key _ ∅).
  - exact Hfree.
  - apply empty_subseteq.
  - intros s Hs. exfalso. exact (not_elem_of_empty s Hs).
  - rewrite size_empty. lia.
Qed.

(** Following [m] parent references uses up [m] units of fuel. *)
Lemma top_level_key_fuel_walk (items_by_key : gmap str Item) (m fuel : nat) (k c : str) :
  ancestor m items_by_key k = Some c ->
  top_level_key_fuel (m + fuel) items_by_key k = top_level_key_fuel fuel items_by_key c.
Proof.
  revert k. induction m as [|m IH]; intros k Hm; cbn [ancestor] in Hm.
  - injection Hm as ->. reflexivity.
  - destruct (parent_of items_by_key k) as [p|] eqn:Hp; [|discriminate].
    replace (S m + fuel) with (S (m + fuel)) by lia.
    rewrite top_level_key_fuel_step, Hp. apply IH, Hm.
Qed.

Lemma ancestor_split (items_by_key : gmap str Item) (a b : nat) (k c : str) :
  ancestor (a + b) items_by_key k = Some c ->
  exists y, ancestor a items_by_key k = Some y /\ ancestor b items_by_key y = Some c.
Proof.
  revert k. induction a as [|a IH]; intros k Hk.
  - exists k. split; [reflexivity|exact Hk].
  - cbn [Nat.add ancestor] in Hk |- *.
    destruct (parent_of items_by_key k) as [p|]; [|discriminate]. apply IH, Hk.
Qed.

(** Fuel for fewer lookups than the chain has links runs out. *)
Lemma top_level_key_fuel_short (items_by_key : gmap str Item) (a fuel : nat) (k c : str) :
  ancestor a items_by_key k = Some c ->
  fuel <= a ->
  top_level_key_fuel fuel items_by_key k = OutOfFuel.
Proof.
  intros Ha Hle. replace a with (fuel + (a - fuel)) in Ha by lia.
  destruct (ancestor_split _ _ _ _ _ Ha) as (y & Hy & _).
  rewrite <- (Nat.add_0_r fuel). rewrite (top_level_key_fuel_walk _ _ 0 _ _ Hy). reflexivity.
Qed.

(** On a cycle the walk has no result, whatever the fuel. *)
Lemma top_level_key_fuel_on_cycle (items_by_key : gmap str Item) (n : nat) (c : str) :
  ancestor (S n) items_by_key c = Some c ->
  forall fuel, top_level_key_fuel fuel items_by_key c = OutOfFuel.
Proof.
  intros Hcycle fuel. induction fuel as [fuel IH] using lt_wf_ind.
  destruct (Nat.le_gt_cases fuel (S n)) as [Hle|Hgt].
  - eapply top_level_key_fuel_short; eassumption.
  - replace fuel with (S n + (fuel - S n)) by lia.
    rewrite (top_level_key_fuel_walk _ _ _ _ _ Hcycle). apply IH. lia.
Qed.

Lemma top_level_key_fuel_into_cycle (items_by_key : gmap str Item) (m n : nat) (k c : str) :
  ancestor m items_by_key k = Some c ->
  ancestor (S n) items_by_key c = Some c ->
  forall fuel, top_level_key_fuel fuel items_by_key k = OutOfFuel.
Proof.
  intros Hreach Hcycle fuel. destruct (Nat.le_gt_cases fuel m) as [Hle|Hgt].
  - eapply top_level_key_fuel_short; eassumption.
  - replace fuel with (m + (fuel - m)) by lia.
    rewrite (top_level_key_fuel_walk _ _ _ _ _ Hreach).
    eapply top_level_key_fuel_on_cycle. exact Hcycle.
Qed.



(** C7, amended: top_level_key returns for every item map and starting key
    from which no parent-reference cycle is reached (so for every starting
    key of a map without cycles), after at most one lookup more than the
    map has items, and the key it returns has no parent reference to
    follow. When a cycle is reached from the starting key it has no result,
    whatever the number of lookups allowed. *)
Theorem top_level_key_terminates_cycle_free (items_by_key : gmap str Item) (k : str) :
  (cycle_free_from items_by_key k ->
   exists r, top_level_key items_by_key k = Done r
             /\ parent_of items_by_key r = None)
  /\ (acyclic items_by_key -> cycle_free_from items_by_key k)
  /\ (forall (m n : nat) (c : str),
        ancestor m items_by_key k = Some c ->
        ancestor (S n) items_by_key c = Some c ->
        forall fuel, top_level_key_fuel fuel items_by_key k = OutOfFuel).
Proof.
  split; [apply top_level_key_cycle_free|]. split; [apply acyclic_cycle_free|].
  intros m n c. apply top_level_key_fuel_into_cycle.
Qed.

Lemma top_level_key_terminates_acyclic_fuel (items_by_key : gmap str Item) (k : str) :
  acyclic items_by_key -> exists r, top_level_key items_by_key k = Done r.
Proof.
  intros Hacyclic.
  destruct (top_level_key_cycle_free items_by_key k) as (r & Hr & _); [|eauto].
  apply acyclic_cycle_free, Hacyclic.
Qed.

Lemma cycle_items_lookup :
  parent_of (index_by_key cycle_items) (py "NOTE1") = Some (py "NOTE2")
  /\ parent_of (index_by_key cycle_items) (py "NOTE2") = Some (py "NOTE1").
Proof. split; vm_compute; reflexivity. Qed.

(** C7 as stated fails: on two notes that name each other as parent, the
    walk started at either of them has no result, whatever the number of
    lookups allowed. *)
Lemma top_level_key_cycle_never_returns :
  top_level_key (index_by_key cycle_items) (py "NOTE1") = OutOfFuel
  /\ (forall fuel,
        top_level_key_fuel fuel (index_by_key cycle_items) (py "NOTE1") = OutOfFuel).
Proof.
  destruct cycle_items_lookup as [H1 H2].
  assert (Hboth : forall fuel,
    top_level_key_fuel fuel (index_by_key cycle_items) (py "NOTE1") = OutOfFuel
    /\ top_level_key_fuel fuel (index_by_key cycle_items) (py "NOTE2") = OutOfFuel).
  { induction fuel as [|fuel [IH1 IH2]]; [split; reflexivity|].
    rewrite !top_level_key_fuel_step, H1, H2. split; assumption. }
  split.
  - unfold top_level_key.
    destruct (Hboth (S (size (index_by_key cycle_items)))) as [Hrun _]. exact Hrun.
  - intros fuel. destruct (Hboth fuel) as [Hrun _]. exact Hrun.
Qed.

(** A rank that falls along every parent reference rules cycles out. *)
Lemma ranked_acyclic (items_by_key : gmap str Item) (rank : str -> nat) :
  (forall k p, parent_of items_by_key k = Some p -> rank p < rank k) ->
  acyclic items_by_key.
Proof.
  intros Hrank.
  assert (Hfall : forall n k k', ancestor (S n) items_by_key k = Some k' -> rank k' < rank k).
  { induction n as [|n IH]; intros k k' Hk; cbn [ancestor] in Hk;
      destruct (parent_of items_by_key k) as [p|] eqn:Hp; try discriminate.
    - injection Hk as <-. apply Hrank, Hp.
    - specialize (IH p k' Hk). specialize (Hrank k p Hp). lia. }
  intros k n Hk. specialize (Hfall n k k Hk). lia.
Qed.

Lemma demo_items_acyclic : acyclic (index_by_key demo_items).
Proof.
  apply (ranked_acyclic _ demo_rank). intros k p.
  destruct (decide (k = py "NOTE1")) as [->|Hn];
    [vm_compute; intros [= <-]; lia|].
  destruct (decide (k = py "PAGE1")) as [->|Hg];
    [vm_compute; intros [= <-]; lia|].
  destruct (decide (k = py "PDF1")) as [->|Hd];
    [vm_compute; intros [= <-]; lia|].
  destruct (decide (k = py "PAPER1")) as [->|Hp];
    [vm_compute; discriminate|].
  unfold parent_of, index_by_key, demo_items. cbn [fold_left].
  rewrite !lookup_insert_ne
    by (intros E; subst k;
        solve [apply Hn; reflexivity|apply Hg; reflexivity
              |apply Hd; reflexivity|apply Hp; reflexivity]).
  rewrite lookup_empty. discriminate.
Qed.

Lemma top_level_key_terminates_cycle_free_witness :
  exists r, top_level_key (index_by_key demo_items) (py "PAGE1") = Done r
            /\ parent_of (index_by_key demo_items) r = None.
Proof.
  apply (proj1 (top_level_key_terminates_cycle_free (index_by_key demo_items) (py "PAGE1"))).
  apply acyclic_cycle_free. exact demo_items_acyclic.
Defined.

(** *** The loop over the groups *)

Section Groups.
Context `{TextLibs} {Net : Type} `{Remote Net}.

Lemma for_each_app {A} (xs ys : list A) (body : A -> M (World Net) unit) (w : World Net) :
  for_each (xs ++ ys) body w =
  match for_each xs body w with
  | (Done _, w1) => for_each ys body w1
  | r => r
  end.
Proof.
  revert w. induction xs as [|x xs IH]; intros w; simpl; [reflexivity|].
  unfold bindM. destruct (body x w) as [[[]|e|] w1]; [apply IH|reflexivity|reflexivity].
Qed.

Lemma push_cards_cons (deck : str) (card : str * str) (cards : list (str * str))
  (w : World Net) :
  for_each (card :: cards) (fun card => push_card deck (fst card) (snd card)) w =
  match anki_post (add_notes deck card) (net w) with
  | (Done _, n) =>
      for_each cards (fun card => push_card deck (fst card) (snd card))
        (logged (add_notes deck card) n w)
  | (Raise e, n) => (Raise e, logged (add_notes deck card) n w)
  | (OutOfFuel, n) => (OutOfFuel, logged (add_notes deck card) n w)
  end.
Proof.
  cbn [for_each]. unfold bindM at 1, push_card at 1, bindM at 1, send at 1, add_notes.
  destruct (anki_post (AddNotes deck (fst card) (snd card)) (net w)) as [[r|e|] n];
    reflexivity.
Qed.

(** Pushing the cards sends one addNotes request per card, in order, as
    long as none of them raises; the deck set is not touched. *)
Lemma push_cards_calls (deck : str) (cards : list (str * str)) (w : World Net) :
  decks_exist (snd (for_each cards (fun card => push_card deck (fst card) (snd card)) w))
  = decks_exist w
  /\ (fst (for_each cards (fun card => push_card deck (fst card) (snd card)) w) = Done tt ->
      calls (snd (for_each cards (fun card => push_card deck (fst card) (snd card)) w))
      = calls w ++ map (add_notes deck) cards).
Proof.
  revert w. induction cards as [|card cards IH]; intros w.
  - simpl. rewrite app_nil_r. split; reflexivity.
  - rewrite push_cards_cons.
    destruct (anki_post (add_notes deck card) (net w)) as [[r|e|] n].
    + destruct (IH (logged (add_notes deck card) n w)) as [IHd IHc].
      split; [exact IHd|]. intros Hdone. rewrite (IHc Hdone).
      cbn [logged calls map]. rewrite <- app_assoc. reflexivity.
    + split; [reflexivity|discriminate].
    + split; [reflexivity|discriminate].
Qed.


Lemma process_group_known (PARENT_DECK : str) (papers : gmap str Item)
  (pid : str) (txts : list str) (paper : Item) (deck : str) (w : World Net) :
  papers !! pid = Some paper ->
  deck_name PARENT_DECK paper = Done deck ->
  deck ∈ decks_exist w ->
  process_group PARENT_DECK papers (pid, txts) w = (Done tt, w).
Proof.
  intros Hp Hd Hin. unfold process_group. rewrite Hp, Hd.
  unfold bindM, lift, gets. rewrite bool_decide_eq_true_2 by exact Hin. reflexivity.
Qed.

(** A group whose deck is new: the deck is created and recorded, one
    generation request is sent, and each parsed card is pushed. *)
Lemma process_group_new (PARENT_DECK : str) (papers : gmap str Item)
  (pid : str) (txts : list str) (paper : Item) (deck : str) (w w' : World Net) :
  papers !! pid = Some paper ->
  deck_name PARENT_DECK paper = Done deck ->
  deck ∉ decks_exist w ->
  process_group PARENT_DECK papers (pid, txts) w = (Done tt, w') ->
  exists (reply : str) (n n' : Net),
    openai_post (join [10; 10]%N txts) n = (Done reply, n')
    /\ calls w' = calls w
                  ++ [CreateDeck deck; ChatCompletion (join [10; 10]%N txts)]
                  ++ map (add_notes deck) (parse_cards reply)
    /\ decks_exist w' = {[deck]} ∪ decks_exist w.
Proof.
  intros Hp Hd Hnew. unfold process_group. rewrite Hp, Hd.
  unfold bindM at 1, lift at 1. unfold bindM at 1, gets at 1.
  rewrite bool_decide_eq_false_2 by exact Hnew.
  unfold bindM at 1, ensure_deck at 1, bindM at 1, send at 1.
  destruct (anki_post (CreateDeck deck) (net w)) as [[r|e|] n0]; [|discriminate|discriminate].
  cbn [ret]. unfold bindM at 1, modify at 1. unfold bindM at 1, generate_cards, send.
  cbn [net set_decks_exist calls decks_exist].
  destruct (openai_post (join [10; 10]%N txts) n0) as [[reply|e|] n1] eqn:Hgen;
    [|discriminate|discriminate].
  intros Hrun. exists reply, n0, n1. split; [exact Hgen|].
  pose proof (push_cards_calls deck (parse_cards reply)
                {| decks_exist := {[deck]} ∪ decks_exist w;
                   calls := (calls w ++ [CreateDeck deck])
                            ++ [ChatCompletion (join [10; 10]%N txts)];
                   net := n1 |}) as Hpush.
  rewrite Hrun in Hpush. cbn [fst snd calls decks_exist] in Hpush.
  destruct Hpush as [Hdecks Hcalls]. split; [|exact Hdecks].
  rewrite (Hcalls eq_refl), <- !app_assoc. reflexivity.
Qed.

(** Deck names are only ever added. *)
Lemma process_group_decks (PARENT_DECK : str) (papers : gmap str Item)
  (group : str * list str) (w : World Net) :
  decks_exist w ⊆ decks_exist (snd (process_group PARENT_DECK papers group w)).
Proof.
  destruct group as [pid txts]. unfold process_group.
  destruct (papers !! pid) as [paper|]; [|reflexivity].
  unfold bindM at 1, lift at 1.
  destruct (deck_name PARENT_DECK paper) as [deck|e|]; [|reflexivity|reflexivity].
  unfold bindM at 1, gets at 1.
  destruct (bool_decide (deck ∈ decks_exist w)); [reflexivity|].
  unfold bindM at 1, ensure_deck at 1, bindM at 1, send at 1.
  destruct (anki_post (CreateDeck deck) (net w)) as [[r|e|] n0]; [|reflexivity|reflexivity].
  cbn [ret]. unfold bindM at 1, modify at 1. unfold bindM at 1, generate_cards, send.
  cbn [net set_decks_exist calls decks_exist].
  destruct (openai_post (join [10; 10]%N txts) n0) as [[reply|e|] n1];
    [|cbn; apply union_subseteq_r|cbn; apply union_subseteq_r].
  pose proof (push_cards_calls deck (parse_cards reply)
                {| decks_exist := {[deck]} ∪ decks_exist w;
                   calls := (calls w ++ [CreateDeck deck])
                            ++ [ChatCompletion (join [10; 10]%N txts)];
                   net := n1 |}) as [Hdecks _].
  rewrite Hdecks. cbn. apply union_subseteq_r.
Qed.

Lemma groups_decks (PARENT_DECK : str) (papers : gmap str Item)
  (groups : list (str * list str)) (w : World Net) :
  decks_exist w ⊆ decks_exist (snd (for_each groups (process_group PARENT_DECK papers) w)).
Proof.
  revert w. induction groups as [|g groups IH]; intros w; simpl; [reflexivity|].
  unfold bindM. pose proof (process_group_decks PARENT_DECK papers g w) as Hg.
  destruct (process_group PARENT_DECK papers g w) as [[[]|e|] w1]; simpl in *;
    [|exact Hg|exact Hg].
  etransitivity; [exact Hg|apply IH].
Qed.

(** C5: a group whose deck name is in the set of existing decks, at the
    start of the loop or after some earlier groups, is passed over: its turn
    sends no request (no deck creation, no generation, no card push) and
    changes nothing, so the run is the run without that group. A turn that
    sends anything found the deck name absent. *)
Theorem known_deck_skips_group (PARENT_DECK : str) (papers : gmap str Item)
  (earlier later after : list (str * list str)) (pid : str) (txts : list str)
  (paper : Item) (deck : str) (w0 wm w1 : World Net) :
  papers !! pid = Some paper ->
  deck_name PARENT_DECK paper = Done deck ->
  for_each earlier (process_group PARENT_DECK papers) w0 = (Done tt, wm) ->
  deck ∈ decks_exist wm ->
  for_each later (process_group PARENT_DECK papers) wm = (Done tt, w1) ->
  process_group PARENT_DECK papers (pid, txts) w1 = (Done tt, w1)
  /\ for_each ((earlier ++ later) ++ (pid, txts) :: after)
       (process_group PARENT_DECK papers) w0
     = for_each ((earlier ++ later) ++ after) (process_group PARENT_DECK papers) w0
  /\ (forall (w w' : World Net) (r : outcome unit),
        process_group PARENT_DECK papers (pid, txts) w = (r, w') ->
        calls w' <> calls w ->
        deck ∉ decks_exist w).
Proof.
  intros Hp Hd Hearlier Hin Hlater.
  assert (Hin1 : deck ∈ decks_exist w1).
  { pose proof (groups_decks PARENT_DECK papers later wm) as Hsub.
    rewrite Hlater in Hsub. apply Hsub, Hin. }
  assert (Hskip : process_group PARENT_DECK papers (pid, txts) w1 = (Done tt, w1))
    by (eapply process_group_known; eassumption).
  assert (Hbefore : for_each (earlier ++ later) (process_group PARENT_DECK papers) w0
                    = (Done tt, w1)).
  { rewrite for_each_app, Hearlier. exact Hlater. }
  split; [exact Hskip|]. split.
  - rewrite !(for_each_app (earlier ++ later)), Hbefore.
    cbn [for_each]. unfold bindM at 1. rewrite Hskip. reflexivity.
  - intros w w' r Hrun Hcalls Hknown. apply Hcalls.
    rewrite (process_group_known _ _ _ _ _ _ _ Hp Hd Hknown) in Hrun.
    injection Hrun as _ <-. reflexivity.
Qed.

(** C8, amended: parse_cards returns, in order, one pair for each "Q:" line
    whose question text is not empty and whose last "A:" line before the
    next "Q:" line has a text that is not empty: the question and that
    answer. For a group whose deck is new and whose turn ends normally, one
    addNotes request is sent for each of these pairs of the reply. *)
Theorem parse_cards_wellformed_pairs (txt : str) :
  parse_cards txt = wellformed_pairs (map classify (splitlines txt))
  /\ (forall (PARENT_DECK : str) (papers : gmap str Item) (pid : str) (txts : list str)
             (paper : Item) (deck : str) (w w' : World Net),
        papers !! pid = Some paper ->
        deck_name PARENT_DECK paper = Done deck ->
        deck ∉ decks_exist w ->
        process_group PARENT_DECK papers (pid, txts) w = (Done tt, w') ->
        exists (reply : str) (n n' : Net),
          openai_post (join [10; 10]%N txts) n = (Done reply, n')
          /\ calls w' = calls w
                        ++ [CreateDeck deck; ChatCompletion (join [10; 10]%N txts)]
                        ++ map (add_notes deck)
                             (wellformed_pairs (map classify (splitlines reply)))).
Proof.
  split; [apply parse_cards_pairs|].
  intros PARENT_DECK papers pid txts paper deck w w' Hp Hd Hnew Hrun.
  destruct (process_group_new _ _ _ _ _ _ _ _ Hp Hd Hnew Hrun)
    as (reply & n & n' & Hgen & Hcalls & _).
  exists reply, n, n'. split; [exact Hgen|].
  rewrite <- parse_cards_pairs. exact Hcalls.
Qed.

(** *** Grouping notes under their top-level item *)

Lemma annos_get_setdefault_append (annos : list (str * list str)) (k k' md : str) :
  annos_get (setdefault_append annos k md) k' =
  if decide (k' = k) then Some (default [] (annos_get annos k) ++ [md])
  else annos_get annos k'.
Proof.
  unfold annos_get. induction annos as [|[k0 txts] annos IH]; cbn [setdefault_append].
  - simpl. destruct (decide (k' = k)) as [->|Hne].
    + rewrite bool_decide_eq_true_2 by reflexivity. reflexivity.
    + rewrite bool_decide_eq_false_2 by congruence. reflexivity.
  - destruct (decide (k0 = k)) as [->|Hk0]; cbn [List.find fst].
    + destruct (decide (k' = k)) as [->|Hne].
      * rewrite !bool_decide_eq_true_2 by reflexivity. reflexivity.
      * rewrite !bool_decide_eq_false_2 by congruence. reflexivity.
    + destruct (decide (k0 = k')) as [->|Hk0'].
      * rewrite bool_decide_eq_true_2 by reflexivity.
        rewrite bool_decide_eq_false_2 by congruence.
        destruct (decide (k' = k)); [congruence|reflexivity].
      * rewrite bool_decide_eq_false_2 by congruence.
        rewrite (bool_decide_eq_false_2 (k0 = k)) by congruence. exact IH.
Qed.






Lemma top_level_key_absent (items_by_key : gmap str Item) (k : str) :
  items_by_key !! k = None -> top_level_key items_by_key k = Done k.
Proof.
  intros Hk. unfold top_level_key. rewrite top_level_key_fuel_step.
  unfold parent_of. rewrite Hk. reflexivity.
Qed.


End Groups.

Lemma known_deck_skips_group_witness :
  let step := @process_group unit demo_remote (parent_deck (py "79.002 Biosensors"))
                demo_papers in
  let group := (py "PAPER1", [py "Annotations: GABA sensing"]) in
  let w1 := {| decks_exist := {[demo_deck]};
               calls := [CreateDeck demo_deck;
                         ChatCompletion (py "Annotations: GABA sensing");
                         AddNotes demo_deck (py "What is measured? (Doe et al., 2015)")
                           (py "GABA release.")];
               net := tt |} in
  step group w1 = (Done tt, w1)
  /\ for_each (([group] ++ []) ++ group :: []) step demo_world
     = for_each (([group] ++ []) ++ []) step demo_world
  /\ (forall (w w' : World unit) (r : outcome unit),
        step group w = (r, w') -> calls w' <> calls w -> demo_deck ∉ decks_exist w).
Proof.
  intros step group w1.
  apply (@known_deck_skips_group unit demo_remote (parent_deck (py "79.002 Biosensors"))
           demo_papers [group] [] [] (py "PAPER1") [py "Annotations: GABA sensing"]
           demo_paper demo_deck demo_world w1 w1).
  - vm_compute. reflexivity.
  - vm_compute. reflexivity.
  - vm_compute. reflexivity.
  - apply elem_of_singleton. reflexivity.
  - reflexivity.
Defined.




Lemma parse_cards_wellformed_pairs_witness :
  parse_cards demo_reply = wellformed_pairs (map classify (splitlines demo_reply))
  /\ exists (reply : str) (n n' : unit),
       @openai_post unit demo_remote (join [10; 10]%N [py "Annotations: GABA sensing"]) n
       = (Done reply, n')
       /\ [CreateDeck demo_deck;
           ChatCompletion (py "Annotations: GABA sensing");
           AddNotes demo_deck (py "What is measured? (Doe et al., 2015)")
             (py "GABA release.")]
          = [] ++ [CreateDeck demo_deck;
                   ChatCompletion (join [10; 10]%N [py "Annotations: GABA sensing"])]
               ++ map (add_notes demo_deck)
                    (wellformed_pairs (map classify (splitlines reply))).
Proof.
  destruct (@parse_cards_wellformed_pairs unit demo_remote demo_reply) as [Hparse Hpush].
  split; [exact Hparse|].
  apply (Hpush (parent_deck (py "79.002 Biosensors")) demo_papers (py "PAPER1")
           [py "Annotations: GABA sensing"] demo_paper demo_deck demo_world
           {| decks_exist := {[demo_deck]};
              calls := [CreateDeck demo_deck;
                        ChatCompletion (py "Annotations: GABA sensing");
                        AddNotes demo_deck (py "What is measured? (Doe et al., 2015)")
                          (py "GABA release.")];
              net := tt |}).
  - vm_compute. reflexivity.
  - vm_compute. reflexivity.
  - apply not_elem_of_empty.
  - vm_compute. reflexivity.
Defined.

(** *** Paging through the Zotero library *)

Section Paging.
Context `{TextLibs} {Net : Type} `{Remote Net}.

(** The paging loop sends nothing to Anki or the chat endpoint. *)
Lemma paginate_quiet {A} (fetch : Z -> Z -> Net -> outcome (list A) * Net) (limit : Z) :
  forall (fuel : nat) (start : Z) (out : list A) (w : World Net),
    calls (snd (paginate fuel fetch limit start out w)) = calls w
    /\ decks_exist (snd (paginate fuel fetch limit start out w)) = decks_exist w.
Proof.
  induction fuel as [|fuel IH]; intros start out w; cbn [paginate].
  - split; reflexivity.
  - unfold bindM, send. destruct (fetch limit start (net w)) as [[page|e|] n];
      [|split; reflexivity|split; reflexivity].
    destruct (Z.of_nat (length page) <? limit)%Z; [split; reflexivity|].
    destruct (IH (start + limit)%Z (out ++ page)
                {| decks_exist := decks_exist w; calls := calls w; net := n |}) as [Hc Hd].
    split; assumption.
Qed.

Lemma paginate_serves {A} (fetch : Z -> Z -> Net -> outcome (list A) * Net)
  (xs : list A) (limit : Z) :
  (0 < limit)%Z ->
  (forall (start : Z) (n : Net), (0 <= start)%Z ->
     fst (fetch limit start n) = Done (take (Z.to_nat limit) (drop (Z.to_nat start) xs))) ->
  forall (fuel : nat) (start : Z) (out : list A) (w : World Net),
    (0 <= start)%Z ->
    (Z.of_nat (length (drop (Z.to_nat start) xs)) < Z.of_nat fuel * limit)%Z ->
    fst (paginate fuel fetch limit start out w) = Done (out ++ drop (Z.to_nat start) xs).
Proof.
  intros Hlimit Hserve. induction fuel as [|fuel IH]; intros start out w Hstart Hfuel.
  - exfalso. lia.
  - cbn [paginate]. unfold bindM, send. specialize (Hserve start (net w) Hstart).
    destruct (fetch limit start (net w)) as [r n]. cbn [fst] in Hserve. subst r.
    set (rest := drop (Z.to_nat start) xs) in *.
    destruct (Z.ltb_spec (Z.of_nat (length (take (Z.to_nat limit) rest))) limit) as [Hshort|Hfull].
    + cbn [ret fst]. rewrite take_ge; [reflexivity|].
      rewrite length_take in Hshort. lia.
    + rewrite length_take in Hfull.
      rewrite IH; [| lia |].
      * f_equal. rewrite <- app_assoc. f_equal.
        replace (Z.to_nat (start + limit)) with (Z.to_nat start + Z.to_nat limit) by lia.
        rewrite <- drop_drop. fold rest. apply take_drop.
      * replace (Z.to_nat (start + limit)) with (Z.to_nat start + Z.to_nat limit) by lia.
        rewrite <- drop_drop. fold rest. rewrite length_drop. lia.
Qed.

(** X11: against a library that answers each page request with the slice
    [start : start + limit] of a fixed list, all_collections and fetch_items
    return the whole list, in order, once the pages allowed outnumber the
    full pages of the list; they send no request to Anki or to the chat
    endpoint and leave the set of known decks alone. *)
Theorem paging_returns_whole_list (colls : list Collection) (items : list Item)
  (coll_key : str) (fuel : nat) (w : World Net) :
  ((forall (start : Z) (n : Net), (0 <= start)%Z ->
      fst (zotero_collections 100 start n) = Done (take 100 (drop (Z.to_nat start) colls))) ->
   length colls < fuel * 100 ->
   fst (all_collections fuel w) = Done colls
   /\ calls (snd (all_collections fuel w)) = calls w
   /\ decks_exist (snd (all_collections fuel w)) = decks_exist w)
  /\ ((forall (start : Z) (n : Net), (0 <= start)%Z ->
         fst (zotero_collection_items coll_key 100 start n)
         = Done (take 100 (drop (Z.to_nat start) items))) ->
      length items < fuel * 100 ->
      fst (fetch_items fuel coll_key w) = Done items
      /\ calls (snd (fetch_items fuel coll_key w)) = calls w
      /\ decks_exist (snd (fetch_items fuel coll_key w)) = decks_exist w).
Proof.
  split; intros Hserve Hfuel.
  - unfold all_collections. split; [|apply paginate_quiet].
    rewrite (paginate_serves zotero_collections colls 100); [reflexivity|lia|exact Hserve|lia|].
    change (Z.to_nat 0) with 0%nat. rewrite drop_0. lia.
  - unfold fetch_items. split; [|apply paginate_quiet].
    rewrite (paginate_serves (zotero_collection_items coll_key) items 100);
      [reflexivity|lia|exact Hserve|lia|].
    change (Z.to_nat 0) with 0%nat. rewrite drop_0. lia.
Qed.

(** X12: when no collection of the library has the name asked for,
    run_pipeline returns without fetching any item and without any request
    to Anki or to the chat endpoint; the set of known decks is as before. *)
Theorem missing_collection_sends_nothing (fuel : nat) (collection_name : str)
  (colls : list Collection) (w w1 : World Net) :
  all_collections fuel w = (Done colls, w1) ->
  Forall (fun c => coll_name c <> collection_name) colls ->
  run_pipeline fuel collection_name w = (Done tt, w1)
  /\ calls w1 = calls w
  /\ decks_exist w1 = decks_exist w.
Proof.
  intros Hall Hnone. split.
  - unfold run_pipeline, bindM at 1. rewrite Hall.
    assert (Hfind : List.find (fun c => bool_decide (coll_name c = collection_name)) colls
                    = None).
    { clear Hall. induction Hnone as [|c rest Hc _ IH]; cbn [List.find]; [reflexivity|].
      rewrite bool_decide_eq_false_2 by exact Hc. exact IH. }
    rewrite Hfind. reflexivity.
  - pose proof (paginate_quiet zotero_collections 100 fuel 0 [] w) as Hquiet.
    unfold all_collections in Hall. rewrite Hall in Hquiet. exact Hquiet.
Qed.

End Paging.

Lemma paging_returns_whole_list_witness :
  fst (@fetch_items unit (serving_remote [] many_items) 3 (py "COLL1") demo_world)
  = Done many_items.
Proof.
  destruct (@paging_returns_whole_list unit (serving_remote [] many_items)
              [] many_items (py "COLL1") 3 demo_world) as [_ Hitems].
  apply Hitems; [intros start n Hstart; reflexivity|].
  unfold many_items. rewrite repeat_length. lia.
Defined.

Lemma missing_collection_sends_nothing_witness :
  @run_pipeline demo_text unit demo_remote 1 (py "79.002 Biosensors") demo_world
  = (Done tt, demo_world).
Proof.
  apply (@missing_collection_sends_nothing demo_text unit demo_remote 1
           (py "79.002 Biosensors") [] demo_world demo_world); [reflexivity|constructor].
Defined.

(** *** An annotation note without a parent *)

Section Standalone.
Context `{TextLibs} {Net : Type} `{Remote Net}.

Lemma group_notes_standalone (items_by_key : gmap str Item) (notes : list Item) :
  acyclic items_by_key ->
  (exists n, In n notes /\ is_annotation (markdown n) = true /\ parentItem n = None) ->
  forall annos0,
    group_notes items_by_key notes annos0 = Raise (KeyError (py "parentItem")).
Proof.
  intros Hacyclic. induction notes as [|x notes IH]; intros (n & Hin & Hann & Hpar) annos0.
  - destruct Hin.
  - cbn [group_notes]. destruct (is_annotation (markdown x)) eqn:Hx; cbn [negb].
    + destruct (parentItem x) as [p|] eqn:Hp; [|reflexivity]. cbn [bind].
      destruct (top_level_key_terminates_acyclic_fuel items_by_key p Hacyclic) as [top ->].
      cbn [bind]. apply IH. exists n. destruct Hin as [->|Hin]; [congruence|auto].
    + apply IH. exists n. destruct Hin as [->|Hin]; [congruence|auto].
Qed.

(** X13: when the items fetched for the collection hold a note whose text
    has "annotations" in its first 80 characters and that has no parentItem
    (a note of its own), and the parent references have no cycle,
    run_pipeline raises KeyError('parentItem') while grouping the notes: no
    request has gone to Anki or to the chat endpoint, so no paper of the
    collection gets cards. *)
Theorem standalone_annotation_note_raises (fuel : nat) (collection_name : str)
  (colls : list Collection) (c : Collection) (items : list Item) (n : Item)
  (w w1 w2 : World Net) :
  all_collections fuel w = (Done colls, w1) ->
  List.find (fun c => bool_decide (coll_name c = collection_name)) colls = Some c ->
  fetch_items fuel (coll_key c) w1 = (Done items, w2) ->
  acyclic (index_by_key items) ->
  In n items ->
  itemType n = py "note" ->
  is_annotation (markdown n) = true ->
  parentItem n = None ->
  run_pipeline fuel collection_name w = (Raise (KeyError (py "parentItem")), w2)
  /\ calls w2 = calls w
  /\ decks_exist w2 = decks_exist w.
Proof.
  intros Hall Hfind Hitems Hacyclic Hin Htype Hann Hpar. split.
  - unfold run_pipeline, bindM at 1. rewrite Hall, Hfind.
    unfold bindM at 1. rewrite Hitems. unfold bindM at 1, lift at 1.
    rewrite (group_notes_standalone _ _ Hacyclic); [reflexivity|].
    exists n. split; [|split; assumption].
    apply filter_In. split; [exact Hin|]. unfold is_note.
    apply bool_decide_eq_true. exact Htype.
  - pose proof (paginate_quiet zotero_collections 100 fuel 0 [] w) as [Hc1 Hd1].
    pose proof (paginate_quiet (zotero_collection_items (coll_key c)) 100 fuel 0 [] w1)
      as [Hc2 Hd2].
    unfold all_collections in Hall. unfold fetch_items in Hitems.
    rewrite Hall in Hc1, Hd1. rewrite Hitems in Hc2, Hd2. cbn [snd] in *.
    split; congruence.
Qed.

End Standalone.

Lemma standalone_note_acyclic : acyclic (index_by_key [standalone_note]).
Proof.
  apply (ranked_acyclic _ (fun _ => 0)). intros k p.
  destruct (decide (k = py "NOTE9")) as [->|Hk]; [vm_compute; discriminate|].
  unfold parent_of, index_by_key. cbn [fold_left].
  rewrite lookup_insert_ne by (intros E; apply Hk; rewrite <- E; reflexivity).
  rewrite lookup_empty. discriminate.
Qed.

Lemma standalone_annotation_note_raises_witness :
  @run_pipeline demo_text unit (serving_remote [demo_collection] [standalone_note]) 1
    (py "79.002 Biosensors") demo_world
  = (Raise (KeyError (py "parentItem")), demo_world).
Proof.
  apply (@standalone_annotation_note_raises demo_text unit
           (serving_remote [demo_collection] [standalone_note]) 1 (py "79.002 Biosensors")
           [demo_collection] demo_collection [standalone_note] standalone_note
           demo_world demo_world demo_world).
  - reflexivity.
  - vm_compute. reflexivity.
  - reflexivity.
  - exact standalone_note_acyclic.
  - left. reflexivity.
  - reflexivity.
  - vm_compute. reflexivity.
  - reflexivity.
Defined.

(** *** The groups as a whole *)

Section Buckets.
Context `{TextLibs}.

Lemma setdefault_append_keys_in (annos : list (str * list str)) (k md x : str) :
  In x (map fst (setdefault_append annos k md)) -> x = k \/ In x (map fst annos).
Proof.
  induction annos as [|[k' txts] annos IH]; cbn [setdefault_append map fst In].
  - intros [<-|[]]. left. reflexivity.
  - destruct (decide (k' = k)) as [->|Hne]; cbn [map fst In]; [tauto|].
    intros [<-|Hx]; [tauto|]. destruct (IH Hx); tauto.
Qed.

Lemma setdefault_append_keys_nodup (annos : list (str * list str)) (k md : str) :
  List.NoDup (map fst annos) -> List.NoDup (map fst (setdefault_append annos k md)).
Proof.
  induction annos as [|[k' txts] annos IH]; cbn [setdefault_append map fst]; intros Hnd.
  - repeat constructor. intros [].
  - inversion Hnd as [|? ? Hfresh Hrest]; subst.
    destruct (decide (k' = k)) as [->|Hne]; cbn [map fst]; [constructor; assumption|].
    constructor; [|apply IH, Hrest].
    intros Hin. apply setdefault_append_keys_in in Hin. destruct Hin; [congruence|tauto].
Qed.

Lemma annos_get_In (annos : list (str * list str)) (k : str) (txts : list str) :
  List.NoDup (map fst annos) ->
  annos_get annos k = Some txts <-> In (k, txts) annos.
Proof.
  unfold annos_get. induction annos as [|[k' txts'] annos IH]; cbn [List.find map fst In];
    intros Hnd.
  - split; [discriminate|tauto].
  - inversion Hnd as [|? ? Hfresh Hrest]; subst.
    destruct (decide (k' = k)) as [->|Hne].
    + rewrite bool_decide_eq_true_2 by reflexivity. cbn. split.
      * intros [= ->]. left. reflexivity.
      * intros [[= ->]|Hin]; [reflexivity|].
        exfalso. apply Hfresh. apply (in_map fst) in Hin. exact Hin.
    + rewrite bool_decide_eq_false_2 by exact Hne. rewrite (IH Hrest).
      split; [tauto|]. intros [[= ? ?]|Hin]; [congruence|exact Hin].
Qed.

Lemma bucketed_under_other (items_by_key : gmap str Item) (k : str) (n : Item) :
  is_annotation (markdown n) = false -> bucketed_under items_by_key k n = false.
Proof. intros Hn. unfold bucketed_under. rewrite Hn. reflexivity. Qed.

Lemma group_notes_buckets_from (items_by_key : gmap str Item) (notes : list Item) :
  forall annos0 annos : list (str * list str),
    group_notes items_by_key notes annos0 = Done annos ->
    List.NoDup (map fst annos0) ->
    (forall k, annos_get annos0 k <> Some []) ->
    List.NoDup (map fst annos)
    /\ forall k,
         annos_get annos k
         = nonempty (default [] (annos_get annos0 k)
                     ++ map markdown (List.filter (bucketed_under items_by_key k) notes)).
Proof.
  induction notes as [|x notes IH]; intros annos0 annos Hrun Hnd Hfull;
    cbn [group_notes] in Hrun.
  - injection Hrun as <-. split; [exact Hnd|]. intros k. cbn [List.filter map].
    rewrite app_nil_r. specialize (Hfull k).
    destruct (annos_get annos0 k) as [[|t txts]|]; [congruence|reflexivity|reflexivity].
  - destruct (is_annotation (markdown x)) eqn:Hx; cbn [negb] in Hrun.
    + destruct (parentItem x) as [p|] eqn:Hp; [|discriminate]. cbn [bind] in Hrun.
      destruct (top_level_key items_by_key p) as [top|e|] eqn:Htop;
        [|discriminate|discriminate].
      cbn [bind] in Hrun.
      destruct (IH _ _ Hrun) as [Hnd' Hget].
      * apply setdefault_append_keys_nodup, Hnd.
      * intros k. rewrite annos_get_setdefault_append.
        destruct (decide (k = top)); [|apply Hfull].
        intros [= Hnil]. apply app_eq_nil in Hnil. destruct Hnil as [_ Hnil]. discriminate.
      * split; [exact Hnd'|]. intros k. rewrite Hget, annos_get_setdefault_append.
        cbn [List.filter]. unfold bucketed_under at 2. rewrite Hx, Hp, Htop. cbn [andb].
        destruct (decide (k = top)) as [->|Hne].
        -- rewrite bool_decide_eq_true_2 by reflexivity. cbn [map default]. unfold id.
           rewrite <- app_assoc. reflexivity.
        -- rewrite bool_decide_eq_false_2 by congruence. reflexivity.
    + destruct (IH _ _ Hrun Hnd Hfull) as [Hnd' Hget]. split; [exact Hnd'|].
      intros k. rewrite Hget. cbn [List.filter].
      rewrite (bucketed_under_other _ _ _ Hx). reflexivity.
Qed.

(** X14: when the grouping of the notes returns, its keys are distinct, and
    the group under a key [k] holds exactly the texts of the annotation
    notes whose parentItem resolves to [k], in the order of the notes;
    there is a group for [k] only if there is such a note. *)
Theorem group_notes_buckets (items_by_key : gmap str Item) (notes : list Item)
  (annos : list (str * list str)) :
  group_notes items_by_key notes [] = Done annos ->
  List.NoDup (map fst annos)
  /\ forall (k : str) (txts : list str),
       In (k, txts) annos
       <-> txts <> []
           /\ txts = map markdown (List.filter (bucketed_under items_by_key k) notes).
Proof.
  intros Hrun.
  destruct (group_notes_buckets_from _ _ _ _ Hrun) as [Hnd Hget];
    [constructor|intros k; discriminate|].
  split; [exact Hnd|]. intros k txts.
  rewrite <- (annos_get_In _ _ _ Hnd), Hget. cbn [annos_get List.find fmap default app].
  unfold nonempty.
  destruct (map markdown (List.filter (bucketed_under items_by_key k) notes)) as [|t ts].
  - split; [discriminate|]. intros [Hne ->]. destruct (Hne eq_refl).
  - split; [intros [= <-]; split; [discriminate|reflexivity]|].
    intros [_ ->]. reflexivity.
Qed.

End Buckets.

Lemma group_notes_buckets_witness :
  let annos := [(py "PAPER1", [py "Annotations: GABA sensing"])] in
  List.NoDup (map fst annos)
  /\ forall (k : str) (txts : list str),
       In (k, txts) annos
       <-> txts <> []
           /\ txts = map (@markdown demo_text)
                       (List.filter (@bucketed_under demo_text (index_by_key demo_items) k)
                          (List.filter is_note demo_items)).
Proof.
  intros annos.
  apply (@group_notes_buckets demo_text (index_by_key demo_items)
           (List.filter is_note demo_items) annos).
  vm_compute. reflexivity.
Defined.

(** *** Decks across the groups of a run *)

Section Decks.
Context `{TextLibs} {Net : Type} `{Remote Net}.

Lemma deck_name_same (PARENT_DECK : str) (p1 p2 : Item) (c1 c2 : Creator)
  (rest1 rest2 : list Creator) :
  creators p1 = c1 :: rest1 -> creators p2 = c2 :: rest2 ->
  lastName c1 = lastName c2 ->
  slice_to (default [] (date p1)) 4 = slice_to (default [] (date p2)) 4 ->
  exists deck, deck_name PARENT_DECK p1 = Done deck /\ deck_name PARENT_DECK p2 = Done deck.
Proof.
  intros Hc1 Hc2 Hname Hyear. unfold deck_name. rewrite Hc1, Hc2.
  cbn [bind]. rewrite Hname, Hyear. eauto.
Qed.

(** X15: the deck name is made of the last name of the first creator and the
    first four characters of the date only. So once the turn of a paper's
    group has ended normally, the group of any other paper with the same
    first author's last name and the same year, met later in the loop, is
    passed over: nothing is sent for it and nothing changes. *)
Theorem same_author_and_year_skipped (PARENT_DECK : str) (papers : gmap str Item)
  (pid1 pid2 : str) (txts1 txts2 : list str) (p1 p2 : Item) (c1 c2 : Creator)
  (rest1 rest2 : list Creator) (between : list (str * list str)) (w w1 w2 : World Net) :
  papers !! pid1 = Some p1 -> papers !! pid2 = Some p2 ->
  creators p1 = c1 :: rest1 -> creators p2 = c2 :: rest2 ->
  lastName c1 = lastName c2 ->
  slice_to (default [] (date p1)) 4 = slice_to (default [] (date p2)) 4 ->
  process_group PARENT_DECK papers (pid1, txts1) w = (Done tt, w1) ->
  for_each between (process_group PARENT_DECK papers) w1 = (Done tt, w2) ->
  process_group PARENT_DECK papers (pid2, txts2) w2 = (Done tt, w2).
Proof.
  intros Hp1 Hp2 Hc1 Hc2 Hname Hyear Hfirst Hbetween.
  destruct (deck_name_same PARENT_DECK p1 p2 c1 c2 rest1 rest2 Hc1 Hc2 Hname Hyear)
    as (deck & Hd1 & Hd2).
  apply (process_group_known _ _ _ _ p2 deck _ Hp2 Hd2).
  pose proof (groups_decks PARENT_DECK papers between w1) as Hsub.
  rewrite Hbetween in Hsub. apply Hsub. cbn [snd].
  destruct (decide (deck ∈ decks_exist w)) as [Hknown|Hnew].
  - rewrite (process_group_known _ _ _ _ _ _ _ Hp1 Hd1 Hknown) in Hfirst.
    injection Hfirst as <-. exact Hknown.
  - destruct (process_group_new _ _ _ _ _ _ _ _ Hp1 Hd1 Hnew Hfirst)
      as (reply & n & n' & _ & _ & Hdecks).
    rewrite Hdecks. apply elem_of_union_l, elem_of_singleton. reflexivity.
Qed.

Lemma push_cards_sent (deck : str) (cards : list (str * str)) (w : World Net) :
  exists pushed,
    calls (snd (for_each cards (fun card => push_card deck (fst card) (snd card)) w))
    = calls w ++ map (add_notes deck) pushed.
Proof.
  revert w. induction cards as [|card cards IH]; intros w.
  - exists []. cbn. rewrite app_nil_r. reflexivity.
  - rewrite push_cards_cons.
    destruct (anki_post (add_notes deck card) (net w)) as [[r|e|] n].
    + destruct (IH (logged (add_notes deck card) n w)) as [pushed Hpushed].
      exists (card :: pushed). rewrite Hpushed. cbn [logged calls map].
      rewrite <- app_assoc. reflexivity.
    + exists [card]. reflexivity.
    + exists [card]. reflexivity.
Qed.

Lemma follows_deck_pushed (deck : str) (pushed : list (str * str)) :
  List.Forall (follows_deck deck) (map (add_notes deck) pushed).
Proof. induction pushed; constructor; [reflexivity|assumption]. Qed.

Lemma follows_deck_created (deck : str) (rest : list Call) :
  List.Forall (follows_deck deck) rest -> created_decks rest = [].
Proof.
  induction 1 as [|c rest Hc _ IH]; [reflexivity|].
  unfold created_decks in *. cbn [flat_map]. rewrite IH.
  destruct c; cbn in Hc; try contradiction; reflexivity.
Qed.

Ltac nothing_sent :=
  intros [= <- <-]; exists []; split; [symmetry; apply app_nil_r|left; reflexivity].

Ltac deck_sent deck rest Hknown :=
  intros [= <- <-]; exists (CreateDeck deck :: rest);
  split; [cbn [calls]; rewrite <- ?app_assoc; reflexivity|];
  right; exists deck, rest;
  split; [reflexivity|]; split; [exact Hknown|];
  split; [repeat constructor|discriminate].

(** What one turn of the loop sends: nothing, or the creation of a deck that
    was not known, followed by requests for that deck. *)
Lemma process_group_sent (PARENT_DECK : str) (papers : gmap str Item)
  (group : str * list str) (w w' : World Net) (r : outcome unit) :
  process_group PARENT_DECK papers group w = (r, w') ->
  exists sent,
    calls w' = calls w ++ sent
    /\ (sent = []
        \/ exists deck rest,
             sent = CreateDeck deck :: rest
             /\ (deck ∉ decks_exist w)
             /\ List.Forall (follows_deck deck) rest
             /\ (r = Done tt -> deck ∈ decks_exist w')).
Proof.
  destruct group as [pid txts]. unfold process_group.
  destruct (papers !! pid) as [paper|]; [|nothing_sent].
  unfold bindM at 1, lift at 1.
  destruct (deck_name PARENT_DECK paper) as [deck|e|]; [|nothing_sent|nothing_sent].
  unfold bindM at 1, gets at 1.
  destruct (bool_decide (deck ∈ decks_exist w)) eqn:Hknown; [nothing_sent|].
  apply bool_decide_eq_false in Hknown.
  unfold bindM at 1, ensure_deck at 1, bindM at 1, send at 1.
  destruct (anki_post (CreateDeck deck) (net w)) as [[r0|e|] n0];
    [|deck_sent deck (@nil Call) Hknown|deck_sent deck (@nil Call) Hknown].
  cbn [ret]. unfold bindM at 1, modify at 1. unfold bindM at 1, generate_cards, send.
  cbn [net set_decks_exist calls decks_exist].
  destruct (openai_post (join [10; 10]%N txts) n0) as [[reply|e|] n1];
    [|deck_sent deck [ChatCompletion (join [10; 10]%N txts)] Hknown
     |deck_sent deck [ChatCompletion (join [10; 10]%N txts)] Hknown].
  set (w0 := {| decks_exist := {[deck]} ∪ decks_exist w;
                calls := (calls w ++ [CreateDeck deck])
                         ++ [ChatCompletion (join [10; 10]%N txts)];
                net := n1 |}).
  destruct (push_cards_sent deck (parse_cards reply) w0) as [pushed Hpushed].
  destruct (push_cards_calls deck (parse_cards reply) w0) as [Hdecks _].
  intros Hrun. rewrite Hrun in Hpushed, Hdecks. cbn [snd] in Hpushed, Hdecks.
  exists (CreateDeck deck :: ChatCompletion (join [10; 10]%N txts)
          :: map (add_notes deck) pushed).
  split.
  - rewrite Hpushed. subst w0. cbn [calls]. rewrite <- !app_assoc. reflexivity.
  - right. exists deck, (ChatCompletion (join [10; 10]%N txts) :: map (add_notes deck) pushed).
    split; [reflexivity|]. split; [exact Hknown|]. split.
    + constructor; [exact I|apply follows_deck_pushed].
    + intros _. rewrite Hdecks. subst w0. cbn [decks_exist].
      apply elem_of_union_l, elem_of_singleton. reflexivity.
Qed.

Lemma groups_sent (PARENT_DECK : str) (papers : gmap str Item)
  (groups : list (str * list str)) :
  forall w : World Net,
    exists sent,
      calls (snd (for_each groups (process_group PARENT_DECK papers) w)) = calls w ++ sent
      /\ List.NoDup (created_decks sent)
      /\ (forall deck, In deck (created_decks sent) -> deck ∉ decks_exist w)
      /\ (forall deck front back,
            In (AddNotes deck front back) sent -> In deck (created_decks sent))
      /\ ~ In DeckNames sent
      /\ (fst (for_each groups (process_group PARENT_DECK papers) w) = Done tt ->
          forall deck, In deck (created_decks sent) ->
            deck ∈ decks_exist (snd (for_each groups (process_group PARENT_DECK papers) w))).
Proof.
  induction groups as [|g groups IH]; intros w.
  - exists []. cbn. rewrite app_nil_r. repeat split; try constructor; try tauto.
  - cbn [for_each]. unfold bindM.
    pose proof (process_group_decks PARENT_DECK papers g w) as Hgrow.
    destruct (process_group PARENT_DECK papers g w) as [r1 w1] eqn:Hg.
    destruct (process_group_sent PARENT_DECK papers g w w1 r1 Hg) as (sent1 & Hcalls1 & Hshape).
    cbn [snd] in Hgrow.
    assert (Hone : List.NoDup (created_decks sent1)
                   /\ (forall deck, In deck (created_decks sent1) -> deck ∉ decks_exist w)
                   /\ (forall deck front back,
                         In (AddNotes deck front back) sent1 -> In deck (created_decks sent1))
                   /\ ~ In DeckNames sent1
                   /\ (r1 = Done tt ->
                       forall deck, In deck (created_decks sent1) -> deck ∈ decks_exist w1)).
    { destruct Hshape as [->|(deck & rest & -> & Hnew & Hrest & Hdone)].
      - cbn. repeat split; try constructor; tauto.
      - assert (Hcreated : created_decks (CreateDeck deck :: rest) = [deck])
          by (unfold created_decks; cbn [flat_map];
              fold (created_decks rest); rewrite (follows_deck_created _ _ Hrest);
              reflexivity).
        rewrite Hcreated. rewrite List.Forall_forall in Hrest.
        split; [repeat constructor; intros []|]. split; [intros d [<-|[]]; exact Hnew|].
        split; [|split].
        + intros d front back [Hin|Hin]; [discriminate|].
          left. symmetry. apply (Hrest _ Hin).
        + intros [Hin|Hin]; [discriminate|]. apply (Hrest _ Hin).
        + intros Hr d [<-|[]]. apply Hdone, Hr. }
    destruct Hone as (Hnd1 & Hnew1 & Hadd1 & Hno1 & Hin1).
    destruct r1 as [[]|e|]; cbn [fst snd];
      [|exists sent1; repeat split; try assumption; discriminate
       |exists sent1; repeat split; try assumption; discriminate].
    destruct (IH w1) as (sent2 & Hcalls2 & Hnd2 & Hnew2 & Hadd2 & Hno2 & Hin2).
    pose proof (groups_decks PARENT_DECK papers groups w1) as Hgrow2.
    assert (Happ : created_decks (sent1 ++ sent2) = created_decks sent1 ++ created_decks sent2)
      by (unfold created_decks; apply flat_map_app).
    exists (sent1 ++ sent2). rewrite Happ.
    split; [rewrite Hcalls2, Hcalls1, <- app_assoc; reflexivity|].
    split; [|split; [|split; [|split]]].
    + apply List.NoDup_app; [exact Hnd1|exact Hnd2|].
      intros d Hd1 Hd2. apply (Hnew2 d Hd2), (Hin1 eq_refl d Hd1).
    + intros d Hd. apply in_app_or in Hd. destruct Hd as [Hd|Hd]; [apply Hnew1, Hd|].
      intros Hknown. apply (Hnew2 d Hd), Hgrow, Hknown.
    + intros d front back Hin. apply in_app_or in Hin. apply in_or_app.
      destruct Hin as [Hin|Hin]; [left; eapply Hadd1, Hin|right; eapply Hadd2, Hin].
    + intros Hin. apply in_app_or in Hin. tauto.
    + intros Hr d Hd. apply in_app_or in Hd. destruct Hd as [Hd|Hd]; [|apply Hin2; assumption].
      apply Hgrow2, (Hin1 eq_refl d Hd).
Qed.

(** X16: whatever the remote ends answer, and whether or not the loop over
    the groups ends normally, the requests it has sent obey this: no deck
    name is created twice, every deck created was not in the set of known
    decks when the loop started, every card pushed goes to a deck created
    earlier in the same loop (never to a deck that existed before), and the
    list of decks is not asked for again. *)
Theorem loop_pushes_only_into_new_decks (PARENT_DECK : str) (papers : gmap str Item)
  (groups : list (str * list str)) (w : World Net) :
  exists sent,
    calls (snd (for_each groups (process_group PARENT_DECK papers) w)) = calls w ++ sent
    /\ List.NoDup (created_decks sent)
    /\ (forall deck, In deck (created_decks sent) -> deck ∉ decks_exist w)
    /\ (forall deck front back,
          In (AddNotes deck front back) sent ->
          In deck (created_decks sent) /\ (deck ∉ decks_exist w))
    /\ ~ In DeckNames sent.
Proof.
  destruct (groups_sent PARENT_DECK papers groups w)
    as (sent & Hcalls & Hnd & Hnew & Hadd & Hno & _).
  exists sent. repeat split; try assumption.
  - eapply Hadd; eassumption.
  - apply Hnew. eapply Hadd; eassumption.
Qed.

(** X17: in a run of run_pipeline that gets as far as asking Anki for its
    deck names, that request is the first one sent and is not repeated, and
    whatever happens afterwards no deck that Anki listed is created again or
    receives a card: every card goes to a deck created earlier in this run,
    and no deck is created twice. *)
Theorem run_leaves_listed_decks_alone (fuel : nat) (collection_name : str)
  (colls : list Collection) (c : Collection) (items : list Item)
  (annos : list (str * list str)) (names : list str) (w w1 w2 : World Net) (n3 : Net) :
  all_collections fuel w = (Done colls, w1) ->
  List.find (fun c => bool_decide (coll_name c = collection_name)) colls = Some c ->
  fetch_items fuel (coll_key c) w1 = (Done items, w2) ->
  group_notes (index_by_key items) (List.filter is_note items) [] = Done annos ->
  anki_post DeckNames (net w2) = (Done names, n3) ->
  exists rest,
    calls (snd (run_pipeline fuel collection_name w)) = calls w ++ DeckNames :: rest
    /\ ~ In DeckNames rest
    /\ List.NoDup (created_decks rest)
    /\ (forall deck, In deck (created_decks rest) -> ~ In deck names)
    /\ (forall deck front back,
          In (AddNotes deck front back) rest ->
          In deck (created_decks rest) /\ ~ In deck names).
Proof.
  intros Hall Hfind Hitems Hgroups Hnames.
  pose proof (paginate_quiet zotero_collections 100 fuel 0 [] w) as [Hc1 _].
  pose proof (paginate_quiet (zotero_collection_items (coll_key c)) 100 fuel 0 [] w1)
    as [Hc2 _].
  unfold all_collections in Hall. unfold fetch_items in Hitems.
  rewrite Hall in Hc1. rewrite Hitems in Hc2. cbn [snd] in Hc1, Hc2.
  unfold run_pipeline, bindM at 1, all_collections. rewrite Hall, Hfind.
  unfold bindM at 1, fetch_items. rewrite Hitems.
  unfold bindM at 1, lift at 1. rewrite Hgroups.
  unfold bindM at 1, existing_decks, bindM at 1, send at 1. rewrite Hnames.
  cbn [ret]. unfold bindM at 1, modify at 1. cbn [set_decks_exist calls net decks_exist].
  set (w4 := {| decks_exist := list_to_set names; calls := calls w2 ++ [DeckNames];
                net := n3 |}).
  destruct (groups_sent (parent_deck collection_name) (papers_by_id items) annos w4)
    as (rest & Hcalls & Hnd & Hnew & Hadd & Hno & _).
  assert (Hlisted : forall deck, In deck (created_decks rest) -> ~ In deck names).
  { intros deck Hdeck Hin. apply (Hnew deck Hdeck). subst w4. cbn [decks_exist].
    apply elem_of_list_to_set, list_elem_of_In. exact Hin. }
  exists rest. split.
  - transitivity (calls w4 ++ rest); [exact Hcalls|].
    subst w4. cbn [calls]. rewrite Hc2, Hc1, <- app_assoc. reflexivity.
  - split; [exact Hno|]. split; [exact Hnd|]. split; [exact Hlisted|].
    intros deck front back Hin. split; [eapply Hadd, Hin|].
    apply Hlisted. eapply Hadd, Hin.
Qed.

End Decks.

Lemma same_author_and_year_skipped_witness :
  let step := @process_group unit demo_remote (parent_deck (py "79.002 Biosensors"))
                twin_papers in
  let w1 := {| decks_exist := {[demo_deck]};
               calls := [CreateDeck demo_deck;
                         ChatCompletion (py "Annotations: GABA sensing");
                         AddNotes demo_deck (py "What is measured? (Doe et al., 2015)")
                           (py "GABA release.")];
               net := tt |} in
  step (py "PAPER2", [py "Annotations: electrodes"]) w1 = (Done tt, w1).
Proof.
  intros step w1.
  apply (@same_author_and_year_skipped unit demo_remote
           (parent_deck (py "79.002 Biosensors")) twin_papers (py "PAPER1") (py "PAPER2")
           [py "Annotations: GABA sensing"] [py "Annotations: electrodes"]
           demo_paper demo_paper2 {| lastName := Some (py "Doe") |}
           {| lastName := Some (py "Doe") |} [] [] [] demo_world w1 w1).
  - vm_compute. reflexivity.
  - vm_compute. reflexivity.
  - reflexivity.
  - reflexivity.
  - reflexivity.
  - reflexivity.
  - vm_compute. reflexivity.
  - reflexivity.
Defined.

Lemma run_leaves_listed_decks_alone_witness :
  exists rest,
    calls (snd (@run_pipeline demo_text unit (serving_remote [demo_collection] demo_items) 1
                  (py "79.002 Biosensors") demo_world))
    = calls demo_world ++ DeckNames :: rest
    /\ ~ In DeckNames rest
    /\ List.NoDup (created_decks rest)
    /\ (forall deck, In deck (created_decks rest) -> ~ In deck [])
    /\ (forall deck front back,
          In (AddNotes deck front back) rest ->
          In deck (created_decks rest) /\ ~ In deck []).
Proof.
  apply (@run_leaves_listed_decks_alone demo_text unit
           (serving_remote [demo_collection] demo_items) 1 (py "79.002 Biosensors")
           [demo_collection] demo_collection demo_items
           [(py "PAPER1", [py "Annotations: GABA sensing"])] [] demo_world demo_world
           demo_world tt).
  - reflexivity.
  - vm_compute. reflexivity.
  - reflexivity.
  - vm_compute. reflexivity.
  - reflexivity.
Defined.

(** *** The fields of a parsed card *)

Lemma lstrip_fixed (s : str) :
  match s with c :: _ => isspace c = false | [] => True end -> lstrip s = s.
Proof. destruct s as [|c s]; [reflexivity|]. cbn [lstrip]. intros ->. reflexivity. Qed.

Lemma lstrip_head (s : str) :
  match lstrip s with c :: _ => isspace c = false | [] => True end.
Proof.
  induction s as [|c s IH]; cbn [lstrip]; [exact I|].
  destruct (isspace c) eqn:Hc; [exact IH|exact Hc].
Qed.

Lemma lstrip_keeps_last (v : str) (c : N) :
  isspace c = false -> exists u, lstrip (v ++ [c]) = u ++ [c].
Proof.
  intros Hc. induction v as [|x v IH]; cbn [app lstrip].
  - rewrite Hc. exists []. reflexivity.
  - destruct (isspace x); [exact IH|]. exists (x :: v). reflexivity.
Qed.

Lemma strip_idem (s : str) : strip (strip s) = strip s.
Proof.
  unfold strip. set (t := lstrip s).
  assert (Ht : match t with c :: _ => isspace c = false | [] => True end)
    by apply lstrip_head.
  assert (Hleft : lstrip (rstrip t) = rstrip t).
  { apply lstrip_fixed. unfold rstrip. destruct t as [|c t']; [exact I|].
    cbn [rev]. destruct (lstrip_keeps_last (rev t') c Ht) as [u ->].
    rewrite rev_app_distr. exact Ht. }
  rewrite Hleft. unfold rstrip.
  rewrite rev_involutive, AudioToNotionSpec.lstrip_idem. reflexivity.
Qed.

Lemma In_drop (c : N) (n : nat) (s : str) : In c (drop n s) -> In c s.
Proof. intros Hc. rewrite <- (take_drop n s). apply in_or_app. right. exact Hc. Qed.

(** No line that splitlines returns holds a line boundary. *)
Lemma splitlines_from_unbroken (n : nat) :
  forall (s cur : str), length s <= n ->
    (forall c, In c cur -> is_linebreak c = false) ->
    forall ln c, In ln (splitlines_from cur s) -> In c ln -> is_linebreak c = false.
Proof.
  induction n as [|n IH]; intros s cur Hlen Hcur ln c Hln Hc.
  - destruct s; [|cbn in Hlen; lia]. cbn [splitlines_from] in Hln.
    destruct cur; [destruct Hln|]. destruct Hln as [<-|[]].
    apply Hcur. apply in_rev. exact Hc.
  - destruct s as [|x s']; cbn [splitlines_from] in Hln.
    + destruct cur; [destruct Hln|]. destruct Hln as [<-|[]].
      apply Hcur. apply in_rev. exact Hc.
    + cbn [length] in Hlen. destruct (is_linebreak x) eqn:Hx.
      * destruct Hln as [<-|Hln]; [apply Hcur, in_rev, Hc|].
        destruct s' as [|c2 s''].
        -- destruct Hln.
        -- cbn [length] in Hlen.
           destruct ((x =? 13) && (c2 =? 10))%N;
             (eapply (IH _ []); [|intros ? []|exact Hln|exact Hc]); cbn [length]; lia.
      * eapply (IH s' (x :: cur)); [lia| |exact Hln|exact Hc].
        intros c' [<-|Hc']; [exact Hx|apply Hcur, Hc'].
Qed.

Lemma splitlines_unbroken (txt ln : str) (c : N) :
  In ln (splitlines txt) -> In c ln -> is_linebreak c = false.
Proof.
  intros Hln Hc.
  apply (splitlines_from_unbroken (length txt) txt [] (le_n _) (fun _ H => match H with end)
           ln c Hln Hc).
Qed.

Lemma last_answer_from (lines : list line_kind) (a0 : str) :
  last_answer lines a0 = a0 \/ In (ALine (last_answer lines a0)) lines.
Proof.
  revert a0. induction lines as [|l lines IH]; intros a0; cbn [last_answer]; [tauto|].
  destruct l as [q|a|].
  - tauto.
  - destruct (IH a) as [->|Hin]; [right; left; reflexivity|right; right; exact Hin].
  - destruct (IH a0) as [Heq|Hin]; [tauto|right; right; exact Hin].
Qed.

Lemma wellformed_pairs_from (lines : list line_kind) (q a : str) :
  In (q, a) (wellformed_pairs lines) ->
  q <> [] /\ a <> [] /\ In (QLine q) lines /\ In (ALine a) lines.
Proof.
  induction lines as [|l lines IH]; cbn [wellformed_pairs]; [intros []|].
  destruct l as [q0|a0|]; try (intros Hin; destruct (IH Hin) as (?&?&?&?);
                               repeat split; try assumption; right; assumption).
  intros Hin. apply in_app_or in Hin. destruct Hin as [Hin|Hin].
  - unfold emit in Hin. destruct q0 as [|x q0]; [destruct Hin|].
    destruct (last_answer lines []) as [|y a'] eqn:Hlast; [destruct Hin|].
    destruct Hin as [[= <- <-]|[]].
    split; [discriminate|]. split; [discriminate|]. split; [left; reflexivity|].
    right. destruct (last_answer_from lines []) as [Hnone|Hsome].
    + rewrite Hlast in Hnone. discriminate.
    + rewrite Hlast in Hsome. exact Hsome.
  - destruct (IH Hin) as (?&?&?&?). repeat split; try assumption; right; assumption.
Qed.

Lemma classify_field (ln : str) :
  match classify ln with
  | QLine t | ALine t => t = strip (drop 2 (strip ln))
  | OtherLine => True
  end.
Proof.
  unfold classify. destruct (startswith (strip ln) (py "Q:")); [reflexivity|].
  destruct (startswith (strip ln) (py "A:")); [reflexivity|exact I].
Qed.

Lemma classified_field_clean (lines : list str) (kind : line_kind) (t : str) :
  In kind (map classify lines) -> kind = QLine t \/ kind = ALine t ->
  (forall ln c, In ln lines -> In c ln -> is_linebreak c = false) ->
  strip t = t /\ forall c, In c t -> is_linebreak c = false.
Proof.
  intros Hin Hkind Hlines. apply in_map_iff in Hin. destruct Hin as (ln & Hcl & Hln).
  pose proof (classify_field ln) as Hfield. rewrite Hcl in Hfield.
  assert (Ht : t = strip (drop 2 (strip ln)))
    by (destruct Hkind as [->| ->]; exact Hfield).
  split; [rewrite Ht; apply strip_idem|].
  intros c Hc. apply (Hlines ln c Hln). rewrite Ht in Hc.
  apply AudioToNotionSpec.In_strip, In_drop, AudioToNotionSpec.In_strip in Hc. exact Hc.
Qed.

(** X18: in every pair that parse_cards returns, the question and the
    answer are not empty, have no white space at either end, and hold no
    line boundary: each is one line of text. *)
Theorem parse_cards_fields_clean (txt q a : str) :
  In (q, a) (parse_cards txt) ->
  (q <> [] /\ strip q = q /\ forall c, In c q -> is_linebreak c = false)
  /\ (a <> [] /\ strip a = a /\ forall c, In c a -> is_linebreak c = false).
Proof.
  rewrite parse_cards_pairs. intros Hin.
  destruct (wellformed_pairs_from _ _ _ Hin) as (Hq & Ha & Hql & Hal).
  destruct (classified_field_clean (splitlines txt) (QLine q) q Hql (or_introl eq_refl)
              (splitlines_unbroken txt)) as [Hqs Hqb].
  destruct (classified_field_clean (splitlines txt) (ALine a) a Hal (or_intror eq_refl)
              (splitlines_unbroken txt)) as [Has Hab].
  repeat split; assumption.
Qed.

Lemma parse_cards_fields_clean_witness :
  let q := py "What is measured? (Doe et al., 2015)" in
  let a := py "GABA release." in
  (q <> [] /\ strip q = q /\ forall c, In c q -> is_linebreak c = false)
  /\ (a <> [] /\ strip a = a /\ forall c, In c a -> is_linebreak c = false).
Proof.
  intros q a. apply (parse_cards_fields_clean demo_reply q a).
  vm_compute. left. reflexivity.
Defined.

End ZoteroToAnkiSpec.
